(** * buylist_bot: the confirmation workflow, the OCR polling client and the
    text layout engine, embedded from the Python sources.

    Python [str] values are sequences of Unicode code points; they are
    modelled as lists of code points ([N]), so that [str.strip] and
    [str.split] can use Python's own table of whitespace code points.
    Keyword names of the per-user FSM data dictionary are Rocq strings. *)

From Stdlib Require Import ZArith NArith List Bool Lia Ascii String.
From stdpp Require Import base gmap strings list.
Import ListNotations.

Local Open Scope Z_scope.

(* ===================================================================== *)
(** ** Python strings *)
(* ===================================================================== *)

Module PyStr.

Definition char := N.
Definition str := list char.

(** A literal of the source, written as a Rocq string of ASCII characters. *)
Definition py (s : string) : str :=
  List.map N_of_ascii (list_ascii_of_string s).

Definition nl : char := 10%N.
Definition space : char := 32%N.
Definition lt_sign : char := 60%N.
Definition gt_sign : char := 62%N.
Definition amp_sign : char := 38%N.
Definition dquote : char := 34%N.
Definition squote : char := 39%N.

(** [str.isspace] on one code point (CPython's [_PyUnicode_IsWhitespace]). *)
Definition isspace (c : char) : bool :=
  ((9 <=? c) && (c <=? 13) || (28 <=? c) && (c <=? 32) ||
   (c =? 133) || (c =? 160) || (c =? 5760) ||
   (8192 <=? c) && (c <=? 8202) || (c =? 8232) || (c =? 8233) ||
   (c =? 8239) || (c =? 8287) || (c =? 12288))%N.

(** Truthiness of a [str]: [if s:]. *)
Definition truthy (s : str) : bool :=
  match s with [] => false | _ :: _ => true end.

Fixpoint str_eqb (a b : str) : bool :=
  match a, b with
  | [], [] => true
  | x :: a', y :: b' => (x =? y)%N && str_eqb a' b'
  | _, _ => false
  end.

Fixpoint lstrip (s : str) : str :=
  match s with
  | [] => []
  | c :: r => if isspace c then lstrip r else s
  end.

Definition rstrip (s : str) : str := rev (lstrip (rev s)).

(** [s.strip()] *)
Definition strip (s : str) : str := rstrip (lstrip s).

(** [s.split(sep)] for a one-character separator: never the empty list. *)
Fixpoint split_sep (sep : char) (s : str) : list str :=
  match s with
  | [] => [[]]
  | c :: r =>
      if (c =? sep)%N then [] :: split_sep sep r
      else match split_sep sep r with
           | l :: ls => (c :: l) :: ls
           | [] => [[c]]
           end
  end.

(** [s.split()]: the maximal runs of non-whitespace code points.  [cur] is
    the word being read, most recent code point first. *)
Fixpoint split_ws_from (cur : str) (s : str) : list str :=
  match s with
  | [] => if truthy cur then [rev cur] else []
  | c :: r =>
      if isspace c
      then (if truthy cur then rev cur :: split_ws_from [] r
            else split_ws_from [] r)
      else split_ws_from (c :: cur) r
  end.

Definition split_ws (s : str) : list str := split_ws_from [] s.

(** [sep.join(parts)] *)
Fixpoint join (sep : str) (parts : list str) : str :=
  match parts with
  | [] => []
  | p :: rest =>
      match rest with
      | [] => p
      | _ :: _ => p ++ sep ++ join sep rest
      end
  end.

(** ["  " in s] *)
Fixpoint has_double_space (s : str) : bool :=
  match s with
  | a :: t =>
      match t with
      | b :: _ => ((a =? space) && (b =? space))%N || has_double_space t
      | [] => false
      end
  | [] => false
  end.

(** [s.replace("  ", " ")]: non-overlapping occurrences, left to right. *)
Fixpoint replace_double_space (s : str) : str :=
  match s with
  | a :: t =>
      match t with
      | b :: r =>
          if ((a =? space) && (b =? space))%N
          then space :: replace_double_space r
          else a :: replace_double_space t
      | [] => [a]
      end
  | [] => []
  end.

(** ASCII part of [s.lower()], used where the sources compare the result
    with an ASCII name or extension.  No code point outside [A-Z] lower-cases
    to an ASCII letter other than [i] and [k], which occur in none of those
    names and extensions, so the comparisons come out as in Python.  A
    lower-cased string that is passed on rather than compared is not computed
    with this function (see [Filename]). *)
Definition lower_char (c : char) : char :=
  if ((65 <=? c) && (c <=? 90))%N then (c + 32)%N else c.

Definition lower (s : str) : str := List.map lower_char s.

(** [s.endswith(suffix)] *)
Definition endswith (s suffix : str) : bool :=
  str_eqb (skipn (length s - length suffix) s) suffix
  && (length suffix <=? length s)%nat.

(** [s[:n]] for [n >= 0] *)
Definition slice_to (n : nat) (s : str) : str := firstn n s.

End PyStr.

Import PyStr.

(* ===================================================================== *)
(** ** services/image_generator.py *)
(* ===================================================================== *)

Definition bytes := list Byte.byte.

(** The [while "  " in line: line = line.replace("  ", " ")] loop.  Every
    round shortens the line, so [length line] rounds are enough
    (see [collapse_spaces_done]). *)
Fixpoint collapse_loop (fuel : nat) (line : str) : str :=
  match fuel with
  | O => line
  | S fuel' =>
      if has_double_space line
      then collapse_loop fuel' (replace_double_space line)
      else line
  end.

Definition collapse_spaces (line : str) : str :=
  collapse_loop (length line) line.

(** One round of the [for line in lines] loop of [_clean_text]. *)
Definition clean_step (cleaned_lines : list str) (line : str) : list str :=
  if truthy line then cleaned_lines ++ [collapse_spaces line]
  else cleaned_lines.

Definition cleaned_lines_of (text : str) : list str :=
  let lines := List.map strip (split_sep nl text) in
  fold_left clean_step lines [].

(** [ImageGenerator._clean_text] *)
Definition _clean_text (text : str) : str :=
  join [nl] (cleaned_lines_of text).


(** What the engine uses of Pillow.  [textbbox_width s] is
    [bbox[2] - bbox[0]] for [draw.textbbox((0, 0), s, font=font)];
    [image_open_ok b] tells whether decoding, converting and resizing the
    background [b] succeeds; [random_choice] is the index picked by
    [random.choice]; [pillow_raises] tells whether some other Pillow call
    (font measuring, drawing, saving) raises inside the outer [try]. *)
Record Pillow := {
  textbbox_width : str -> Z;
  image_open_ok : bytes -> bool;
  random_choice : nat;
  pillow_raises : bool
}.

Inductive Background :=
| UserBackground (image_bytes : bytes)
| SolidColor (rgb : Z * Z * Z).

(** The [fill] of a [draw.text] call, as the tuple the source passes. *)
Inductive Fill :=
| RGB (color : Z * Z * Z)
| RGBA (color : Z * Z * Z * Z).

(** One [draw.text((x, y), line, font=font, fill=fill)] call. *)
Record TextDraw := {
  draw_x : Z;
  draw_y : Z;
  draw_text : str;
  draw_fill : Fill
}.

(** The bitmap the engine returns: its size, its background and the
    [draw.text] calls made on it, in order. *)
Record Canvas := {
  canvas_width : Z;
  canvas_height : Z;
  canvas_background : Background;
  canvas_draws : list TextDraw
}.

Module ImageGenerator.

(** [ImageGenerator.__init__] *)
Definition width : Z := 1200.
Definition min_height : Z := 400.
Definition padding : Z := 60.
Definition line_spacing : Z := 20.
Definition font_size : Z := 48.
Definition background_colors : list (Z * Z * Z) :=
  [(250, 250, 255); (255, 250, 250); (250, 255, 250); (255, 255, 250)].
Definition text_color : Z * Z * Z := (30, 30, 30).

End ImageGenerator.

Section Layout.

Variable pil : Pillow.

(** One round of the [for word in words] loop of [_wrap_text]; the state is
    [(result_lines, current_line)]. *)
Definition wrap_word (max_width : Z) (st : list str * list str) (word : str)
  : list str * list str :=
  let '(result_lines, current_line) := st in
  let test_line :=
    match current_line with
    | [] => word
    | _ :: _ => join [space] (current_line ++ [word])
    end in
  let text_width := textbbox_width pil test_line in
  if text_width <=? max_width
  then (result_lines, current_line ++ [word])
  else
    (match current_line with
     | [] => result_lines
     | _ :: _ => result_lines ++ [join [space] current_line]
     end, [word]).

(** One round of the [for original_line in original_lines] loop. *)
Definition wrap_original_line (max_width : Z) (result_lines : list str)
    (original_line : str) : list str :=
  if negb (truthy (strip original_line)) then result_lines ++ [[]]
  else
    let words := split_ws original_line in
    let '(result_lines, current_line) :=
      fold_left (wrap_word max_width) words (result_lines, []) in
    match current_line with
    | [] => result_lines
    | _ :: _ => result_lines ++ [join [space] current_line]
    end.

(** [ImageGenerator._wrap_text] *)
Definition _wrap_text (text : str) (max_width : Z) : list str :=
  let original_lines := split_sep nl text in
  let result_lines := fold_left (wrap_original_line max_width) original_lines [] in
  match result_lines with
  | [] => [text]
  | _ :: _ => result_lines
  end.

(** The drawing loop of [create_image_with_text]: blank lines only advance
    [y_position]. *)
Fixpoint draw_lines (x_position y_position line_height : Z) (lines : list str)
  : list TextDraw :=
  match lines with
  | [] => []
  | line :: rest =>
      if negb (truthy (strip line))
      then draw_lines x_position (y_position + line_height) line_height rest
      else
        let shadow_offset := 2 in
        {| draw_x := x_position + shadow_offset;
           draw_y := y_position + shadow_offset;
           draw_text := line;
           draw_fill := RGBA (200, 200, 200, 100) |}
          :: {| draw_x := x_position;
                draw_y := y_position;
                draw_text := line;
                draw_fill := RGB ImageGenerator.text_color |}
          :: draw_lines x_position (y_position + line_height) line_height rest
  end.

Definition pick_color : Z * Z * Z :=
  nth (random_choice pil mod length ImageGenerator.background_colors)
      ImageGenerator.background_colors (250, 250, 255).

(** [ImageGenerator.create_image_with_text]; [None] is Python's [None]. *)
Definition create_image_with_text (text : str) (background_image_bytes : option bytes)
  : option Canvas :=
  if negb (truthy text) || negb (truthy (strip text)) then None
  else if pillow_raises pil then None
  else
    let cleaned_text := _clean_text text in
    let lines :=
      _wrap_text cleaned_text (ImageGenerator.width - 2 * ImageGenerator.padding) in
    let line_height := ImageGenerator.font_size + ImageGenerator.line_spacing in
    let total_height :=
      Z.of_nat (length lines) * line_height + 2 * ImageGenerator.padding + 40 in
    let image :=
      match background_image_bytes with
      | Some (b :: bs) =>
          if image_open_ok pil (b :: bs) then UserBackground (b :: bs)
          else SolidColor pick_color
      | _ => SolidColor pick_color
      end in
    Some {| canvas_width := ImageGenerator.width;
            canvas_height := total_height;
            canvas_background := image;
            canvas_draws :=
              draw_lines ImageGenerator.padding (ImageGenerator.padding + 30)
                         line_height lines |}.

End Layout.

(* ===================================================================== *)
(** ** config.py *)
(* ===================================================================== *)

Module config.

Definition IMAGE_MAX_SIZE : Z := 10 * 1024 * 1024.
Definition PDF_MAX_SIZE : Z := 50 * 1024 * 1024.
Definition POLLING_INTERVAL : Z := 2.
Definition MAX_POLLS : nat := 300.

End config.

(* ===================================================================== *)
(** ** services/datalab_service.py *)
(* ===================================================================== *)

(** A value read from a JSON object with [dict.get]. *)
Inductive JsonField :=
| JAbsent
| JNull
| JStr (s : str).

Definition field_is (f : JsonField) (lit : string) : bool :=
  match f with
  | JStr s => str_eqb s (py lit)
  | _ => false
  end.

(** What [await response.json()] gives. *)
Inductive JsonBody :=
| JsonRaisesClientError
| JsonRaisesOther
| JsonObject (status : JsonField) (success : bool) (text_field : JsonField).

(** What one HTTP request gives: an [aiohttp.ClientError], another
    exception, or a response with its status code and body. *)
Inductive HttpResult :=
| RaisesClientError
| RaisesOther
| Response (status : Z) (body : JsonBody).

(** What the client does on the wire, in order. *)
Inductive HttpEvent :=
| HttpPost
| HttpGet
| Sleep (seconds : Z).

(** A call either returns a value or lets an exception escape. *)
Inductive Outcome (A : Type) :=
| Returned (a : A)
| Raised.
Arguments Returned {A} a.
Arguments Raised {A}.

Module DatalabService.

(** [DatalabService._submit_image]; the body's fields are [success] and
    [request_id]. *)
Definition _submit_image (post : HttpResult) : Outcome (option str) * list HttpEvent :=
  match post with
  | RaisesClientError => (Returned None, [HttpPost])
  | RaisesOther => (Raised, [HttpPost])
  | Response status body =>
      if negb (status =? 200) then (Returned None, [HttpPost])
      else
        match body with
        | JsonRaisesClientError => (Returned None, [HttpPost])
        | JsonRaisesOther => (Raised, [HttpPost])
        | JsonObject _ success request_id =>
            if negb success then (Returned None, [HttpPost])
            else
              match request_id with
              | JStr s => (Returned (Some s), [HttpPost])
              | _ => (Returned None, [HttpPost])
              end
        end
  end.

(** The [for i in range(MAX_POLLS)] loop of [_poll_for_result]: [i] is the
    loop variable, [remaining] the rounds left, [get i] the outcome of the
    GET of round [i], [done] the events so far. *)
Fixpoint poll_loop (get : nat -> HttpResult) (i remaining : nat)
    (done : list HttpEvent) : Outcome (option str) * list HttpEvent :=
  match remaining with
  | O => (Returned None, done)
  | S remaining' =>
      let done := done ++ [HttpGet] in
      let retry :=
        poll_loop get (S i) remaining' (done ++ [Sleep config.POLLING_INTERVAL]) in
      match get i with
      | RaisesClientError => retry
      | RaisesOther => (Raised, done)
      | Response status body =>
          if negb (status =? 200) then retry
          else
            match body with
            | JsonRaisesClientError => retry
            | JsonRaisesOther => (Raised, done)
            | JsonObject status success markdown =>
                if field_is status "complete" then
                  if success then
                    (Returned (match markdown with
                               | JAbsent => Some []
                               | JNull => None
                               | JStr s => Some s
                               end), done)
                  else (Returned None, done)
                else if field_is status "failed" then (Returned None, done)
                else retry
            end
      end
  end.

(** [DatalabService._poll_for_result] *)
Definition _poll_for_result (get : nat -> HttpResult)
  : Outcome (option str) * list HttpEvent :=
  poll_loop get 0 config.MAX_POLLS [].

(** [DatalabService.extract_text_from_image]: every exception becomes
    [None]. *)
Definition extract_text_from_image (post : HttpResult) (get : nat -> HttpResult)
  : option str * list HttpEvent :=
  match _submit_image post with
  | (Raised, ev) => (None, ev)
  | (Returned request_id, ev) =>
      match request_id with
      | None | Some [] => (None, ev)
      | Some (_ :: _) =>
          match _poll_for_result get with
          | (Raised, ev') => (None, ev ++ ev')
          | (Returned result, ev') => (result, ev ++ ev')
          end
      end
  end.

(** The responses after which the loop sleeps and goes on: a [status]
    other than [complete] and [failed] (so [processing]), a non-200 status
    or a network error. *)
Definition is_transient (r : HttpResult) : bool :=
  match r with
  | RaisesClientError => true
  | RaisesOther => false
  | Response status body =>
      if negb (status =? 200) then true
      else
        match body with
        | JsonRaisesClientError => true
        | JsonRaisesOther => false
        | JsonObject st _ _ => negb (field_is st "complete" || field_is st "failed")
        end
  end.

End DatalabService.

(* ===================================================================== *)
(** ** services/ocr_service.py *)
(* ===================================================================== *)

Module PaddleOCRService.

(** One round of the two nested [for] loops of [_extract_sync]: [text] is
    [line[1][0]]. *)
Definition keep_text (lines : list str) (text : str) : list str :=
  if truthy text then lines ++ [text] else lines.

(** [PaddleOCRService._extract_sync].  [engine b] stands for opening the
    image and running [self._ocr.ocr] on it: the recognised texts page by
    page, or an exception. *)
Definition _extract_sync (engine : bytes -> Outcome (list (list str)))
    (image_bytes : bytes) : Outcome (option str) :=
  match engine image_bytes with
  | Raised => Raised
  | Returned ocr_result =>
      let lines :=
        fold_left (fun lines page => fold_left keep_text page lines) ocr_result [] in
      Returned (match lines with
                | [] => None
                | _ :: _ => Some (join [nl] lines)
                end)
  end.

(** [PaddleOCRService.extract_text_from_image]: the result and the images
    handed to the engine. *)
Definition extract_text_from_image (engine : bytes -> Outcome (list (list str)))
    (image_bytes : bytes) (is_pdf : bool) : option str * list bytes :=
  if is_pdf then (None, [])
  else
    match _extract_sync engine image_bytes with
    | Returned r => (r, [image_bytes])
    | Raised => (None, [image_bytes])
    end.

End PaddleOCRService.

Module OCRService.

(** Backend objects, told apart by the identity given at construction. *)
Record DatalabBackend := { datalab_object : nat }.
Record PaddleBackend := { paddle_object : nat; paddle_lang : str }.

(** The attributes of an [OCRService] instance. *)
Record t := {
  provider : str;
  datalab_service : option DatalabBackend;
  paddle_service : option PaddleBackend
}.

(** What the constructors and the configuration give at the time of the
    call: [None] for a constructor that raises. *)
Record Env := {
  DATALAB_API_KEY : option str;
  PADDLE_OCR_LANG : str;
  new_PaddleOCRService : str -> option PaddleBackend;
  new_DatalabService : option DatalabBackend
}.

Inductive Reply :=
| AllowedValues
| AlreadySet (provider : str)
| SwitchedToPaddle
| PaddleInitFailed
| ApiKeyMissing
| SwitchedToDatalab
| DatalabInitFailed.

Definition is_some {A} (o : option A) : bool :=
  match o with Some _ => true | None => false end.

(** [OCRService._switch_provider] *)
Definition _switch_provider (env : Env) (self : t) (provider0 : str)
  : t * (bool * Reply) :=
  let provider_ := lower provider0 in
  if negb (str_eqb provider_ (py "datalab") || str_eqb provider_ (py "paddle"))
  then (self, (false, AllowedValues))
  else if str_eqb provider_ (provider self)
          && ((str_eqb provider_ (py "paddle") && is_some (paddle_service self))
              || (str_eqb provider_ (py "datalab") && is_some (datalab_service self)))
  then (self, (true, AlreadySet provider_))
  else if str_eqb provider_ (py "paddle") then
    match new_PaddleOCRService env (PADDLE_OCR_LANG env) with
    | Some p =>
        ({| provider := provider_; datalab_service := None; paddle_service := Some p |},
         (true, SwitchedToPaddle))
    | None =>
        ({| provider := provider self;
            datalab_service := datalab_service self;
            paddle_service := None |},
         (false, PaddleInitFailed))
    end
  else
    match DATALAB_API_KEY env with
    | None | Some [] => (self, (false, ApiKeyMissing))
    | Some (_ :: _) =>
        match new_DatalabService env with
        | Some d =>
            ({| provider := provider_; datalab_service := Some d; paddle_service := None |},
             (true, SwitchedToDatalab))
        | None =>
            ({| provider := provider self;
                datalab_service := None;
                paddle_service := paddle_service self |},
             (false, DatalabInitFailed))
        end
    end.

(** The backend [extract_text] sends the request to. *)
Inductive Backend :=
| NoBackend
| UsesPaddle (p : PaddleBackend)
| UsesDatalab (d : DatalabBackend).

Definition active_backend (self : t) : Backend :=
  if str_eqb (provider self) (py "paddle") then
    match paddle_service self with
    | Some p => UsesPaddle p
    | None => NoBackend
    end
  else
    match datalab_service self with
    | Some d => UsesDatalab d
    | None => NoBackend
    end.

(** [config.py] refuses to start with another [OCR_PROVIDER]. *)
Definition known_provider (p : str) : Prop :=
  p = py "datalab" \/ p = py "paddle".

(** What one call of [extract_text] did outside: the images given to the
    local engine and the HTTP traffic of the remote client. *)
Record Calls := {
  engine_runs : list bytes;
  http_events : list HttpEvent
}.

(** [OCRService.extract_text] *)
Definition extract_text (engine : bytes -> Outcome (list (list str)))
    (post : HttpResult) (get : nat -> HttpResult)
    (self : t) (image_bytes : bytes) (is_pdf : bool) : option str * Calls :=
  if str_eqb (provider self) (py "paddle") then
    match paddle_service self with
    | None => (None, {| engine_runs := []; http_events := [] |})
    | Some _ =>
        let '(r, runs) :=
          PaddleOCRService.extract_text_from_image engine image_bytes is_pdf in
        (r, {| engine_runs := runs; http_events := [] |})
    end
  else
    match datalab_service self with
    | None => (None, {| engine_runs := []; http_events := [] |})
    | Some _ =>
        let '(r, evs) := DatalabService.extract_text_from_image post get in
        (r, {| engine_runs := []; http_events := evs |})
    end.

(** [OCRService.set_provider] *)
Definition set_provider (env : Env) (self : t) (provider0 : str)
  : t * (bool * Reply) :=
  _switch_provider env self provider0.

(** [OCRService.__init__]: the new object and [init_ok]. *)
Definition __init__ (env : Env) (OCR_PROVIDER : str) : t * bool :=
  let self :=
    {| provider := OCR_PROVIDER; datalab_service := None; paddle_service := None |} in
  let '(self, (init_ok, _)) := _switch_provider env self (provider self) in
  (self, init_ok).

End OCRService.

(* ===================================================================== *)
(** ** imghdr.py *)
(* ===================================================================== *)

Module imghdr.

Fixpoint bytes_eqb (a b : bytes) : bool :=
  match a, b with
  | [], [] => true
  | x :: a', y :: b' => Byte.eqb x y && bytes_eqb a' b'
  | _, _ => false
  end.

(** [h[i:j]] for [0 <= i <= j] *)
Definition slice (i j : nat) (h : bytes) : bytes := firstn (j - i) (skipn i h).

(** A bytes literal of printable ASCII characters. *)
Definition b (s : string) : bytes := list_byte_of_string s.

Definition _test_jpeg (h : bytes) : bool :=
  bytes_eqb (slice 0 3 h) [Byte.xff; Byte.xd8; Byte.xff].

Definition _test_png (h : bytes) : bool :=
  bytes_eqb (slice 0 8 h)
    [Byte.x89; Byte.x50; Byte.x4e; Byte.x47; Byte.x0d; Byte.x0a; Byte.x1a; Byte.x0a].

Definition _test_gif (h : bytes) : bool :=
  bytes_eqb (slice 0 6 h) (b "GIF87a") || bytes_eqb (slice 0 6 h) (b "GIF89a").

Definition _test_webp (h : bytes) : bool :=
  (12 <=? length h)%nat
  && bytes_eqb (slice 0 4 h) (b "RIFF")
  && bytes_eqb (slice 8 12 h) (b "WEBP").

Definition _test_bmp (h : bytes) : bool := bytes_eqb (slice 0 2 h) (b "BM").

Definition _test_tiff (h : bytes) : bool :=
  bytes_eqb (slice 0 4 h) [Byte.x4d; Byte.x4d; Byte.x00; Byte.x2a]
  || bytes_eqb (slice 0 4 h) [Byte.x49; Byte.x49; Byte.x2a; Byte.x00].

Definition _test_pbm (h : bytes) : bool := bytes_eqb (slice 0 2 h) (b "P1").
Definition _test_pgm (h : bytes) : bool := bytes_eqb (slice 0 2 h) (b "P2").
Definition _test_ppm (h : bytes) : bool := bytes_eqb (slice 0 2 h) (b "P3").
Definition _test_pam (h : bytes) : bool := bytes_eqb (slice 0 2 h) (b "P7").

Definition _test_pnm (h : bytes) : bool :=
  bytes_eqb (slice 0 2 h) (b "P5") || bytes_eqb (slice 0 2 h) (b "P6").

Definition _test_rast (h : bytes) : bool :=
  bytes_eqb (slice 0 4 h) [Byte.x59; Byte.xa6; Byte.x6a; Byte.x95].

Definition _test_sgi (h : bytes) : bool :=
  bytes_eqb (slice 0 2 h) [Byte.x01; Byte.xda].

Definition _test_exr (h : bytes) : bool :=
  bytes_eqb (slice 0 4 h) [Byte.x76; Byte.x2f; Byte.x31; Byte.x01].

Definition _test_blf (h : bytes) : bool := bytes_eqb (slice 0 7 h) (b "BLENDER").

Definition _tests : list (string * (bytes -> bool)) :=
  [ ("jpeg", _test_jpeg); ("png", _test_png); ("gif", _test_gif);
    ("webp", _test_webp); ("bmp", _test_bmp); ("tiff", _test_tiff);
    ("rast", _test_rast); ("sgi", _test_sgi); ("pbm", _test_pbm);
    ("pgm", _test_pgm); ("ppm", _test_ppm); ("pam", _test_pam);
    ("pnm", _test_pnm); ("exr", _test_exr); ("blender", _test_blf) ]%string.

(** The [for name, test in _tests] loop of [what]. *)
Fixpoint first_match (tests : list (string * (bytes -> bool))) (h : bytes)
  : option string :=
  match tests with
  | [] => None
  | (name, test) :: rest => if test h then Some name else first_match rest h
  end.

(** The [file] argument of [what]: an open binary stream at some position,
    or a path, given by the content of the file it names. *)
Inductive File :=
| Stream (content : bytes) (pos : nat)
| Path (content : bytes).

(** [what(file, h)]: the detected type and the stream position afterwards
    (the stream is read from its position and put back there). *)
Definition what (file : File) (h : option bytes) : option string * File :=
  match h with
  | Some h => (first_match _tests h, file)
  | None =>
      match file with
      | Stream content pos =>
          let h := firstn 32 (skipn pos content) in
          (first_match _tests h, Stream content pos)
      | Path content =>
          let h := firstn 32 content in
          (first_match _tests h, file)
      end
  end.

End imghdr.

(* ===================================================================== *)
(** ** handlers/states.py and handlers/photo_handler.py *)
(* ===================================================================== *)

(** [TextConfirmation] and [BackgroundUpload]; no state at all is [None]. *)
Inductive State :=
| waiting_for_confirmation
| editing_text
| waiting_for_background.

Definition State_eqb (a b : State) : bool :=
  match a, b with
  | waiting_for_confirmation, waiting_for_confirmation => true
  | editing_text, editing_text => true
  | waiting_for_background, waiting_for_background => true
  | _, _ => false
  end.

(** [State.state] in aiogram: the raw string [group:name] that the storage
    keeps and [state.get_state()] returns. *)
Definition state_name (s : State) : str :=
  match s with
  | waiting_for_confirmation => py "TextConfirmation:waiting_for_confirmation"
  | editing_text => py "TextConfirmation:editing_text"
  | waiting_for_background => py "BackgroundUpload:waiting_for_background"
  end.

(** [str(s)] of a [State] object, aiogram's [State.__str__]. *)
Definition State_str (s : State) : str :=
  py "<State '" ++ state_name s ++ py "'>".

(** [StateFilter(s)]: the raw state is the name of [s]. *)
Definition StateFilter (s : State) (current : option State) : bool :=
  match current with
  | Some c => State_eqb c s
  | None => false
  end.

(** One user's FSM record in the memory storage. *)
Record FSMContext := {
  fsm_state : option State;
  fsm_data : gmap string str
}.

Definition empty_context : FSMContext :=
  {| fsm_state := None; fsm_data := ∅ |}.

Record PhotoSize := { photo_file_id : str; photo_file_size : option Z }.

Record Document := {
  doc_file_id : str;
  doc_file_size : option Z;
  mime_type : option str;
  file_name : option str
}.

Record Message := {
  message_id : Z;
  from_user : Z;
  text : option str;
  photo : list PhotoSize;
  document : option Document
}.

(** [callback.from_user] pressed the button; [callback.message] is the
    message that carries the keyboard. *)
Record CallbackQuery := {
  data : str;
  cb_from_user : Z;
  cb_message : Message
}.

(** The [filename] handed to the OCR client: [f"photo_{message_id}.jpg"], or
    [file_name.lower()] of a document's name.  The latter is kept
    unevaluated, since Python lower-cases by the Unicode tables and
    [PyStr.lower] carries their ASCII part only. *)
Inductive Filename :=
| PhotoJpg (message_id : Z)
| Lowered (file_name : str).

(** The texts sent to the user, by what they say; the payloads are the
    values formatted into them. *)
Inductive Notice :=
| ExtractedTextView (display_text_escaped : str) (truncated : option (nat * nat))
| EditedTextView (display_text_escaped : str) (truncated : option (nat * nat))
| EditingView (display_text_escaped : str) (truncated : option (nat * nat))
| CreatingImage
| ImageCreationError
| ExtractingFromImage
| NoTextInImage
| ExtractingFromPdf
| NoTextInPdf
| SendBackgroundPrompt
| FileTooBig (max_size : Z)
| BackgroundSaved
| BackgroundError
| PleaseSendImage
| TextNotFound
| ImageCreated
| ProcessingCancelled
| CancelledToast
| EmptyTextRejected
| FinishCurrentOperation
| PhotoReceived
| DocumentReceived (is_pdf : bool)
| PhotoProcessingError
| FileProcessingError.

(** What a handler does to the outside, in order. *)
Inductive Effect :=
| MessageAnswer (notice : Notice)
| MessageEditText (notice : Notice)
| MessageDelete
| CallbackAnswer (notice : option Notice) (show_alert : bool)
| AnswerPhoto (image : Canvas)
| BotGetFile (file_id : str)
| BotDownloadFile
| OcrExtract (content : bytes) (filename : Filename) (is_pdf : bool)
| OcrHttp (ev : HttpEvent)
| CreateImageWithText (text : str) (background_image_bytes : option bytes).

(** What the outside answers during one handler run. *)
Record Env := {
  transport_raises : nat -> bool;
  ocr_post : HttpResult;
  ocr_get : nat -> HttpResult;
  downloaded : bytes;
  pillow : Pillow
}.

(** The process state a handler reads and writes. *)
Record World := {
  storage : gmap Z FSMContext;
  user_backgrounds : gmap Z bytes;
  trace : list Effect;
  calls : nat
}.

Definition context_of (st : gmap Z FSMContext) (key : Z) : FSMContext :=
  default empty_context (st !! key).

(** Handlers run in a state monad over [World] with exceptions. *)
Definition M (A : Type) : Type := Env -> World -> Outcome A * World.

#[global] Instance M_ret : MRet M := fun A a _ w => (Returned a, w).
#[global] Instance M_bind : MBind M := fun A B f m env w =>
  match m env w with
  | (Returned a, w') => f a env w'
  | (Raised, w') => (Raised, w')
  end.

Definition raise {A} : M A := fun _ w => (Raised, w).

(** [try: m except Exception: ...]: the outcome of [m], caught. *)
Definition attempt {A} (m : M A) : M (option A) := fun env w =>
  match m env w with
  | (Returned a, w') => (Returned (Some a), w')
  | (Raised, w') => (Returned None, w')
  end.

(** [try: m except Exception: h] *)
Definition try_except (m h : M unit) : M unit :=
  r ← attempt m; match r with Some _ => mret tt | None => h end.

Definition emit (e : Effect) : M unit := fun _ w =>
  (Returned tt,
   {| storage := storage w; user_backgrounds := user_backgrounds w;
      trace := trace w ++ [e]; calls := calls w |}).

(** A call to the messaging transport: made, then possibly raising. *)
Definition transport (e : Effect) : M unit := fun env w =>
  let w' := {| storage := storage w; user_backgrounds := user_backgrounds w;
               trace := trace w ++ [e]; calls := S (calls w) |} in
  if transport_raises env (calls w) then (Raised, w') else (Returned tt, w').

Definition ask : M Env := fun env w => (Returned env, w).

Definition modify_context (key : Z) (f : FSMContext -> FSMContext) : M unit :=
  fun _ w =>
  (Returned tt,
   {| storage := <[key := f (context_of (storage w) key)]> (storage w);
      user_backgrounds := user_backgrounds w;
      trace := trace w; calls := calls w |}).

(** [state.get_state()], [state.set_state(s)], [state.get_data()],
    [state.update_data(k=v)], [state.clear()] for the context of [key]. *)
Definition get_state (key : Z) : M (option State) := fun _ w =>
  (Returned (fsm_state (context_of (storage w) key)), w).

Definition set_state (key : Z) (s : State) : M unit :=
  modify_context key (fun c => {| fsm_state := Some s; fsm_data := fsm_data c |}).

Definition get_data (key : Z) : M (gmap string str) := fun _ w =>
  (Returned (fsm_data (context_of (storage w) key)), w).

Definition update_data (key : Z) (k : string) (v : str) : M unit :=
  modify_context key
    (fun c => {| fsm_state := fsm_state c; fsm_data := <[k := v]> (fsm_data c) |}).

Definition clear (key : Z) : M unit :=
  modify_context key (fun _ => empty_context).

(** [user_backgrounds.get(uid)] and [user_backgrounds[uid] = b] *)
Definition backgrounds_get (uid : Z) : M (option bytes) := fun _ w =>
  (Returned (user_backgrounds w !! uid), w).

Definition backgrounds_set (uid : Z) (b : bytes) : M unit := fun _ w =>
  (Returned tt,
   {| storage := storage w; user_backgrounds := <[uid := b]> (user_backgrounds w);
      trace := trace w; calls := calls w |}).

Fixpoint emit_all (evs : list Effect) : M unit :=
  match evs with
  | [] => mret tt
  | e :: rest => emit e;; emit_all rest
  end.

(** [datalab_service.extract_text_from_image(content, filename, is_pdf)] *)
Definition ocr_extract (content : bytes) (filename : Filename) (is_pdf : bool)
  : M (option str) :=
  emit (OcrExtract content filename is_pdf);;
  env ← ask;
  let '(result, evs) :=
    DatalabService.extract_text_from_image (ocr_post env) (ocr_get env) in
  emit_all (List.map OcrHttp evs);;
  mret result.

(** [image_generator.create_image_with_text(text, background)] *)
Definition render (text : str) (background : option bytes) : M (option Canvas) :=
  emit (CreateImageWithText text background);;
  env ← ask;
  mret (create_image_with_text (pillow env) text background).

(** The match of [[^>]+>] that [re] finds at the start of [s], as the number
    of code points up to and including the closing [>]; the pattern needs at
    least one code point before it. *)
Fixpoint tag_rest (s : str) : option nat :=
  match s with
  | [] => None
  | c :: r =>
      if (c =? gt_sign)%N then Some 1%nat
      else match tag_rest r with
           | Some n => Some (S n)
           | None => None
           end
  end.

(** [re.sub(r'<[^>]+>', '', s)]: scan from the left; [skip] code points of a
    match are still to be dropped. *)
Fixpoint re_sub_tags_from (skip : nat) (s : str) : str :=
  match s with
  | [] => []
  | c :: r =>
      match skip with
      | S k => re_sub_tags_from k r
      | O =>
          if (c =? lt_sign)%N then
            match tag_rest r with
            | Some (S (S n)) => re_sub_tags_from (S (S n)) r
            | _ => c :: re_sub_tags_from 0 r
            end
          else c :: re_sub_tags_from 0 r
      end
  end.

Definition re_sub_tags (s : str) : str := re_sub_tags_from 0 s.

(** [html.escape(s)] with its default [quote=True]. *)
Definition html_escape_char (c : char) : str :=
  if (c =? amp_sign)%N then py "&amp;"
  else if (c =? lt_sign)%N then py "&lt;"
  else if (c =? gt_sign)%N then py "&gt;"
  else if (c =? dquote)%N then py "&quot;"
  else if (c =? squote)%N then py "&#x27;"
  else [c].

Definition html_escape (s : str) : str := flat_map html_escape_char s.

(** [escape_html_for_display] *)
Definition escape_html_for_display (text : str) : str :=
  let text := re_sub_tags text in
  let text := html_escape text in
  text.

Definition max_text_length : nat := 3000.

(** [display_text], escaped, and the "shown N of M" pair when the text is
    longer than the cap. *)
Definition display_of (extracted_text : str) : str * option (nat * nat) :=
  let display_text := slice_to max_text_length extracted_text in
  let is_truncated := (max_text_length <? length extracted_text)%nat in
  (escape_html_for_display display_text,
   if is_truncated then Some (max_text_length, length extracted_text) else None).

Definition extracted_text_of (d : gmap string str) : str :=
  default [] (d !! "extracted_text"%string).

Definition IMAGE_MIME_TYPES : list str :=
  [py "image/jpeg"; py "image/jpg"; py "image/png"; py "image/webp"].
Definition IMAGE_EXTENSIONS : list str :=
  [py ".jpg"; py ".jpeg"; py ".png"; py ".webp"].
Definition PDF_MIME_TYPES : list str := [py "application/pdf"].
Definition PDF_EXTENSIONS : list str := [py ".pdf"].

(** [x in xs] for a list of strings *)
Definition str_in (x : str) (xs : list str) : bool := existsb (str_eqb x) xs.

(** The [is_image], [is_pdf] and [max_size] of [handle_document]. *)
Definition doc_is_image (d : Document) : bool :=
  let mime_type := default [] (mime_type d) in
  let file_name := lower (default [] (file_name d)) in
  str_in mime_type IMAGE_MIME_TYPES
  || existsb (endswith file_name) IMAGE_EXTENSIONS.

Definition doc_is_pdf (d : Document) : bool :=
  let mime_type := default [] (mime_type d) in
  let file_name := lower (default [] (file_name d)) in
  str_in mime_type PDF_MIME_TYPES
  || existsb (endswith file_name) PDF_EXTENSIONS.

Definition doc_max_size (d : Document) : Z :=
  if doc_is_pdf d then config.PDF_MAX_SIZE else config.IMAGE_MAX_SIZE.

Section Handlers.

(** [state] is the key of the FSM context the dispatcher hands over. *)
Variable state : Z.

(** [show_text_for_confirmation] *)
Definition show_text_for_confirmation (extracted_text : str) : M unit :=
  update_data state "extracted_text" extracted_text;;
  set_state state waiting_for_confirmation;;
  attempt (transport MessageDelete);;
  let '(display_text_escaped, truncated) := display_of extracted_text in
  transport (MessageAnswer (ExtractedTextView display_text_escaped truncated)).

(** [create_image_from_text] *)
Definition create_image_from_text (text : str) (message : Message) : M unit :=
  transport (MessageAnswer CreatingImage);;
  background_image_bytes ← backgrounds_get (from_user message);
  result_image ← render text background_image_bytes;
  match result_image with
  | None => transport (MessageEditText ImageCreationError)
  | Some image =>
      transport (AnswerPhoto image);;
      attempt (transport MessageDelete);;
      mret tt
  end.

(** [process_image] *)
Definition process_image (image_bytes : bytes) (message : Message) : M unit :=
  transport (MessageEditText ExtractingFromImage);;
  extracted_text ← ocr_extract image_bytes (PhotoJpg (message_id message)) false;
  match extracted_text with
  | Some t =>
      if truthy t && truthy (strip t) then show_text_for_confirmation t
      else transport (MessageEditText NoTextInImage)
  | None => transport (MessageEditText NoTextInImage)
  end.

(** [process_pdf] *)
Definition process_pdf (pdf_bytes : bytes) (filename : Filename) : M unit :=
  transport (MessageEditText ExtractingFromPdf);;
  extracted_text ← ocr_extract pdf_bytes filename true;
  match extracted_text with
  | Some t =>
      if truthy t && truthy (strip t) then show_text_for_confirmation t
      else transport (MessageEditText NoTextInPdf)
  | None => transport (MessageEditText NoTextInPdf)
  end.

(** [cmd_back] *)
Definition cmd_back : M unit :=
  set_state state waiting_for_background;;
  transport (MessageAnswer SendBackgroundPrompt).

(** [file_size and file_size > limit] *)
Definition too_big (file_size : option Z) (limit : Z) : bool :=
  match file_size with
  | Some n => negb (n =? 0) && (limit <? n)
  | None => false
  end.

(** [bot.get_file] and [bot.download_file], then the bytes read back. *)
Definition download (file_id : str) : M bytes :=
  transport (BotGetFile file_id);;
  transport BotDownloadFile;;
  env ← ask;
  mret (downloaded env).

(** [handle_background_photo] *)
Definition handle_background_photo (message : Message) : M unit :=
  try_except
    (match last (photo message) with
     | None => raise
     | Some photo =>
         if too_big (photo_file_size photo) config.IMAGE_MAX_SIZE
         then transport (MessageAnswer (FileTooBig config.IMAGE_MAX_SIZE))
         else
           image_bytes ← download (photo_file_id photo);
           backgrounds_set (from_user message) image_bytes;;
           clear state;;
           transport (MessageAnswer BackgroundSaved)
     end)
    (transport (MessageAnswer BackgroundError);;
     clear state).

(** [handle_background_invalid] *)
Definition handle_background_invalid : M unit :=
  transport (MessageAnswer PleaseSendImage).

(** [confirm_text_handler] *)
Definition confirm_text_handler (callback : CallbackQuery) : M unit :=
  data ← get_data state;
  let extracted_text := extracted_text_of data in
  if negb (truthy extracted_text) then
    transport (CallbackAnswer (Some TextNotFound) true);;
    clear state
  else
    attempt (transport MessageDelete);;
    create_image_from_text extracted_text (cb_message callback);;
    clear state;;
    transport (CallbackAnswer (Some ImageCreated) false).

(** [edit_text_handler] *)
Definition edit_text_handler (callback : CallbackQuery) : M unit :=
  data ← get_data state;
  let extracted_text := extracted_text_of data in
  if negb (truthy extracted_text) then
    transport (CallbackAnswer (Some TextNotFound) true);;
    clear state
  else
    set_state state editing_text;;
    let '(display_text_escaped, truncated) := display_of extracted_text in
    transport (MessageEditText (EditingView display_text_escaped truncated));;
    transport (CallbackAnswer None false).

(** [back_to_confirmation_handler] *)
Definition back_to_confirmation_handler (callback : CallbackQuery) : M unit :=
  data ← get_data state;
  let extracted_text := extracted_text_of data in
  set_state state waiting_for_confirmation;;
  let '(display_text_escaped, truncated) := display_of extracted_text in
  transport (MessageEditText (ExtractedTextView display_text_escaped truncated));;
  transport (CallbackAnswer None false).

(** [cancel_text_handler] *)
Definition cancel_text_handler (callback : CallbackQuery) : M unit :=
  clear state;;
  try_except (transport (MessageEditText ProcessingCancelled))
             (transport (MessageAnswer ProcessingCancelled));;
  transport (CallbackAnswer (Some CancelledToast) false).

(** [process_edited_text] *)
Definition process_edited_text (message : Message) : M unit :=
  match text message with
  | None => raise
  | Some message_text =>
      let edited_text := strip message_text in
      if negb (truthy edited_text) then
        transport (MessageAnswer EmptyTextRejected)
      else
        update_data state "extracted_text" edited_text;;
        set_state state waiting_for_confirmation;;
        let '(display_text_escaped, truncated) := display_of edited_text in
        transport (MessageAnswer (EditedTextView display_text_escaped truncated))
  end.

(** The [except Exception] block shared in shape by [handle_photo] and
    [handle_document]; [processing_msg] tells whether the first status
    message had been sent. *)
Definition report_failure (processing_msg : bool) (error_message : Notice) : M unit :=
  try_except
    (if processing_msg then transport (MessageEditText error_message)
     else transport (MessageAnswer error_message))
    (attempt (transport (MessageAnswer error_message));; mret tt);;
  clear state.

(** [handle_photo] *)
Definition handle_photo (message : Message) : M unit :=
  current_state ← get_state state;
  match current_state with
  | Some raw =>
      (* [str(current_state) == str(BackgroundUpload.waiting_for_background)]:
         the raw string against the printed form of the [State] object *)
      if str_eqb (state_name raw) (State_str waiting_for_background) then mret tt
      else transport (MessageAnswer FinishCurrentOperation)
  | None =>
      sent ← attempt (transport (MessageAnswer PhotoReceived));
      match sent with
      | None => report_failure false PhotoProcessingError
      | Some _ =>
          try_except
            (match last (photo message) with
             | None => raise
             | Some photo =>
                 if too_big (photo_file_size photo) config.IMAGE_MAX_SIZE
                 then transport (MessageEditText (FileTooBig config.IMAGE_MAX_SIZE))
                 else
                   image_bytes ← download (photo_file_id photo);
                   process_image image_bytes message
             end)
            (report_failure true PhotoProcessingError)
      end
  end.


(** [handle_document] *)
Definition handle_document (message : Message) : M unit :=
  current_state ← get_state state;
  match current_state with
  | Some _ => transport (MessageAnswer FinishCurrentOperation)
  | None =>
      match document message with
      | None => mret tt
      | Some document =>
          let file_name := Lowered (default [] (file_name document)) in
          let is_image := doc_is_image document in
          let is_pdf := doc_is_pdf document in
          if negb is_image && negb is_pdf then mret tt
          else
            let max_size := doc_max_size document in
            sent ← attempt (transport (MessageAnswer (DocumentReceived is_pdf)));
            match sent with
            | None => report_failure false FileProcessingError
            | Some _ =>
                try_except
                  (if too_big (doc_file_size document) max_size
                   then transport (MessageEditText (FileTooBig max_size))
                   else
                     file_bytes_data ← download (doc_file_id document);
                     if is_pdf then process_pdf file_bytes_data file_name
                     else process_image file_bytes_data message)
                  (report_failure true FileProcessingError)
            end
      end
  end.

End Handlers.

(** The [callback_query] handlers of the router, in registration order, each
    with its filters. *)
Definition callback_query_handlers
  : list ((CallbackQuery -> option State -> bool) * (Z -> CallbackQuery -> M unit)) :=
  [ (fun cb st => str_eqb (data cb) (py "confirm_text")
                  && StateFilter waiting_for_confirmation st,
     confirm_text_handler);
    (fun cb st => str_eqb (data cb) (py "edit_text")
                  && StateFilter waiting_for_confirmation st,
     edit_text_handler);
    (fun cb st => str_eqb (data cb) (py "back_to_confirmation")
                  && StateFilter editing_text st,
     back_to_confirmation_handler);
    (fun cb _ => str_eqb (data cb) (py "cancel_text"),
     cancel_text_handler) ].

(** The dispatcher offers a callback query to the handlers in order; the
    first whose filters pass runs.  The result tells whether one did. *)
Definition feed_callback_query (callback : CallbackQuery) : M bool :=
  let key := cb_from_user callback in
  current_state ← get_state key;
  match List.find (fun h => fst h callback current_state) callback_query_handlers with
  | Some h => snd h key callback;; mret true
  | None => mret false
  end.

(* ===================================================================== *)
(** ** Vocabulary of the statements *)
(* ===================================================================== *)

(** A line with nothing but whitespace: [not line.strip()]. *)
Definition blank (s : str) : bool := forallb isspace s.

(** A word as [str.split()] yields them. *)
Definition is_word (w : str) : Prop :=
  w <> [] /\ Forall (fun c => isspace c = false) w.

(** The trimmed, space-collapsed form of one input line. *)
Definition normal_line (line : str) : str := collapse_spaces (strip line).

(** Whether [re] finds a match of [<[^>]+>] somewhere in [s]. *)
Fixpoint has_tag (s : str) : bool :=
  match s with
  | [] => false
  | c :: r =>
      ((c =? lt_sign)%N
       && match tag_rest r with
          | Some (S (S _)) => true
          | _ => false
          end)
      || has_tag r
  end.

(** [s] begins with a match of [<[^>]+>]: a [<], then one or more code
    points other than [>], then a [>].  The run between the two signs cannot
    reach over a [>], so where a match exists it is the only one. *)
Definition tag_at (s : str) : Prop :=
  exists body rest,
    s = lt_sign :: body ++ gt_sign :: rest /\ body <> [] /\ ~ In gt_sign body.

(** [tags_stripped s out]: [out] is [s] with the matches of [<[^>]+>]
    removed as a regular-expression substitution removes them: going from
    the left, a match that begins at the current place is dropped whole and
    the scan goes on behind it; where none begins, the code point is kept
    and the scan goes on at the next one. *)
Inductive tags_stripped : str -> str -> Prop :=
| stripped_end : tags_stripped [] []
| stripped_tag (body rest out : str) :
    body <> [] -> ~ In gt_sign body ->
    tags_stripped rest out ->
    tags_stripped (lt_sign :: body ++ gt_sign :: rest) out
| stripped_keep (c : char) (r out : str) :
    ~ tag_at (c :: r) ->
    tags_stripped r out ->
    tags_stripped (c :: r) (c :: out).

(** The five code points that [html.escape] replaces. *)
Definition markup_char (c : char) : Prop :=
  In c [amp_sign; lt_sign; gt_sign; dquote; squote].

(** The requested kind is the selected one and its backend object exists. *)
Definition already_active (self : OCRService.t) (kind : str) : Prop :=
  kind = OCRService.provider self
  /\ ((kind = py "paddle" /\ OCRService.paddle_service self <> None)
      \/ (kind = py "datalab" /\ OCRService.datalab_service self <> None)).

(** The backend the constructor of [kind] gives, [None] when it raises or,
    for the remote kind, when no API key is configured. *)
Definition construct (env : OCRService.Env) (kind : str) : option OCRService.Backend :=
  if str_eqb kind (py "paddle") then
    match OCRService.new_PaddleOCRService env (OCRService.PADDLE_OCR_LANG env) with
    | Some p => Some (OCRService.UsesPaddle p)
    | None => None
    end
  else
    match OCRService.DATALAB_API_KEY env with
    | None | Some [] => None
    | Some (_ :: _) =>
        match OCRService.new_DatalabService env with
        | Some d => Some (OCRService.UsesDatalab d)
        | None => None
        end
    end.

(** No whitespace at either end ([0], which is not whitespace, stands for
    the ends of the empty string). *)
Definition trimmed (s : str) : Prop :=
  isspace (hd 0%N s) = false /\ isspace (List.last s 0%N) = false.

(** A line of two or more words measures at most [max_width]. *)
Definition fits (pil : Pillow) (max_width : Z) (line : str) : Prop :=
  (1 < length (split_ws line))%nat -> textbbox_width pil line <= max_width.

(** Where a drawn line may sit on a canvas of the given height: at the left
    padding or two pixels to its right, below the top margin, and with the
    font height of 48 still inside the canvas. *)
Definition inside_canvas (height : Z) (d : TextDraw) : Prop :=
  (draw_x d = 60 \/ draw_x d = 62)
  /\ 90 <= draw_y d /\ draw_y d + 48 <= height.

(** The two [draw.text] calls for the line of index [i] (from 0), in call
    order: first the grey shadow, two pixels right of and below the line's
    place, then the line itself in the text colour at its place, 68 pixels
    below the line before it. *)
Definition shadow_then_glyphs (i : nat) (line : str) : list TextDraw :=
  [ {| draw_x := 62; draw_y := 90 + 68 * Z.of_nat i + 2;
       draw_text := line; draw_fill := RGBA (200, 200, 200, 100) |};
    {| draw_x := 60; draw_y := 90 + 68 * Z.of_nat i;
       draw_text := line; draw_fill := RGB (30, 30, 30) |} ].

(** How many requests of each kind a run of the client made, and how long
    it slept in all. *)
Fixpoint posts (evs : list HttpEvent) : nat :=
  match evs with
  | [] => 0
  | HttpPost :: rest => S (posts rest)
  | _ :: rest => posts rest
  end.

Fixpoint gets (evs : list HttpEvent) : nat :=
  match evs with
  | [] => 0
  | HttpGet :: rest => S (gets rest)
  | _ :: rest => gets rest
  end.

Fixpoint slept (evs : list HttpEvent) : Z :=
  match evs with
  | [] => 0
  | Sleep seconds :: rest => seconds + slept rest
  | _ :: rest => slept rest
  end.

(** The selected provider is one of the two kinds and a backend object is
    held for no other kind than the selected one. *)
Definition consistent (self : OCRService.t) : Prop :=
  OCRService.known_provider (OCRService.provider self)
  /\ (OCRService.paddle_service self <> None ->
      OCRService.provider self = py "paddle")
  /\ (OCRService.datalab_service self <> None ->
      OCRService.provider self = py "datalab").

(** A series of [set_provider] calls, each in the environment of its time. *)
Definition switch_all (self : OCRService.t) (requests : list (OCRService.Env * str))
  : OCRService.t :=
  fold_left (fun s r => fst (OCRService.set_provider (fst r) s (snd r))) requests self.

(** The texts handed to the layout engine, in call order. *)
Fixpoint layout_calls (tr : list Effect) : list str :=
  match tr with
  | [] => []
  | CreateImageWithText t _ :: rest => t :: layout_calls rest
  | _ :: rest => layout_calls rest
  end.

(** Effects that fetch the uploaded file or reach the OCR client. *)
Definition fetches_or_ocr (e : Effect) : bool :=
  match e with
  | BotGetFile _ | BotDownloadFile | OcrExtract _ _ _ | OcrHttp _ => true
  | _ => false
  end.

(** The user-visible reports of an error. *)
Definition reports_to_user (e : Effect) : bool :=
  match e with
  | MessageAnswer _ | MessageEditText _ | CallbackAnswer _ _ => true
  | _ => false
  end.

(** None of the effects fetches the file or reaches the OCR client. *)
Definition quiet (new : list Effect) : Prop :=
  forallb (fun e => negb (fetches_or_ocr e)) new = true.

(** The transport never raises during the run. *)
Definition reliable (env : Env) : Prop :=
  forall n, transport_raises env n = false.

(** [w'] differs from [w] at most in the FSM record of [key], in what was
    appended to the trace and in the number of transport calls: the records
    of the other keys and the background store are the same. *)
Definition only_session (key : Z) (w w' : World) : Prop :=
  user_backgrounds w' = user_backgrounds w
  /\ (forall k, k <> key -> storage w' !! k = storage w !! k)
  /\ exists new, trace w' = trace w ++ new.

(** Every run of [m] stays within the session of [key]. *)
Definition framed {A} (key : Z) (m : M A) : Prop :=
  forall env w, only_session key w (snd (m env w)).

(** The backgrounds handed to the layout engine, in call order. *)
Fixpoint layout_backgrounds (tr : list Effect) : list (option bytes) :=
  match tr with
  | [] => []
  | CreateImageWithText _ background :: rest => background :: layout_backgrounds rest
  | _ :: rest => layout_backgrounds rest
  end.

(** [n] rounds of "GET, then sleep". *)
Fixpoint retry_rounds (n : nat) : list HttpEvent :=
  match n with
  | O => []
  | S n' => HttpGet :: Sleep config.POLLING_INTERVAL :: retry_rounds n'
  end.

(* ===================================================================== *)
(** ** Example inputs *)
(* ===================================================================== *)

(** A font in which every code point is 30 wide. *)
Definition example_pillow : Pillow :=
  {| textbbox_width := fun s => 30 * Z.of_nat (length s);
     image_open_ok := fun _ => true;
     random_choice := 0;
     pillow_raises := false |}.

(** A poll response with [status=processing]. *)
Definition processing : HttpResult :=
  Response 200 (JsonObject (JStr (py "processing")) false JAbsent).

Definition example_env : Env :=
  {| transport_raises := fun _ => false;
     ocr_post := Response 200 (JsonObject JAbsent true (JStr (py "job-1")));
     ocr_get := fun _ => processing;
     downloaded := [];
     pillow := example_pillow |}.

Definition fresh_world : World :=
  {| storage := ∅; user_backgrounds := ∅; trace := []; calls := 0 |}.

(** User 7 is editing the text ["milk"]. *)
Definition editing_world : World :=
  {| storage :=
       {[ 7 := {| fsm_state := Some editing_text;
                  fsm_data := {[ "extracted_text"%string := py "milk" ]} |} ]};
     user_backgrounds := ∅;
     trace := [];
     calls := 0 |}.

(** User 7 is asked to confirm the text ["milk"]. *)
Definition waiting_world : World :=
  {| storage :=
       {[ 7 := {| fsm_state := Some waiting_for_confirmation;
                  fsm_data := {[ "extracted_text"%string := py "milk" ]} |} ]};
     user_backgrounds := ∅;
     trace := [];
     calls := 0 |}.

Definition bot_message : Message :=
  {| message_id := 41; from_user := 1000; text := None; photo := [];
     document := None |}.

Definition confirm_click : CallbackQuery :=
  {| data := py "confirm_text"; cb_from_user := 7; cb_message := bot_message |}.

(** A text of 3001 code points, one more than the display cap. *)
Definition long_text : str := repeat 97%N 3001.

Definition long_edit : Message :=
  {| message_id := 42; from_user := 7; text := Some long_text; photo := [];
     document := None |}.

(** A photo of 10 MB and one byte, and a PDF of 50 MB and one byte. *)
Definition big_photo : Message :=
  {| message_id := 43; from_user := 7; text := None;
     photo := [ {| photo_file_id := py "small"; photo_file_size := Some 1000 |};
                {| photo_file_id := py "large"; photo_file_size := Some 10485761 |} ];
     document := None |}.

Definition big_pdf : Document :=
  {| doc_file_id := py "doc"; doc_file_size := Some 52428801;
     mime_type := Some (py "application/pdf"); file_name := Some (py "List.PDF") |}.

Definition big_pdf_message : Message :=
  {| message_id := 44; from_user := 7; text := None; photo := [];
     document := Some big_pdf |}.

Definition datalab_only : OCRService.t :=
  {| OCRService.provider := py "datalab";
     OCRService.datalab_service := Some {| OCRService.datalab_object := 1 |};
     OCRService.paddle_service := None |}.

(** The local engine cannot be constructed. *)
Definition no_paddle : OCRService.Env :=
  {| OCRService.DATALAB_API_KEY := Some (py "key");
     OCRService.PADDLE_OCR_LANG := py "ru";
     OCRService.new_PaddleOCRService := fun _ => None;
     OCRService.new_DatalabService := Some {| OCRService.datalab_object := 2 |} |}.

(** ["Milk\nEggs\nBread"] *)
Definition shopping_list : str :=
  py "Milk" ++ [nl] ++ py "Eggs" ++ [nl] ++ py "Bread".

(** Two polls answer [processing], the third [complete] with the text. *)
Definition two_then_complete : nat -> HttpResult :=
  fun j =>
    if (j <? 2)%nat then processing
    else Response 200 (JsonObject (JStr (py "complete")) true (JStr shopping_list)).

Definition reading_env : Env :=
  {| transport_raises := fun _ => false;
     ocr_post := Response 200 (JsonObject JAbsent true (JStr (py "job-1")));
     ocr_get := two_then_complete;
     downloaded := [Byte.xff; Byte.xd8; Byte.xff];
     pillow := example_pillow |}.

Definition small_photo : Message :=
  {| message_id := 45; from_user := 7; text := None;
     photo := [ {| photo_file_id := py "small"; photo_file_size := Some 1000 |} ];
     document := None |}.

Definition blank_edit : Message :=
  {| message_id := 46; from_user := 7; text := Some (py "   "); photo := [];
     document := None |}.

Definition edit_click : CallbackQuery :=
  {| data := py "edit_text"; cb_from_user := 7; cb_message := bot_message |}.

Definition back_click : CallbackQuery :=
  {| data := py "back_to_confirmation"; cb_from_user := 7; cb_message := bot_message |}.

Definition cancel_click : CallbackQuery :=
  {| data := py "cancel_text"; cb_from_user := 7; cb_message := bot_message |}.

(** User 7 has been asked for a background. *)
Definition background_world : World :=
  {| storage :=
       {[ 7 := {| fsm_state := Some waiting_for_background; fsm_data := ∅ |} ]};
     user_backgrounds := ∅;
     trace := [];
     calls := 0 |}.

(** User 7 is asked to confirm, but no text is stored. *)
Definition textless_world : World :=
  {| storage :=
       {[ 7 := {| fsm_state := Some waiting_for_confirmation; fsm_data := ∅ |} ]};
     user_backgrounds := ∅;
     trace := [];
     calls := 0 |}.

(** User 7 has stored a background and is asked to confirm ["milk"]. *)
Definition decorated_world : World :=
  {| storage := storage waiting_world;
     user_backgrounds := {[ 7 := [Byte.xff; Byte.xd8; Byte.xff] ]};
     trace := [];
     calls := 0 |}.

(** The local engine can be constructed. *)
Definition paddle_ok : OCRService.Env :=
  {| OCRService.DATALAB_API_KEY := Some (py "key");
     OCRService.PADDLE_OCR_LANG := py "ru";
     OCRService.new_PaddleOCRService :=
       fun lang => Some {| OCRService.paddle_object := 3;
                           OCRService.paddle_lang := lang |};
     OCRService.new_DatalabService := Some {| OCRService.datalab_object := 2 |} |}.

(** An engine that recognises two texts and an empty one. *)
Definition example_engine : bytes -> Outcome (list (list str)) :=
  fun _ => Returned [[py "Milk"; []; py "Eggs"]].

(** The eight bytes of the PNG signature and four more. *)
Definition png_bytes : bytes :=
  [Byte.x89; Byte.x50; Byte.x4e; Byte.x47; Byte.x0d; Byte.x0a; Byte.x1a; Byte.x0a;
   Byte.x00; Byte.x00; Byte.x00; Byte.x0d].

(** Two tags, an ampersand, a [<>] that is no tag and a [<] that nothing
    closes. *)
Definition marked_up_text : str := py "x <b>Milk</b> & <> 1 < 2".

(* ===================================================================== *)
(** ** Python string facts *)
(* ===================================================================== *)

Lemma str_eqb_eq (a b : str) : str_eqb a b = true <-> a = b.
Proof.
  revert b; induction a as [|x a IH]; intros [|y b]; simpl; split;
    try congruence; try discriminate.
  - intros H. apply andb_prop in H as [Hx Hab].
    apply N.eqb_eq in Hx. apply IH in Hab. congruence.
  - intros H. injection H as -> ->.
    rewrite N.eqb_refl. simpl. now apply IH.
Qed.

Lemma str_eqb_refl (a : str) : str_eqb a a = true.
Proof. now apply str_eqb_eq. Qed.

Lemma truthy_true (s : str) : truthy s = true <-> s <> [].
Proof. destruct s; simpl; split; congruence. Qed.

Lemma truthy_rev (s : str) : truthy (rev s) = truthy s.
Proof.
  destruct s as [|c s]; [reflexivity|]. simpl.
  destruct (rev s ++ [c]) eqn:E; [|reflexivity].
  now apply app_eq_nil in E as [_ E].
Qed.

Lemma truthy_lstrip (s : str) : truthy (lstrip s) = negb (blank s).
Proof.
  induction s as [|c s IH]; [reflexivity|].
  simpl. destruct (isspace c); simpl; [exact IH|reflexivity].
Qed.

Lemma blank_app (a b : str) : blank (a ++ b) = blank a && blank b.
Proof. apply forallb_app. Qed.

Lemma blank_rev (s : str) : blank (rev s) = blank s.
Proof.
  induction s as [|c s IH]; [reflexivity|].
  simpl. rewrite blank_app, IH. simpl. rewrite andb_true_r. apply andb_comm.
Qed.

Lemma blank_lstrip (s : str) : blank (lstrip s) = blank s.
Proof.
  induction s as [|c s IH]; [reflexivity|].
  simpl. destruct (isspace c) eqn:E; simpl; [exact IH|now rewrite E].
Qed.

(** [if line.strip():] tests whether the line has a non-whitespace code
    point. *)
Lemma truthy_strip (s : str) : truthy (strip s) = negb (blank s).
Proof.
  unfold strip, rstrip.
  now rewrite truthy_rev, truthy_lstrip, blank_rev, blank_lstrip.
Qed.

(** [lstrip] removes a whitespace prefix. *)
Lemma lstrip_split (s : str) :
  exists p, s = p ++ lstrip s /\ blank p = true.
Proof.
  induction s as [|c s (p & Hp & Hb)]; [now exists []|].
  simpl. destruct (isspace c) eqn:E.
  - exists (c :: p). simpl. rewrite E, Hb. split; [congruence|reflexivity].
  - now exists [].
Qed.

(** [rstrip] removes a whitespace suffix. *)
Lemma rstrip_split (s : str) :
  exists q, s = rstrip s ++ q /\ blank q = true.
Proof.
  destruct (lstrip_split (rev s)) as (p & Hp & Hb).
  exists (rev p). split.
  - unfold rstrip. rewrite <- rev_app_distr, <- Hp. symmetry. apply rev_involutive.
  - now rewrite blank_rev.
Qed.

Lemma strip_split (s : str) :
  exists p q, s = p ++ strip s ++ q /\ blank p = true /\ blank q = true.
Proof.
  destruct (lstrip_split s) as (p & Hp & Hbp).
  destruct (rstrip_split (lstrip s)) as (q & Hq & Hbq).
  exists p, q. unfold strip. now rewrite <- Hq.
Qed.

(** Trimming keeps code points only. *)
Lemma strip_incl (s : str) (c : char) : In c (strip s) -> In c s.
Proof.
  destruct (strip_split s) as (p & q & Hs & _ & _). intros H.
  rewrite Hs. apply in_or_app. right. apply in_or_app. now left.
Qed.

(** *** [str.split()] *)

Lemma split_ws_from_blank (cur s : str) :
  blank s = true -> split_ws_from cur s = split_ws_from cur [].
Proof.
  revert cur; induction s as [|c s IH]; intros cur H; [reflexivity|].
  simpl in H. apply andb_prop in H as [Hc Hs].
  simpl. rewrite Hc, (IH [] Hs). reflexivity.
Qed.

Lemma split_ws_from_app_blank (cur a q : str) :
  blank q = true -> split_ws_from cur (a ++ q) = split_ws_from cur a.
Proof.
  intros Hq. revert cur; induction a as [|c a IH]; intros cur; simpl.
  - now apply split_ws_from_blank.
  - destruct (isspace c); [destruct (truthy cur)|]; now rewrite IH.
Qed.

Lemma split_ws_blank_app (p s : str) :
  blank p = true -> split_ws (p ++ s) = split_ws s.
Proof.
  unfold split_ws. induction p as [|c p IH]; intros H; [reflexivity|].
  simpl in H. apply andb_prop in H as [Hc Hp].
  simpl. rewrite Hc. simpl. now apply IH.
Qed.

(** Trimming does not change the words of a line. *)
Lemma split_ws_strip (s : str) : split_ws (strip s) = split_ws s.
Proof.
  destruct (strip_split s) as (p & q & Hs & Hp & Hq).
  rewrite Hs at 2. rewrite (split_ws_blank_app _ _ Hp).
  unfold split_ws. now rewrite split_ws_from_app_blank.
Qed.

Lemma split_ws_nil_blank (s : str) : split_ws s = [] <-> blank s = true.
Proof.
  unfold split_ws. split.
  - assert (G : forall cur, split_ws_from cur s = [] -> cur = [] /\ blank s = true).
    { induction s as [|c s IH]; intros cur H; simpl in *.
      - destruct cur; [now split|discriminate].
      - destruct (isspace c).
        + destruct cur; simpl in H; [|discriminate].
          destruct (IH [] H) as [_ Hb]. now split.
        + now destruct (IH (c :: cur) H) as [Hc _]. }
    intros H. now destruct (G [] H).
  - intros H. now rewrite split_ws_from_blank.
Qed.

Lemma rev_word (cur : str) :
  cur <> [] -> Forall (fun c => isspace c = false) cur -> is_word (rev cur).
Proof.
  intros Hne H. split.
  - intros E. apply Hne. rewrite <- (rev_involutive cur), E. reflexivity.
  - now apply Forall_rev.
Qed.

Lemma split_ws_from_words (cur s : str) :
  Forall (fun c => isspace c = false) cur ->
  Forall is_word (split_ws_from cur s).
Proof.
  revert cur; induction s as [|c s IH]; intros cur Hcur; cbn [split_ws_from].
  - destruct cur as [|x cur]; cbn [truthy]; [constructor|].
    constructor; [|constructor]. now apply rev_word.
  - destruct (isspace c) eqn:E.
    + destruct cur as [|x cur]; cbn [truthy]; [now apply IH|].
      constructor; [now apply rev_word|]. apply IH. constructor.
    + apply IH. now constructor.
Qed.

(** [str.split()] yields words only. *)
Lemma split_ws_words (s : str) : Forall is_word (split_ws s).
Proof. apply split_ws_from_words. constructor. Qed.

Lemma split_ws_from_word (cur w rest : str) :
  Forall (fun c => isspace c = false) w ->
  split_ws_from cur (w ++ rest) = split_ws_from (rev w ++ cur) rest.
Proof.
  revert cur; induction w as [|c w IH]; intros cur H; [reflexivity|].
  inversion H as [|? ? Hc Hw]; subst. simpl. rewrite Hc.
  rewrite IH by assumption. now rewrite <- app_assoc.
Qed.

(** Splitting a space-joined list of words gives the words back. *)
Lemma split_ws_join (ws : list str) :
  Forall is_word ws -> split_ws (join [space] ws) = ws.
Proof.
  unfold split_ws. induction ws as [|w ws IH]; intros H; [reflexivity|].
  inversion H as [|? ? [Hne Hw] Hws]; subst.
  assert (Ht : truthy (rev w ++ []) = true).
  { rewrite app_nil_r, truthy_rev. now apply truthy_true. }
  simpl. destruct ws as [|w' ws].
  - rewrite <- (app_nil_r w) at 1. rewrite split_ws_from_word by assumption.
    simpl. rewrite Ht, app_nil_r, rev_involutive. reflexivity.
  - rewrite split_ws_from_word by assumption.
    cbn [app split_ws_from]. change (isspace space) with true. cbv iota.
    rewrite Ht, app_nil_r, rev_involutive. f_equal. now apply IH.
Qed.

(** *** Collapsing runs of spaces *)

Lemma replace_double_space_ws (s : str) :
  forall cur,
    split_ws_from cur (replace_double_space s) = split_ws_from cur s.
Proof.
  assert (G : forall n s, (length s <= n)%nat -> forall cur,
             split_ws_from cur (replace_double_space s) = split_ws_from cur s).
  { clear s. induction n as [|n IH]; intros s Hn cur.
    - destruct s; [reflexivity|simpl in Hn; lia].
    - destruct s as [|a [|b r]]; [reflexivity|reflexivity|].
      cbn [replace_double_space].
      destruct ((a =? space)%N && (b =? space)%N) eqn:E.
      + apply andb_prop in E as [Ea Eb].
        apply N.eqb_eq in Ea, Eb. subst a b.
        cbn [split_ws_from]. change (isspace space) with true. cbv iota.
        rewrite (IH r) by (simpl in Hn; lia).
        destruct (truthy cur); reflexivity.
      + cbn [split_ws_from]. destruct (isspace a); [destruct (truthy cur)|];
          rewrite (IH (b :: r)) by (simpl in Hn |- *; lia); reflexivity. }
  intros cur. now apply (G (length s)).
Qed.

Lemma replace_double_space_length (s : str) :
  has_double_space s = true ->
  (length (replace_double_space s) < length s)%nat.
Proof.
  assert (L : forall n s, (length s <= n)%nat ->
             (length (replace_double_space s) <= length s)%nat).
  { induction n as [|n IH]; intros t Hn.
    - destruct t; simpl in *; lia.
    - destruct t as [|a [|b r]]; [simpl; lia|simpl; lia|].
      cbn [replace_double_space].
      destruct ((a =? space)%N && (b =? space)%N).
      + specialize (IH r). simpl in *. lia.
      + specialize (IH (b :: r)). simpl in *. lia. }
  assert (G : forall n s, (length s <= n)%nat -> has_double_space s = true ->
             (length (replace_double_space s) < length s)%nat).
  { induction n as [|n IH]; intros t Hn Hd.
    - destruct t; [discriminate|simpl in Hn; lia].
    - destruct t as [|a [|b r]]; [discriminate|discriminate|].
      cbn [replace_double_space]. cbn [has_double_space] in Hd.
      destruct ((a =? space)%N && (b =? space)%N).
      + specialize (L (length r) r). simpl in *. lia.
      + simpl in Hd. specialize (IH (b :: r)). simpl in *. 
        assert (length (replace_double_space (b :: r)) < S (length r))%nat
          by (apply IH; [lia|exact Hd]).
        simpl in *. lia. }
  now apply (G (length s)).
Qed.

(** The loop of [_clean_text] ends within its bound: no double space is
    left. *)
Lemma collapse_spaces_done (line : str) :
  has_double_space (collapse_spaces line) = false.
Proof.
  unfold collapse_spaces.
  assert (G : forall fuel l, (length l <= fuel)%nat ->
             has_double_space (collapse_loop fuel l) = false).
  { induction fuel as [|fuel IH]; intros l Hl.
    - destruct l; [reflexivity|simpl in Hl; lia].
    - simpl. destruct (has_double_space l) eqn:E; [|exact E].
      apply IH. pose proof (replace_double_space_length l E). lia. }
  now apply G.
Qed.

Lemma collapse_loop_ws (fuel : nat) (line : str) :
  split_ws (collapse_loop fuel line) = split_ws line.
Proof.
  revert line; induction fuel as [|fuel IH]; intros line; [reflexivity|].
  simpl. destruct (has_double_space line); [|reflexivity].
  rewrite IH. apply replace_double_space_ws.
Qed.

(** Normalizing a line does not change its words. *)
Lemma split_ws_normal_line (line : str) :
  split_ws (normal_line line) = split_ws line.
Proof.
  unfold normal_line, collapse_spaces.
  now rewrite collapse_loop_ws, split_ws_strip.
Qed.

Lemma blank_normal_line (line : str) :
  blank (normal_line line) = blank line.
Proof.
  destruct (blank line) eqn:E.
  - apply split_ws_nil_blank. rewrite split_ws_normal_line.
    now apply split_ws_nil_blank.
  - destruct (blank (normal_line line)) eqn:E'; [|reflexivity].
    apply split_ws_nil_blank in E'. rewrite split_ws_normal_line in E'.
    apply split_ws_nil_blank in E'. congruence.
Qed.

Lemma blank_nonempty (s : str) : blank s = false -> s <> [].
Proof. now destruct s. Qed.

Lemma replace_double_space_incl (s : str) (c : char) :
  In c (replace_double_space s) -> In c s.
Proof.
  assert (G : forall n s, (length s <= n)%nat ->
             In c (replace_double_space s) -> In c s).
  { clear s. induction n as [|n IH]; intros s Hn H.
    - destruct s; [exact H|simpl in Hn; lia].
    - destruct s as [|a [|b r]]; [exact H|exact H|].
      cbn [replace_double_space] in H.
      destruct ((a =? space)%N && (b =? space)%N) eqn:E.
      + apply andb_prop in E as [Ea Eb]. apply N.eqb_eq in Ea, Eb. subst a b.
        destruct H as [H|H]; [now left|].
        right; right. apply (IH r); [simpl in Hn; lia|exact H].
      + destruct H as [H|H]; [now left|].
        right. apply (IH (b :: r)); [simpl in Hn |- *; lia|exact H]. }
  now apply (G (length s)).
Qed.

Lemma collapse_spaces_incl (s : str) (c : char) :
  In c (collapse_spaces s) -> In c s.
Proof.
  unfold collapse_spaces. generalize (length s) as fuel.
  intros fuel; revert s; induction fuel as [|fuel IH]; intros s H; [exact H|].
  simpl in H. destruct (has_double_space s); [|exact H].
  apply replace_double_space_incl. now apply IH.
Qed.

Lemma normal_line_incl (s : str) (c : char) :
  In c (normal_line s) -> In c s.
Proof. intros H. now apply strip_incl, collapse_spaces_incl. Qed.

(** *** [str.split(sep)] and [sep.join] *)

Lemma split_sep_nonempty (sep : char) (s : str) : split_sep sep s <> [].
Proof.
  destruct s as [|c s]; simpl; [discriminate|].
  destruct (c =? sep)%N; [discriminate|].
  destruct (split_sep sep s); discriminate.
Qed.

Lemma split_sep_free (sep : char) (s : str) :
  Forall (fun l => ~ In sep l) (split_sep sep s).
Proof.
  induction s as [|c s IH]; simpl.
  - constructor; [intros []|constructor].
  - destruct (c =? sep)%N eqn:E.
    + constructor; [intros []|exact IH].
    + apply N.eqb_neq in E.
      destruct (split_sep sep s) as [|l ls]; [repeat constructor; intros [H|[]]; congruence|].
      inversion IH as [|? ? Hl Hls]; subst.
      constructor; [|exact Hls]. intros [H|H]; [congruence|now apply Hl].
Qed.

Lemma split_sep_single (sep : char) (s : str) :
  ~ In sep s -> split_sep sep s = [s].
Proof.
  induction s as [|c s IH]; intros H; [reflexivity|].
  simpl. destruct (c =? sep)%N eqn:E.
  - apply N.eqb_eq in E. exfalso. apply H. now left.
  - rewrite IH; [reflexivity|]. intros Hin. apply H. now right.
Qed.

Lemma split_sep_app (sep : char) (a r : str) :
  ~ In sep a -> split_sep sep (a ++ sep :: r) = a :: split_sep sep r.
Proof.
  induction a as [|c a IH]; intros H; simpl.
  - now rewrite N.eqb_refl.
  - destruct (c =? sep)%N eqn:E.
    + apply N.eqb_eq in E. exfalso. apply H. now left.
    + rewrite IH; [reflexivity|]. intros Hin. apply H. now right.
Qed.

(** Splitting a joined list of separator-free parts gives the parts back. *)
Lemma split_sep_join (sep : char) (ls : list str) :
  ls <> [] -> Forall (fun l => ~ In sep l) ls ->
  split_sep sep (join [sep] ls) = ls.
Proof.
  induction ls as [|l ls IH]; intros Hne H; [congruence|].
  inversion H as [|? ? Hl Hls]; subst.
  destruct ls as [|l' ls].
  - simpl. now apply split_sep_single.
  - change (join [sep] (l :: l' :: ls)) with (l ++ sep :: join [sep] (l' :: ls)).
    rewrite split_sep_app by assumption. f_equal. now apply IH.
Qed.

(** *** [_clean_text] *)

Lemma fold_clean_step (lines acc : list str) :
  fold_left clean_step lines acc
  = acc ++ List.map collapse_spaces (List.filter truthy lines).
Proof.
  revert acc; induction lines as [|l lines IH]; intros acc; simpl.
  - now rewrite app_nil_r.
  - rewrite IH. unfold clean_step. destruct (truthy l); [|reflexivity].
    simpl. now rewrite <- app_assoc.
Qed.

Lemma filter_truthy_strip (lines : list str) :
  List.filter truthy (List.map strip lines)
  = List.map strip (List.filter (fun l => negb (blank l)) lines).
Proof.
  induction lines as [|l lines IH]; [reflexivity|].
  simpl. rewrite truthy_strip. destruct (blank l); simpl; now rewrite IH.
Qed.

(** The loop of [_clean_text] keeps the lines with a non-whitespace code
    point, normalized, in order. *)
Lemma cleaned_lines_of_eq (text : str) :
  cleaned_lines_of text
  = List.map normal_line
      (List.filter (fun l => negb (blank l)) (split_sep nl text)).
Proof.
  unfold cleaned_lines_of. rewrite fold_clean_step, filter_truthy_strip.
  simpl. now rewrite List.map_map.
Qed.

Lemma cleaned_lines_not_blank (text : str) :
  Forall (fun l => blank l = false) (cleaned_lines_of text).
Proof.
  rewrite cleaned_lines_of_eq. apply List.Forall_forall. intros l Hl.
  apply in_map_iff in Hl as (l0 & <- & Hl0).
  apply filter_In in Hl0 as [_ Hb].
  rewrite blank_normal_line. now destruct (blank l0).
Qed.

Lemma cleaned_lines_nl_free (text : str) :
  Forall (fun l => ~ In nl l) (cleaned_lines_of text).
Proof.
  rewrite cleaned_lines_of_eq. apply List.Forall_forall. intros l Hl.
  apply in_map_iff in Hl as (l0 & <- & Hl0).
  apply filter_In in Hl0 as [Hin _].
  pose proof (split_sep_free nl text) as F.
  rewrite List.Forall_forall in F. intros Hc. apply (F l0 Hin).
  now apply normal_line_incl.
Qed.

Lemma split_clean_text (text : str) :
  cleaned_lines_of text <> [] ->
  split_sep nl (_clean_text text) = cleaned_lines_of text.
Proof.
  intros Hne. unfold _clean_text.
  apply split_sep_join; [exact Hne|apply cleaned_lines_nl_free].
Qed.

(** C3 (amended).  [_clean_text] drops every line that is empty once
    trimmed, the lines that were already empty before trimming as much as
    the whitespace-only ones; no blank-line marker is kept.  The lines of the
    normalized text are the trimmed, space-collapsed forms of the non-blank
    input lines, in order, none of them empty (a text with no non-blank line
    normalizes to the empty text). *)
Theorem clean_text_drops_every_blank_line (text : str) :
  let kept := List.filter (fun l => negb (blank l)) (split_sep nl text) in
  cleaned_lines_of text = List.map normal_line kept
  /\ Forall (fun l => l <> []) (cleaned_lines_of text)
  /\ split_sep nl (_clean_text text)
     = match kept with
       | [] => [[]]
       | _ :: _ => List.map normal_line kept
       end.
Proof.
  cbv zeta. split; [apply cleaned_lines_of_eq|]. split.
  - eapply Forall_impl; [apply cleaned_lines_not_blank|].
    intros l Hl. now apply blank_nonempty.
  - pose proof (split_clean_text text) as H.
    rewrite cleaned_lines_of_eq in H. unfold _clean_text in *.
    rewrite cleaned_lines_of_eq in *.
    destruct (List.filter _ _) as [|k kept]; [reflexivity|].
    apply H. discriminate.
Qed.

(** C3, as stated, fails: in ["a\n\nb"] the second line is empty before
    trimming, yet the normalized text is ["a\nb"] and has no empty line. *)
Lemma clean_text_loses_blank_line :
  let text := py "a" ++ [nl; nl] ++ py "b" in
  split_sep nl text = [py "a"; []; py "b"]
  /\ _clean_text text = py "a" ++ [nl] ++ py "b"
  /\ ~ In [] (split_sep nl (_clean_text text)).
Proof.
  cbv zeta. split; [reflexivity|]. split; [reflexivity|].
  vm_compute. intros [H|[H|[]]]; discriminate.
Qed.

(** *** [escape_html_for_display] *)

Lemma html_escape_char_safe (c x : char) :
  In x (html_escape_char c) -> x <> lt_sign /\ x <> gt_sign.
Proof.
  assert (K : forall lit : string,
             forallb (fun y => negb (y =? lt_sign)%N && negb (y =? gt_sign)%N) (py lit) = true ->
             In x (py lit) -> x <> lt_sign /\ x <> gt_sign).
  { intros lit Hall Hin. rewrite forallb_forall in Hall.
    specialize (Hall x Hin). apply andb_prop in Hall as [H1 H2].
    apply negb_true_iff in H1, H2. apply N.eqb_neq in H1, H2. now split. }
  unfold html_escape_char.
  destruct (c =? amp_sign)%N; [now apply K|].
  destruct (c =? lt_sign)%N eqn:E2; [now apply K|].
  destruct (c =? gt_sign)%N eqn:E3; [now apply K|].
  destruct (c =? dquote)%N; [now apply K|].
  destruct (c =? squote)%N; [now apply K|].
  apply N.eqb_neq in E2, E3. intros [<-|[]]. now split.
Qed.

Lemma html_escape_safe (s : str) (x : char) :
  In x (html_escape s) -> x <> lt_sign /\ x <> gt_sign.
Proof.
  unfold html_escape. intros H.
  apply in_flat_map in H as (c & _ & Hx).
  now apply html_escape_char_safe in Hx.
Qed.

Lemma re_sub_tags_from_incl (s : str) :
  forall skip x, In x (re_sub_tags_from skip s) -> In x s.
Proof.
  induction s as [|c s IH]; intros skip x H; [exact H|].
  cbn [re_sub_tags_from] in H. destruct skip as [|k].
  - destruct (c =? lt_sign)%N.
    + destruct (tag_rest s) as [[|[|n]]|].
      * destruct H as [H|H]; [now left|right; now apply (IH 0%nat)].
      * destruct H as [H|H]; [now left|right; now apply (IH 0%nat)].
      * right. now apply (IH (S (S n))).
      * destruct H as [H|H]; [now left|right; now apply (IH 0%nat)].
    + destruct H as [H|H]; [now left|right; now apply (IH 0%nat)].
  - right. now apply (IH k).
Qed.

Lemma tag_rest_none (s : str) : tag_rest s = None <-> ~ In gt_sign s.
Proof.
  induction s as [|c s IH]; simpl.
  - split; [intros _ []|reflexivity].
  - destruct (c =? gt_sign)%N eqn:E.
    + apply N.eqb_eq in E. split; [discriminate|]. intros H. exfalso. apply H. now left.
    + apply N.eqb_neq in E. destruct (tag_rest s).
      * split; [discriminate|]. intros H. exfalso.
        assert (G : ~ In gt_sign s) by (intros Hin; apply H; now right).
        apply IH in G. discriminate.
      * split; [|reflexivity]. intros _ [H|H]; [congruence|].
        now apply (proj1 IH).
Qed.

Lemma tag_rest_pos (s : str) : tag_rest s <> Some 0%nat.
Proof.
  destruct s as [|c s]; simpl; [discriminate|].
  destruct (c =? gt_sign)%N; [discriminate|]. destruct (tag_rest s); discriminate.
Qed.

(** After the substitution no match of the tag pattern is left. *)
Lemma re_sub_tags_from_clean (s : str) :
  forall skip, has_tag (re_sub_tags_from skip s) = false.
Proof.
  induction s as [|c s IH]; intros skip; [reflexivity|].
  cbn [re_sub_tags_from]. destruct skip as [|k]; [|apply IH].
  assert (K : forall t, has_tag t = false ->
                (c =? lt_sign)%N = false -> has_tag (c :: t) = false).
  { intros t Ht Hc. cbn [has_tag]. now rewrite Hc, Ht. }
  destruct (c =? lt_sign)%N eqn:E; [|now apply K].
  destruct (tag_rest s) as [[|[|n]]|] eqn:T.
  - now apply tag_rest_pos in T.
  - destruct s as [|d s']; [discriminate|]. simpl in T.
    destruct (d =? gt_sign)%N eqn:D.
    + apply N.eqb_eq in D. subst d.
      cbn [re_sub_tags_from]. change (gt_sign =? lt_sign)%N with false. cbv iota.
      cbn [has_tag tag_rest]. rewrite E, N.eqb_refl. cbn [andb orb].
      change (gt_sign =? lt_sign)%N with false. cbn [andb orb].
      specialize (IH 0%nat). cbn [re_sub_tags_from] in IH.
      change (gt_sign =? lt_sign)%N with false in IH. cbv iota in IH.
      cbn [has_tag] in IH. change (gt_sign =? lt_sign)%N with false in IH.
      exact IH.
    + destruct (tag_rest s') as [[|m]|] eqn:T'; try discriminate.
      now apply tag_rest_pos in T'.
  - apply IH.
  - cbn [has_tag]. rewrite E, IH, orb_false_r.
    assert (N0 : tag_rest (re_sub_tags_from 0 s) = None).
    { apply tag_rest_none. intros Hin. apply re_sub_tags_from_incl in Hin.
      now apply tag_rest_none in T. }
    now rewrite N0.
Qed.

(** The pattern seen from the scanner: a match begins at [c :: r] exactly
    when [c] is [<] and the first [>] of [r] is not its first code point. *)
Lemma tag_rest_first (body rest : str) :
  ~ In gt_sign body ->
  tag_rest (body ++ gt_sign :: rest) = Some (S (length body)).
Proof.
  induction body as [|b body IH]; intros Hn.
  - cbn [app tag_rest length]. now rewrite N.eqb_refl.
  - cbn [app tag_rest length].
    assert (Hb : (b =? gt_sign)%N = false).
    { apply N.eqb_neq. intros ->. apply Hn. now left. }
    rewrite Hb, IH; [reflexivity|]. intros Hin. apply Hn. now right.
Qed.

Lemma tag_rest_split (s : str) :
  forall n, tag_rest s = Some n ->
  exists body rest,
    s = body ++ gt_sign :: rest /\ ~ In gt_sign body /\ n = S (length body).
Proof.
  induction s as [|c s IH]; intros n H; [discriminate|].
  cbn [tag_rest] in H. destruct (c =? gt_sign)%N eqn:E.
  - apply N.eqb_eq in E. subst c. injection H as <-.
    exists [], s. repeat split. intros [].
  - destruct (tag_rest s) as [m|] eqn:T; [|discriminate]. injection H as <-.
    destruct (IH m eq_refl) as (body & rest & -> & Hn & ->).
    exists (c :: body), rest. repeat split.
    apply N.eqb_neq in E. intros [H|H]; [congruence|now apply Hn].
Qed.

Lemma tag_at_scan (c : char) (r : str) :
  tag_at (c :: r) <-> c = lt_sign /\ exists m, tag_rest r = Some (S (S m)).
Proof.
  split.
  - intros (body & rest & E & Hne & Hn). injection E as -> ->. split; [reflexivity|].
    rewrite tag_rest_first by assumption.
    destruct body as [|b body]; [congruence|]. now exists (length body).
  - intros [-> [m T]]. apply tag_rest_split in T as (body & rest & -> & Hn & E).
    exists body, rest. repeat split; [|assumption].
    intros ->. discriminate E.
Qed.

Lemma re_sub_tags_from_skip (a b : str) :
  re_sub_tags_from (length a) (a ++ b) = re_sub_tags_from 0 b.
Proof.
  induction a as [|c a IH]; [reflexivity|].
  cbn [length app re_sub_tags_from]. exact IH.
Qed.

(** A match at the head is dropped whole. *)
Lemma re_sub_tags_tag (body rest : str) :
  body <> [] -> ~ In gt_sign body ->
  re_sub_tags (lt_sign :: body ++ gt_sign :: rest) = re_sub_tags rest.
Proof.
  intros Hne Hn. unfold re_sub_tags. cbn [re_sub_tags_from].
  rewrite N.eqb_refl, tag_rest_first by assumption.
  destruct body as [|b body]; [congruence|]. cbn [length].
  change ((b :: body) ++ gt_sign :: rest)
    with (b :: (body ++ gt_sign :: rest)).
  replace (b :: (body ++ gt_sign :: rest))
    with ((b :: body ++ [gt_sign]) ++ rest)
    by (cbn [app]; now rewrite <- app_assoc).
  replace (S (S (length body))) with (length (b :: body ++ [gt_sign]))
    by (cbn [length]; rewrite length_app; cbn [length]; lia).
  apply re_sub_tags_from_skip.
Qed.

(** Where no match begins, the code point is kept. *)
Lemma re_sub_tags_keep (c : char) (r : str) :
  ~ tag_at (c :: r) -> re_sub_tags (c :: r) = c :: re_sub_tags r.
Proof.
  intros Hn. unfold re_sub_tags. cbn [re_sub_tags_from].
  destruct (c =? lt_sign)%N eqn:E; [|reflexivity].
  destruct (tag_rest r) as [[|[|m]]|] eqn:T; try reflexivity.
  exfalso. apply Hn. apply tag_at_scan. apply N.eqb_eq in E. split; [exact E|].
  now exists m.
Qed.

Lemma tag_at_dec (s : str) : tag_at s \/ ~ tag_at s.
Proof.
  destruct s as [|c r].
  - right. intros (body & rest & E & _). discriminate E.
  - destruct (c =? lt_sign)%N eqn:E.
    + apply N.eqb_eq in E.
      destruct (tag_rest r) as [[|[|m]]|] eqn:T.
      * right. intros H. apply tag_at_scan in H as [_ [k H]]. congruence.
      * right. intros H. apply tag_at_scan in H as [_ [k H]]. congruence.
      * left. apply tag_at_scan. split; [exact E|]. now exists m.
      * right. intros H. apply tag_at_scan in H as [_ [k H]]. congruence.
    + right. intros H. apply tag_at_scan in H as [H _].
      apply N.eqb_neq in E. contradiction.
Qed.

Lemma re_sub_tags_stripped (n : nat) :
  forall text, (length text <= n)%nat -> tags_stripped text (re_sub_tags text).
Proof.
  induction n as [|n IH]; intros text Hl.
  - destruct text; [constructor|cbn [length] in Hl; lia].
  - destruct text as [|c r]; [constructor|].
    destruct (tag_at_dec (c :: r)) as [(body & rest & E & Hne & Hn)|Hno].
    + rewrite E, re_sub_tags_tag by assumption.
      apply stripped_tag; [assumption..|]. apply IH.
      apply (f_equal (@length char)) in E. cbn [length] in E, Hl.
      rewrite length_app in E. cbn [length] in E. lia.
    + rewrite re_sub_tags_keep by assumption.
      apply stripped_keep; [assumption|]. apply IH. cbn [length] in Hl. lia.
Qed.

Lemma stripped_is_re_sub_tags (text out : str) :
  tags_stripped text out -> out = re_sub_tags text.
Proof.
  induction 1 as [|body rest out Hne Hn _ IH|c r out Hno _ IH].
  - reflexivity.
  - now rewrite re_sub_tags_tag.
  - rewrite re_sub_tags_keep by assumption. now f_equal.
Qed.

Lemma has_tag_none (s : str) :
  has_tag s = false ->
  forall before after, s = before ++ after -> ~ tag_at after.
Proof.
  intros H before. revert s H.
  induction before as [|x before IH]; intros s H after E; cbn [app] in E; subst s.
  - destruct after as [|c r].
    + intros (body & rest & E & _). discriminate E.
    + intros T. apply tag_at_scan in T as [-> [m T]].
      cbn [has_tag] in H. rewrite N.eqb_refl, T in H. discriminate H.
  - cbn [has_tag] in H. apply orb_false_elim in H as [_ H].
    now apply (IH _ H).
Qed.

Lemma html_escape_plain (c : char) :
  ~ markup_char c -> html_escape [c] = [c].
Proof.
  unfold markup_char. cbn [In]. intros H.
  unfold html_escape. cbn [flat_map]. rewrite app_nil_r. unfold html_escape_char.
  destruct (c =? amp_sign)%N eqn:E1; [apply N.eqb_eq in E1; exfalso; apply H; subst c; auto 10|].
  destruct (c =? lt_sign)%N eqn:E2; [apply N.eqb_eq in E2; exfalso; apply H; subst c; auto 10|].
  destruct (c =? gt_sign)%N eqn:E3; [apply N.eqb_eq in E3; exfalso; apply H; subst c; auto 10|].
  destruct (c =? dquote)%N eqn:E4; [apply N.eqb_eq in E4; exfalso; apply H; subst c; auto 10|].
  destruct (c =? squote)%N eqn:E5; [apply N.eqb_eq in E5; exfalso; apply H; subst c; auto 10|].
  reflexivity.
Qed.

(** C5.  [escape_html_for_display] first strips the tag-like sequences and
    then escapes what remains.  Stripping: the intermediate text is the
    input with every match of [<[^>]+>] removed, scanning from the left, and
    with every other code point kept in place; it is the only text so
    related to the input, and no match is left in it.  Escaping: the
    intermediate text is rewritten code point by code point, each of
    [&], [<], [>], the double and the single quote becoming its entity and
    every other code point staying as it is.  So the result holds no [<] and
    no [>] at all. *)
Theorem escape_html_no_raw_markup (text : str) :
  escape_html_for_display text = html_escape (re_sub_tags text)
  /\ tags_stripped text (re_sub_tags text)
  /\ (forall out, tags_stripped text out -> out = re_sub_tags text)
  /\ has_tag (re_sub_tags text) = false
  /\ (forall before after, re_sub_tags text = before ++ after -> ~ tag_at after)
  /\ (forall a b, html_escape (a ++ b) = html_escape a ++ html_escape b)
  /\ (html_escape [amp_sign] = py "&amp;"
      /\ html_escape [lt_sign] = py "&lt;"
      /\ html_escape [gt_sign] = py "&gt;"
      /\ html_escape [dquote] = py "&quot;"
      /\ html_escape [squote] = py "&#x27;")
  /\ (forall c, ~ markup_char c -> html_escape [c] = [c])
  /\ ~ In lt_sign (escape_html_for_display text)
  /\ ~ In gt_sign (escape_html_for_display text).
Proof.
  split; [reflexivity|].
  split; [now apply (re_sub_tags_stripped (length text))|].
  split; [apply stripped_is_re_sub_tags|].
  split; [apply re_sub_tags_from_clean|].
  split; [apply has_tag_none, re_sub_tags_from_clean|].
  split; [intros a b; apply flat_map_app|].
  split; [repeat split|].
  split; [apply html_escape_plain|].
  unfold escape_html_for_display.
  split; intros H; apply html_escape_safe in H as [H1 H2]; congruence.
Qed.

(** *** [_wrap_text] *)

Section WrapFacts.

Variable pil : Pillow.
Variable max_width : Z.

Lemma wrap_word_acc (ws : list str) :
  forall acc res cur,
    fold_left (wrap_word pil max_width) ws (acc ++ res, cur)
    = (acc ++ fst (fold_left (wrap_word pil max_width) ws (res, cur)),
       snd (fold_left (wrap_word pil max_width) ws (res, cur))).
Proof.
  induction ws as [|w ws IH]; intros acc res cur; [reflexivity|].
  cbn [fold_left]. unfold wrap_word at 2 4 6.
  destruct (_ <=? max_width); [apply IH|].
  destruct cur; [apply IH|]. rewrite <- app_assoc. apply IH.
Qed.

Lemma wrap_original_line_acc (acc : list str) (line : str) :
  wrap_original_line pil max_width acc line
  = acc ++ wrap_original_line pil max_width [] line.
Proof.
  unfold wrap_original_line. destruct (negb (truthy (strip line))); [reflexivity|].
  rewrite <- (app_nil_r acc) at 1. rewrite wrap_word_acc.
  destruct (fold_left _ _ ([], [])) as [res cur]. cbn [fst snd].
  destruct cur; [reflexivity|]. now rewrite <- app_assoc.
Qed.

Lemma fold_wrap_original_line (lines : list str) :
  forall acc,
    fold_left (wrap_original_line pil max_width) lines acc
    = acc ++ flat_map (wrap_original_line pil max_width []) lines.
Proof.
  induction lines as [|l lines IH]; intros acc; cbn [fold_left flat_map].
  - now rewrite app_nil_r.
  - rewrite IH, wrap_original_line_acc. now rewrite <- app_assoc.
Qed.

Lemma wrap_word_cases (res cur : list str) (w : str) :
  wrap_word pil max_width (res, cur) w = (res, cur ++ [w])
  \/ wrap_word pil max_width (res, cur) w
     = (match cur with
        | [] => res
        | _ :: _ => res ++ [join [space] cur]
        end, [w]).
Proof. unfold wrap_word. destruct (_ <=? max_width); [now left|now right]. Qed.

(** What the inner loop keeps true: the words placed so far, followed by
    the words of the line being filled, are the words read so far. *)
Lemma wrap_word_fold (ws : list str) :
  Forall is_word ws ->
  forall res cur, Forall is_word cur ->
    let st := fold_left (wrap_word pil max_width) ws (res, cur) in
    concat (List.map split_ws (fst st)) ++ snd st
    = concat (List.map split_ws res) ++ cur ++ ws
    /\ Forall is_word (snd st)
    /\ (ws <> [] \/ cur <> [] -> snd st <> []).
Proof.
  induction 1 as [|w ws Hw Hws IH]; intros res cur Hcur; cbn [fold_left]; cbv zeta.
  - cbn [fst snd]. rewrite app_nil_r. repeat split; [assumption|].
    intros [H|H]; congruence.
  - assert (Hcw : Forall is_word (cur ++ [w]))
      by (apply Forall_app; split; [assumption|now constructor]).
    assert (H1 : Forall is_word [w]) by now constructor.
    destruct (wrap_word_cases res cur w) as [-> | ->].
    + destruct (IH res (cur ++ [w]) Hcw) as (E & F & N).
      rewrite E, <- app_assoc. repeat split; [assumption|].
      intros _. apply N. right. now destruct cur.
    + destruct cur as [|c cur].
      * destruct (IH res [w] H1) as (E & F & N).
        rewrite E. repeat split; [assumption|].
        intros _. apply N. right. discriminate.
      * destruct (IH (res ++ [join [space] (c :: cur)]) [w] H1) as (E & F & N).
        rewrite E, List.map_app, concat_app. cbn [List.map concat].
        rewrite split_ws_join by assumption.
        rewrite app_nil_r, <- !app_assoc. repeat split; [assumption|].
        intros _. apply N. right. discriminate.
Qed.

(** The lines produced for one source line carry exactly its words. *)
Lemma wrap_line_words (line : str) :
  concat (List.map split_ws (wrap_original_line pil max_width [] line))
  = split_ws line.
Proof.
  unfold wrap_original_line. rewrite truthy_strip, negb_involutive.
  destruct (blank line) eqn:B.
  - symmetry. simpl. now apply split_ws_nil_blank.
  - destruct (wrap_word_fold (split_ws line) (split_ws_words line) [] [])
      as (E & F & N); [constructor|].
    destruct (fold_left _ _ ([], [])) as [res cur]. cbn [fst snd] in *.
    destruct cur as [|c cur].
    + rewrite app_nil_r in E. exact E.
    + rewrite List.map_app, concat_app. cbn [List.map concat].
      rewrite split_ws_join by assumption. now rewrite app_nil_r.
Qed.

Lemma wrap_line_nonempty (line : str) :
  wrap_original_line pil max_width [] line <> [].
Proof.
  unfold wrap_original_line. rewrite truthy_strip, negb_involutive.
  destruct (blank line) eqn:B; [discriminate|].
  destruct (wrap_word_fold (split_ws line) (split_ws_words line) [] [])
    as (_ & _ & N); [constructor|].
  destruct (fold_left _ _ ([], [])) as [res cur]. cbn [fst snd] in *.
  destruct cur as [|c cur].
  - exfalso. apply N; [|reflexivity]. left. intros E.
    apply split_ws_nil_blank in E. congruence.
  - destruct res; discriminate.
Qed.

(** [_wrap_text] wraps the source lines one by one; its fallback
    [[text]] is never taken. *)
Lemma _wrap_text_flat_map (text : str) :
  _wrap_text pil text max_width
  = flat_map (wrap_original_line pil max_width []) (split_sep nl text).
Proof.
  unfold _wrap_text. rewrite fold_wrap_original_line. cbn [app].
  destruct (flat_map _ _) eqn:E; [|reflexivity].
  exfalso. pose proof (split_sep_nonempty nl text) as Hne.
  destruct (split_sep nl text) as [|l ls]; [congruence|].
  cbn [flat_map] in E. apply app_eq_nil in E as [E _].
  now apply wrap_line_nonempty in E.
Qed.

Lemma _wrap_text_one_line (line : str) :
  ~ In nl line ->
  _wrap_text pil line max_width = wrap_original_line pil max_width [] line.
Proof.
  intros H. rewrite _wrap_text_flat_map, split_sep_single by assumption.
  cbn [flat_map]. apply app_nil_r.
Qed.

Lemma _clean_text_one_line (line : str) :
  ~ In nl line -> blank line = false -> _clean_text line = normal_line line.
Proof.
  intros H B. unfold _clean_text.
  rewrite cleaned_lines_of_eq, split_sep_single by assumption.
  cbn [List.filter]. now rewrite B.
Qed.

Lemma normal_line_nl_free (line : str) :
  ~ In nl line -> ~ In nl (normal_line line).
Proof. intros H Hin. apply H. now apply normal_line_incl. Qed.

End WrapFacts.

(** C10.  For a non-blank paragraph line (a text without line break), the
    words of the lines [_wrap_text] produces, read in order, are exactly the
    words of the paragraph, whatever widths the font measures: no word is
    lost, repeated or moved. *)
Theorem wrap_text_keeps_words (pil : Pillow) (max_width : Z) (line : str) :
  ~ In nl line ->
  blank line = false ->
  concat (List.map split_ws (_wrap_text pil line max_width)) = split_ws line.
Proof.
  intros Hnl _. rewrite _wrap_text_one_line by assumption.
  apply wrap_line_words.
Qed.

Lemma flat_map_ext_Forall {A B} (f g : A -> list B) (l : list A) :
  Forall (fun a => f a = g a) l -> flat_map f l = flat_map g l.
Proof.
  induction 1 as [|a l Ha _ IH]; [reflexivity|].
  cbn [flat_map]. now rewrite Ha, IH.
Qed.

(** A non-blank line of the input, normalized and wrapped on its own. *)
Lemma wrap_clean_paragraph (pil : Pillow) (max_width : Z) (p : str) :
  ~ In nl p -> blank p = false ->
  _wrap_text pil (_clean_text p) max_width
  = wrap_original_line pil max_width [] (normal_line p).
Proof.
  intros Hnl B. rewrite _clean_text_one_line by assumption.
  apply _wrap_text_one_line. now apply normal_line_nl_free.
Qed.

(** C7.  Normalizing and then wrapping a text that has a non-blank line
    gives, in order, the lines obtained by normalizing and wrapping each
    non-blank input paragraph on its own, and the lines obtained for a
    paragraph carry exactly the words of that paragraph: no output line holds
    words of two paragraphs. *)
Theorem wrap_never_merges_paragraphs (pil : Pillow) (max_width : Z) (T : str) :
  let paragraphs := List.filter (fun l => negb (blank l)) (split_sep nl T) in
  paragraphs <> [] ->
  _wrap_text pil (_clean_text T) max_width
  = flat_map (fun p => _wrap_text pil (_clean_text p) max_width) paragraphs
  /\ Forall (fun p =>
       concat (List.map split_ws (_wrap_text pil (_clean_text p) max_width))
       = split_ws p) paragraphs.
Proof.
  cbv zeta. intros Hne.
  assert (P : Forall (fun p => ~ In nl p /\ blank p = false)
                (List.filter (fun l => negb (blank l)) (split_sep nl T))).
  { apply List.Forall_forall. intros p Hp. apply filter_In in Hp as [Hin Hb].
    pose proof (split_sep_free nl T) as F. rewrite List.Forall_forall in F.
    split; [now apply F|]. now destruct (blank p). }
  split.
  - rewrite _wrap_text_flat_map, split_clean_text
      by (rewrite cleaned_lines_of_eq; now destruct (List.filter _ _)).
    rewrite cleaned_lines_of_eq, flat_map_concat_map, List.map_map,
      <- flat_map_concat_map.
    apply flat_map_ext_Forall. eapply Forall_impl; [exact P|].
    intros p [Hnl Hb]. cbv beta. symmetry. now apply wrap_clean_paragraph.
  - eapply Forall_impl; [exact P|]. intros p [Hnl Hb]. cbv beta.
    rewrite wrap_clean_paragraph by assumption.
    rewrite wrap_line_words. apply split_ws_normal_line.
Qed.

(** C6.  Whenever the engine produces a canvas, it is 1200 wide and as high
    as the wrapped lines at 48 + 20 each, plus twice the padding of 60, plus
    40; it produces one for every text with a non-whitespace code point,
    unless Pillow raises. *)
Theorem canvas_size (pil : Pillow) (text : str) (background : option bytes) :
  (forall canvas,
      create_image_with_text pil text background = Some canvas ->
      canvas_width canvas = 1200
      /\ canvas_height canvas
         = Z.of_nat (length (_wrap_text pil (_clean_text text) (1200 - 2 * 60)))
           * (48 + 20) + 2 * 60 + 40)
  /\ (blank text = false -> pillow_raises pil = false ->
      exists canvas, create_image_with_text pil text background = Some canvas).
Proof.
  unfold create_image_with_text. split.
  - intros canvas H.
    destruct (negb (truthy text) || negb (truthy (strip text))); [discriminate|].
    destruct (pillow_raises pil); [discriminate|].
    injection H as <-. cbn [canvas_width canvas_height]. split; reflexivity.
  - intros B R. rewrite R, truthy_strip, B.
    destruct text as [|c text]; [discriminate|]. cbn [truthy negb orb].
    eexists. reflexivity.
Qed.

(** *** [_poll_for_result] *)

Lemma poll_loop_transient (get : nat -> HttpResult) (i remaining : nat)
    (done : list HttpEvent) :
  DatalabService.is_transient (get i) = true ->
  DatalabService.poll_loop get i (S remaining) done
  = DatalabService.poll_loop get (S i) remaining
      (done ++ [HttpGet; Sleep config.POLLING_INTERVAL]).
Proof.
  intros H. cbn [DatalabService.poll_loop].
  replace (done ++ [HttpGet; Sleep config.POLLING_INTERVAL])
    with ((done ++ [HttpGet]) ++ [Sleep config.POLLING_INTERVAL])
    by now rewrite <- app_assoc.
  unfold DatalabService.is_transient in H.
  destruct (get i) as [| |status body]; [reflexivity|discriminate|].
  destruct (negb (status =? 200)); [reflexivity|].
  destruct body as [| |st success markdown]; [reflexivity|discriminate|].
  apply negb_true_iff, orb_false_elim in H as [-> ->]. reflexivity.
Qed.

Lemma poll_loop_retries (get : nat -> HttpResult) (k : nat) :
  forall i remaining done,
    (forall j, (i <= j < i + k)%nat -> DatalabService.is_transient (get j) = true) ->
    DatalabService.poll_loop get i (k + remaining) done
    = DatalabService.poll_loop get (i + k) remaining (done ++ retry_rounds k).
Proof.
  induction k as [|k IH]; intros i remaining done H.
  - cbn [retry_rounds]. now rewrite Nat.add_0_r, app_nil_r.
  - change (S k + remaining)%nat with (S (k + remaining)).
    rewrite poll_loop_transient by (apply H; lia).
    rewrite IH by (intros j Hj; apply H; lia).
    cbn [retry_rounds]. rewrite <- app_assoc. cbn [app].
    now replace (S i + k)%nat with (i + S k)%nat by lia.
Qed.

(** C4.  While the responses are transient ([status] neither [complete] nor
    [failed], a non-200 status, or a network error), each of them costs
    exactly one of the 300 rounds: one GET followed by one sleep of the fixed
    interval.  After [k] of them the loop goes on at round [k] with
    [300 - k] rounds left, and after 300 of them it returns [None], and so
    does [extract_text_from_image]. *)
Theorem poll_budget (get : nat -> HttpResult) (k : nat) :
  (k <= config.MAX_POLLS)%nat ->
  (forall j, (j < k)%nat -> DatalabService.is_transient (get j) = true) ->
  DatalabService._poll_for_result get
  = DatalabService.poll_loop get k (300 - k) (retry_rounds k)
  /\ (k = 300%nat ->
      DatalabService._poll_for_result get = (Returned None, retry_rounds 300)
      /\ forall post,
           fst (DatalabService.extract_text_from_image post get) = None).
Proof.
  intros Hk H.
  assert (E : DatalabService._poll_for_result get
              = DatalabService.poll_loop get k (300 - k) (retry_rounds k)).
  { unfold DatalabService._poll_for_result.
    replace config.MAX_POLLS with (k + (300 - k))%nat
      by (unfold config.MAX_POLLS in *; lia).
    rewrite poll_loop_retries by (intros j Hj; apply H; lia).
    reflexivity. }
  split; [exact E|].
  intros ->.
  assert (E' : DatalabService._poll_for_result get = (Returned None, retry_rounds 300))
    by (rewrite E; reflexivity).
  split; [exact E'|].
  intros post. unfold DatalabService.extract_text_from_image.
  destruct (DatalabService._submit_image post) as [[[[|c id]|]|] ev];
    try reflexivity.
  now rewrite E'.
Qed.

(** *** [_switch_provider] *)

Lemma known_provider_eqb (p : str) :
  str_eqb p (py "datalab") || str_eqb p (py "paddle") = true
  <-> OCRService.known_provider p.
Proof.
  unfold OCRService.known_provider. rewrite orb_true_iff, !str_eqb_eq. reflexivity.
Qed.

Lemma kinds_differ : py "datalab" <> py "paddle".
Proof. vm_compute. discriminate. Qed.

(** C8.  For a service whose selected provider is one of the two kinds:
    a target of another kind is refused and changes nothing; a target that is
    already active with its backend object present succeeds and changes
    nothing; otherwise the backend is constructed, and on success it becomes
    the only backend held and the selected one, while on failure the selected
    provider and the backend in use stay as they were.  The selected provider
    stays one of the two kinds. *)
Theorem switch_provider_guarded (env : OCRService.Env) (self : OCRService.t)
    (target : str) :
  OCRService.known_provider (OCRService.provider self) ->
  let kind := lower target in
  let self' := fst (OCRService._switch_provider env self target) in
  let ok := fst (snd (OCRService._switch_provider env self target)) in
  (~ OCRService.known_provider kind -> ok = false /\ self' = self)
  /\ (OCRService.known_provider kind -> already_active self kind ->
      ok = true /\ self' = self)
  /\ (OCRService.known_provider kind -> ~ already_active self kind ->
      match construct env kind with
      | Some b =>
          ok = true /\ OCRService.provider self' = kind
          /\ OCRService.active_backend self' = b
          /\ (OCRService.datalab_service self' = None
              \/ OCRService.paddle_service self' = None)
      | None =>
          ok = false /\ OCRService.provider self' = OCRService.provider self
          /\ OCRService.active_backend self' = OCRService.active_backend self
      end)
  /\ OCRService.known_provider (OCRService.provider self').
Proof.
  intros Hself. cbv zeta.
  unfold OCRService._switch_provider, construct, already_active,
    OCRService.active_backend.
  set (kind := lower target). clearbody kind.
  destruct self as [prov ds ps].
  cbn [OCRService.provider OCRService.datalab_service OCRService.paddle_service] in *.
  assert (Kd : OCRService.known_provider (py "datalab")) by now left.
  assert (Kp : OCRService.known_provider (py "paddle")) by now right.
  destruct (str_eqb kind (py "datalab")) eqn:Ed;
    [apply str_eqb_eq in Ed; subst kind
    |destruct (str_eqb kind (py "paddle")) eqn:Ep;
       [apply str_eqb_eq in Ep; subst kind|]].
  3: { cbn [orb negb fst snd].
       assert (U : ~ OCRService.known_provider kind)
         by (intros [H|H]; apply str_eqb_eq in H; congruence).
       split; [now intros _|]. split; [now intros H|].
       split; [now intros H|assumption]. }
  all: destruct Hself as [-> | ->].
  all: destruct ds as [d|]; destruct ps as [p|].
  all: destruct (OCRService.DATALAB_API_KEY env) as [[|k0 key]|];
       destruct (OCRService.new_DatalabService env) as [nd|];
       destruct (OCRService.new_PaddleOCRService env (OCRService.PADDLE_OCR_LANG env))
         as [np|].
  all: assert (E1 : str_eqb (py "datalab") (py "paddle") = false) by reflexivity.
  all: assert (E2 : str_eqb (py "paddle") (py "datalab") = false) by reflexivity.
  all: pose proof kinds_differ as KD.
  all: rewrite ?str_eqb_refl, ?E1, ?E2.
  all: cbn [negb andb orb OCRService.is_some fst snd OCRService.provider
            OCRService.datalab_service OCRService.paddle_service].
  all: rewrite ?str_eqb_refl, ?E1, ?E2.
  all: solve [intuition congruence].
Qed.

(** *** Handlers *)

Lemma layout_calls_app (a b : list Effect) :
  layout_calls (a ++ b) = layout_calls a ++ layout_calls b.
Proof.
  induction a as [|e a IH]; [reflexivity|].
  destruct e; cbn [app layout_calls]; rewrite IH; reflexivity.
Qed.

Lemma too_big_true (S limit : Z) :
  0 <= limit -> limit < S -> too_big (Some S) limit = true.
Proof.
  intros H0 H. unfold too_big. apply andb_true_intro. split.
  - apply negb_true_iff, Z.eqb_neq. lia.
  - now apply Z.ltb_lt.
Qed.

Lemma doc_max_size_nonneg (d : Document) : 0 <= doc_max_size d.
Proof. unfold doc_max_size. destruct (doc_is_pdf d); discriminate. Qed.

(** Runs a handler symbolically: one case per answer of the transport and
    of the layout engine. *)
Ltac run_handler :=
  repeat (cbn beta iota zeta delta [snd fst trace calls storage user_backgrounds];
          match goal with
          | |- context [if transport_raises ?e ?n then _ else _] =>
              destruct (transport_raises e n) eqn:?
          | |- context [match create_image_with_text ?p ?t ?b with _ => _ end] =>
              destruct (create_image_with_text p t b)
          end);
  cbn beta iota zeta delta [snd fst trace calls storage user_backgrounds].

Ltac unfold_monad :=
  unfold try_except, get_state, set_state, get_data, update_data, clear,
    attempt, ask, raise, backgrounds_get, backgrounds_set, modify_context,
    transport, emit;
  unfold mbind, M_bind, mret, M_ret.

(** No callback handler of the router takes a confirm click outside
    [waiting_for_confirmation]. *)
Lemma confirm_click_unmatched (cb : CallbackQuery) (current : option State) :
  data cb = py "confirm_text" ->
  current <> Some waiting_for_confirmation ->
  List.find (fun h => fst h cb current) callback_query_handlers = None.
Proof.
  intros Hd Hs. unfold callback_query_handlers. cbn [List.find fst snd]. rewrite Hd.
  change (str_eqb (py "confirm_text") (py "edit_text")) with false.
  change (str_eqb (py "confirm_text") (py "back_to_confirmation")) with false.
  change (str_eqb (py "confirm_text") (py "cancel_text")) with false.
  rewrite str_eqb_refl. cbn [andb].
  assert (F : StateFilter waiting_for_confirmation current = false).
  { destruct current as [[| |]|]; try reflexivity. congruence. }
  now rewrite F.
Qed.

(** C1 (amended).  In a session whose state is not
    [waiting_for_confirmation], a [confirm_text] click matches no callback
    handler of the router: no handler runs, the session state and the stored
    text stay as they are, and nothing is reported to the user (no callback
    answer, no message). *)
Theorem confirm_outside_confirmation_is_silent (cb : CallbackQuery) (env : Env)
    (w : World) :
  data cb = py "confirm_text" ->
  fsm_state (context_of (storage w) (cb_from_user cb))
    <> Some waiting_for_confirmation ->
  feed_callback_query cb env w = (Returned false, w).
Proof.
  intros Hd Hs. unfold feed_callback_query, get_state.
  unfold mbind, M_bind, mret, M_ret.
  now rewrite (confirm_click_unmatched cb _ Hd Hs).
Qed.

(** C1, as stated, fails: user 7 clicks confirm twice on the text
    ["milk"].  The first click renders it and clears the session; the second
    click finds the session idle, is taken by no handler, and nothing at all
    is sent back for it. *)
Lemma second_confirm_click_reports_nothing :
  let w1 := snd (feed_callback_query confirm_click example_env waiting_world) in
  let r := feed_callback_query confirm_click example_env w1 in
  layout_calls (trace w1) = [py "milk"]
  /\ fsm_state (context_of (storage w1) 7) = None
  /\ fst r = Returned false
  /\ trace (snd r) = trace w1
  /\ existsb reports_to_user (skipn (length (trace w1)) (trace (snd r))) = false.
Proof. cbv zeta. repeat split; vm_compute; reflexivity. Qed.

Lemma confirm_layout_calls (state : Z) (cb : CallbackQuery) (env : Env) (w : World) :
  layout_calls (trace (snd (confirm_text_handler state cb env w)))
  = layout_calls (trace w)
    ++ (if truthy (extracted_text_of (fsm_data (context_of (storage w) state)))
           && negb (transport_raises env (S (calls w)))
        then [extracted_text_of (fsm_data (context_of (storage w) state))]
        else []).
Proof.
  unfold confirm_text_handler, create_image_from_text, render. unfold_monad.
  set (E := extracted_text_of _).
  destruct (truthy E) eqn:T; cbn [negb andb].
  - run_handler; rewrite ?layout_calls_app; cbn [layout_calls app negb];
      rewrite ?app_nil_r; reflexivity.
  - run_handler; rewrite ?layout_calls_app; cbn [layout_calls app negb];
      rewrite ?app_nil_r; reflexivity.
Qed.

Lemma context_of_insert (st : gmap Z FSMContext) (key : Z) (c : FSMContext) :
  context_of (<[key := c]> st) key = c.
Proof. unfold context_of. now rewrite lookup_insert_eq. Qed.

(** [process_edited_text] stores the whole trimmed text and shows the
    escaped first 3000 code points of it. *)
Lemma process_edited_text_stores (state : Z) (message : Message) (env : Env)
    (w : World) (m : str) :
  text message = Some m ->
  strip m <> [] ->
  let w1 := snd (process_edited_text state message env w) in
  fsm_state (context_of (storage w1) state) = Some waiting_for_confirmation
  /\ extracted_text_of (fsm_data (context_of (storage w1) state)) = strip m
  /\ trace w1
     = trace w
       ++ [MessageAnswer
             (EditedTextView
                (escape_html_for_display (slice_to 3000 (strip m)))
                (if (3000 <? length (strip m))%nat
                 then Some (3000%nat, length (strip m)) else None))].
Proof.
  intros Ht Hne. cbv zeta. unfold process_edited_text. rewrite Ht.
  apply truthy_true in Hne. rewrite Hne. cbn [negb].
  unfold display_of, max_text_length. unfold_monad. run_handler.
  all: rewrite !context_of_insert; cbn [fsm_state fsm_data].
  all: unfold extracted_text_of; rewrite lookup_insert_eq; cbn [default].
  all: repeat split; reflexivity.
Qed.

(** C2.  On confirm the layout engine is called with exactly the text held
    in the session, whatever its length (and is not called at all when that
    text is empty or the first status message cannot be sent); an edit stores
    the whole trimmed text while the message shown carries only its first
    3000 code points, so a later confirm renders the whole text. *)
Theorem confirm_renders_full_text (state : Z) (cb : CallbackQuery) (env : Env)
    (w : World) :
  let E := extracted_text_of (fsm_data (context_of (storage w) state)) in
  layout_calls (trace (snd (confirm_text_handler state cb env w)))
  = layout_calls (trace w)
    ++ (if truthy E && negb (transport_raises env (S (calls w))) then [E] else [])
  /\ (forall message env0 w0 m,
        text message = Some m ->
        strip m <> [] ->
        w = snd (process_edited_text state message env0 w0) ->
        E = strip m
        /\ trace w
           = trace w0
             ++ [MessageAnswer
                   (EditedTextView
                      (escape_html_for_display (slice_to 3000 (strip m)))
                      (if (3000 <? length (strip m))%nat
                       then Some (3000%nat, length (strip m)) else None))]).
Proof.
  cbv zeta. split; [apply confirm_layout_calls|].
  intros message env0 w0 m Ht Hne ->.
  destruct (process_edited_text_stores state message env0 w0 m Ht Hne)
    as (_ & Hstored & Htrace).
  now split.
Qed.

Ltac close_trace :=
  first
    [ exists []; split; [now rewrite app_nil_r|]
    | eexists; split; [repeat rewrite <- app_assoc; cbn [app]; reflexivity|] ].

Ltac close_oversized Hidle Hrel :=
  close_trace;
  (split; [reflexivity|]);
  intros Hidle Hrel;
  repeat match goal with
         | H : transport_raises _ _ = true |- _ => rewrite Hrel in H; discriminate H
         end;
  try discriminate Hidle;
  try reflexivity.

(** The raw state string never equals the printed form of a [State] object,
    so the comparison at the head of [handle_photo] is never true. *)
Lemma raw_state_is_no_State_str (raw s : State) :
  str_eqb (state_name raw) (State_str s) = false.
Proof. destruct raw, s; vm_compute; reflexivity. Qed.

(** An oversized photo: the file is never fetched and the OCR client never
    called; in an idle session with a working transport the user gets the
    status message and the "too big" notice. *)
Lemma handle_photo_oversized (state : Z) (message : Message) (env : Env)
    (w : World) (ph : PhotoSize) (S : Z) :
  last (photo message) = Some ph ->
  photo_file_size ph = Some S ->
  config.IMAGE_MAX_SIZE < S ->
  exists new,
    trace (snd (handle_photo state message env w)) = trace w ++ new
    /\ quiet new
    /\ (fsm_state (context_of (storage w) state) = None -> reliable env ->
        new = [MessageAnswer PhotoReceived;
               MessageEditText (FileTooBig config.IMAGE_MAX_SIZE)]).
Proof.
  intros Hl Hs Hbig. unfold handle_photo, report_failure. rewrite Hl, Hs.
  rewrite too_big_true by (try assumption; discriminate).
  unfold_monad.
  destruct (fsm_state _) as [s|]; [rewrite raw_state_is_no_State_str|].
  all: run_handler.
  all: close_oversized Hidle Hrel.
Qed.

(** An oversized document, against the ceiling of its kind. *)
Lemma handle_document_oversized (state : Z) (message : Message) (env : Env)
    (w : World) (doc : Document) (S : Z) :
  document message = Some doc ->
  doc_file_size doc = Some S ->
  doc_max_size doc < S ->
  exists new,
    trace (snd (handle_document state message env w)) = trace w ++ new
    /\ quiet new
    /\ (fsm_state (context_of (storage w) state) = None -> reliable env ->
        doc_is_image doc || doc_is_pdf doc = true ->
        new = [MessageAnswer (DocumentReceived (doc_is_pdf doc));
               MessageEditText (FileTooBig (doc_max_size doc))]).
Proof.
  intros Hd Hs Hbig. unfold handle_document, report_failure. rewrite Hd, Hs.
  rewrite too_big_true by (try assumption; apply doc_max_size_nonneg).
  unfold_monad.
  destruct (fsm_state _) as [s|].
  - run_handler; close_trace; (split; [reflexivity|]); intros Hidle; discriminate Hidle.
  - destruct (doc_is_image doc) eqn:I, (doc_is_pdf doc) eqn:P; cbn [negb andb orb].
    all: run_handler.
    all: close_trace; (split; [reflexivity|]); intros _ Hrel Hkind.
    all: repeat match goal with
                | H : transport_raises _ _ = true |- _ =>
                    rewrite Hrel in H; discriminate H
                end.
    all: try discriminate Hkind.
    all: reflexivity.
Qed.

(** C9.  An upload whose size exceeds the ceiling (10 MB for a photo or an
    image document, 50 MB for a PDF) is turned down before the file is
    fetched: the handler neither downloads it nor calls the OCR client,
    whatever the session state and whether or not the transport fails.  In an
    idle session with a working transport the user gets the status message
    and then the "too big" notice. *)
Theorem oversized_upload_never_reaches_ocr (state : Z) (message : Message)
    (env : Env) (w : World) (S : Z) :
  (forall ph,
      last (photo message) = Some ph ->
      photo_file_size ph = Some S ->
      10 * 1024 * 1024 < S ->
      exists new,
        trace (snd (handle_photo state message env w)) = trace w ++ new
        /\ quiet new
        /\ (fsm_state (context_of (storage w) state) = None -> reliable env ->
            new = [MessageAnswer PhotoReceived;
                   MessageEditText (FileTooBig (10 * 1024 * 1024))]))
  /\ (forall doc,
      document message = Some doc ->
      doc_file_size doc = Some S ->
      (if doc_is_pdf doc then 50 * 1024 * 1024 else 10 * 1024 * 1024) < S ->
      exists new,
        trace (snd (handle_document state message env w)) = trace w ++ new
        /\ quiet new
        /\ (fsm_state (context_of (storage w) state) = None -> reliable env ->
            doc_is_image doc || doc_is_pdf doc = true ->
            new = [MessageAnswer (DocumentReceived (doc_is_pdf doc));
                   MessageEditText
                     (FileTooBig (if doc_is_pdf doc then 50 * 1024 * 1024
                                  else 10 * 1024 * 1024))])).
Proof.
  split.
  - intros ph Hl Hs Hbig. now apply (handle_photo_oversized _ _ _ _ ph S).
  - intros doc Hd Hs Hbig.
    destruct (handle_document_oversized state message env w doc S Hd Hs)
      as (new & Ht & Hq & Hn).
    + unfold doc_max_size. now destruct (doc_is_pdf doc).
    + exists new. split; [exact Ht|]. split; [exact Hq|].
      intros Hi Hr Hk. rewrite (Hn Hi Hr Hk). unfold doc_max_size.
      now destruct (doc_is_pdf doc).
Qed.

(* ===================================================================== *)
(** ** The statements at the example inputs *)
(* ===================================================================== *)

(** A confirm click of user 7, who has no session yet. *)
Lemma confirm_outside_confirmation_is_silent_witness :
  data confirm_click = py "confirm_text"
  /\ fsm_state (context_of (storage fresh_world) (cb_from_user confirm_click))
     <> Some waiting_for_confirmation
  /\ feed_callback_query confirm_click example_env fresh_world
     = (Returned false, fresh_world).
Proof.
  assert (H1 : data confirm_click = py "confirm_text") by reflexivity.
  assert (H2 : fsm_state (context_of (storage fresh_world) (cb_from_user confirm_click))
               <> Some waiting_for_confirmation) by (vm_compute; discriminate).
  split; [exact H1|]. split; [exact H2|].
  exact (confirm_outside_confirmation_is_silent confirm_click example_env
           fresh_world H1 H2).
Defined.

(** User 7 sends 3001 code points as the edited text and confirms: the
    message shows 3000 of them, the layout engine gets all 3001. *)
Lemma confirm_renders_full_text_witness :
  let w1 := snd (process_edited_text 7 long_edit example_env editing_world) in
  text long_edit = Some long_text
  /\ strip long_text <> []
  /\ trace w1
     = [MessageAnswer
          (EditedTextView (slice_to 3000 long_text) (Some (3000%nat, 3001%nat)))]
  /\ layout_calls (trace (snd (confirm_text_handler 7 confirm_click example_env w1)))
     = [long_text].
Proof.
  cbv zeta.
  assert (H1 : text long_edit = Some long_text) by reflexivity.
  assert (H2 : strip long_text <> []) by (vm_compute; discriminate).
  destruct (confirm_renders_full_text 7 confirm_click example_env
              (snd (process_edited_text 7 long_edit example_env editing_world)))
    as [Hcalls Hedit].
  destruct (Hedit long_edit example_env editing_world long_text H1 H2 eq_refl)
    as [Hstored Htrace].
  split; [exact H1|]. split; [exact H2|]. split.
  - rewrite Htrace. vm_compute. reflexivity.
  - rewrite Hcalls, Hstored, Htrace. vm_compute. reflexivity.
Defined.

(** 300 responses with [status=processing]. *)
Lemma poll_budget_witness :
  (300 <= config.MAX_POLLS)%nat
  /\ (forall j, (j < 300)%nat -> DatalabService.is_transient processing = true)
  /\ DatalabService._poll_for_result (fun _ => processing)
     = (Returned None, retry_rounds 300)
  /\ fst (DatalabService.extract_text_from_image (ocr_post example_env)
            (fun _ => processing)) = None.
Proof.
  assert (H1 : (300 <= config.MAX_POLLS)%nat) by (unfold config.MAX_POLLS; lia).
  assert (H2 : forall j, (j < 300)%nat -> DatalabService.is_transient processing = true)
    by (intros; reflexivity).
  split; [exact H1|]. split; [exact H2|].
  destruct (proj2 (poll_budget (fun _ => processing) 300 H1 H2) eq_refl)
    as [Hpoll Hclient].
  split; [exact Hpoll|apply Hclient].
Defined.

(** ["Milk\nEggs\nBread"]: three lines, a canvas of 1200 by 364. *)
Lemma canvas_size_witness :
  let text := py "Milk" ++ [nl] ++ py "Eggs" ++ [nl] ++ py "Bread" in
  blank text = false
  /\ pillow_raises example_pillow = false
  /\ exists canvas,
       create_image_with_text example_pillow text None = Some canvas
       /\ canvas_width canvas = 1200
       /\ canvas_height canvas = 364.
Proof.
  cbv zeta. split; [reflexivity|]. split; [reflexivity|].
  destruct (canvas_size example_pillow
              (py "Milk" ++ [nl] ++ py "Eggs" ++ [nl] ++ py "Bread") None)
    as [Hdim Hsome].
  destruct (Hsome eq_refl eq_refl) as [canvas Hc].
  destruct (Hdim canvas Hc) as [Hw Hh].
  exists canvas. split; [exact Hc|]. split; [exact Hw|].
  rewrite Hh. reflexivity.
Defined.

(** ["a b\n\n  c  d "] at a width that holds one word per line. *)
Lemma wrap_never_merges_paragraphs_witness :
  let T := py "a b" ++ [nl; nl] ++ py "  c  d " in
  let paragraphs := List.filter (fun l => negb (blank l)) (split_sep nl T) in
  paragraphs = [py "a b"; py "  c  d "]
  /\ _wrap_text example_pillow (_clean_text T) 60
     = flat_map (fun p => _wrap_text example_pillow (_clean_text p) 60) paragraphs
  /\ Forall (fun p =>
       concat (List.map split_ws (_wrap_text example_pillow (_clean_text p) 60))
       = split_ws p) paragraphs.
Proof.
  cbv zeta. split; [reflexivity|].
  apply (wrap_never_merges_paragraphs example_pillow 60
           (py "a b" ++ [nl; nl] ++ py "  c  d ")).
  vm_compute. discriminate.
Defined.

(** Switching to the local engine when it cannot be constructed. *)
Lemma switch_provider_guarded_witness :
  let r := OCRService._switch_provider no_paddle datalab_only (py "Paddle") in
  OCRService.known_provider (OCRService.provider datalab_only)
  /\ fst (snd r) = false
  /\ OCRService.provider (fst r) = OCRService.provider datalab_only
  /\ OCRService.active_backend (fst r) = OCRService.active_backend datalab_only.
Proof.
  cbv zeta.
  assert (H : OCRService.known_provider (OCRService.provider datalab_only))
    by (left; reflexivity).
  split; [exact H|].
  destruct (switch_provider_guarded no_paddle datalab_only (py "Paddle") H)
    as (_ & _ & H3 & _).
  cbv zeta in H3.
  assert (K : OCRService.known_provider (lower (py "Paddle")))
    by (right; reflexivity).
  assert (A : ~ already_active datalab_only (lower (py "Paddle")))
    by (intros [E _]; vm_compute in E; discriminate E).
  specialize (H3 K A).
  assert (C : construct no_paddle (lower (py "Paddle")) = None) by reflexivity.
  rewrite C in H3. exact H3.
Defined.

(** A photo of 10 MB and one byte, and a PDF of 50 MB and one byte, sent
    in an idle session. *)
Lemma oversized_upload_never_reaches_ocr_witness :
  last (photo big_photo)
  = Some {| photo_file_id := py "large"; photo_file_size := Some 10485761 |}
  /\ trace (snd (handle_photo 7 big_photo example_env fresh_world))
     = [MessageAnswer PhotoReceived;
        MessageEditText (FileTooBig (10 * 1024 * 1024))]
  /\ document big_pdf_message = Some big_pdf
  /\ trace (snd (handle_document 7 big_pdf_message example_env fresh_world))
     = [MessageAnswer (DocumentReceived true);
        MessageEditText (FileTooBig (50 * 1024 * 1024))].
Proof.
  split; [reflexivity|]. split.
  - destruct (proj1 (oversized_upload_never_reaches_ocr 7 big_photo example_env
                       fresh_world 10485761)
                _ eq_refl eq_refl eq_refl) as (new & Ht & _ & Hn).
    rewrite Ht, (Hn eq_refl (fun _ => eq_refl)). reflexivity.
  - split; [reflexivity|].
    destruct (proj2 (oversized_upload_never_reaches_ocr 7 big_pdf_message
                       example_env fresh_world 52428801)
                big_pdf eq_refl eq_refl eq_refl) as (new & Ht & _ & Hn).
    rewrite Ht, (Hn eq_refl (fun _ => eq_refl) eq_refl). reflexivity.
Defined.

(** The two tags go, [<>] and the open [<] stay and are escaped with the
    ampersand. *)
Lemma escape_html_no_raw_markup_witness :
  tags_stripped marked_up_text (py "x Milk & <> 1 < 2")
  /\ escape_html_for_display marked_up_text = py "x Milk &amp; &lt;&gt; 1 &lt; 2".
Proof.
  destruct (escape_html_no_raw_markup marked_up_text) as (H1 & H2 & _).
  split; [exact H2|exact H1].
Defined.

(** ["aaa bbb ccc ddd"] at a width that holds one word per line. *)
Lemma wrap_text_keeps_words_witness :
  let line := py "aaa bbb ccc ddd" in
  ~ In nl line
  /\ blank line = false
  /\ _wrap_text example_pillow line 200 = [py "aaa"; py "bbb"; py "ccc"; py "ddd"]
  /\ concat (List.map split_ws (_wrap_text example_pillow line 200)) = split_ws line.
Proof.
  cbv zeta.
  assert (H1 : ~ In nl (py "aaa bbb ccc ddd"))
    by (intros H; vm_compute in H; intuition discriminate).
  split; [exact H1|]. split; [reflexivity|]. split; [reflexivity|].
  exact (wrap_text_keeps_words example_pillow 200 (py "aaa bbb ccc ddd") H1 eq_refl).
Defined.

(* ===================================================================== *)
(** ** Further properties of the layout engine *)
(* ===================================================================== *)

Lemma hd_replace_double_space (s : str) (d : char) :
  hd d (replace_double_space s) = hd d s.
Proof.
  destruct s as [|a [|b r]]; [reflexivity|reflexivity|].
  cbn [replace_double_space].
  destruct ((a =? space)%N && (b =? space)%N) eqn:E; [|reflexivity].
  apply andb_prop in E as [Ea _]. apply N.eqb_eq in Ea. now subst a.
Qed.

Lemma replace_double_space_nonempty (s : str) :
  s <> [] -> replace_double_space s <> [].
Proof.
  destruct s as [|a [|b r]]; [congruence|discriminate|].
  intros _. cbn [replace_double_space].
  destruct ((a =? space)%N && (b =? space)%N); discriminate.
Qed.

Lemma last_cons_nonempty (a : char) (t : str) (d : char) :
  t <> [] -> List.last (a :: t) d = List.last t d.
Proof. destruct t; [congruence|reflexivity]. Qed.

Lemma replace_double_space_eq (a b : char) (r : str) :
  replace_double_space (a :: b :: r)
  = if ((a =? space)%N && (b =? space)%N)
    then space :: replace_double_space r
    else a :: replace_double_space (b :: r).
Proof. reflexivity. Qed.

Lemma last_replace_double_space (s : str) (d : char) :
  List.last (replace_double_space s) d = List.last s d.
Proof.
  assert (G : forall n s, (length s <= n)%nat ->
             List.last (replace_double_space s) d = List.last s d).
  { clear s. induction n as [|n IH]; intros s Hn.
    - destruct s; [reflexivity|simpl in Hn; lia].
    - destruct s as [|a [|b r]]; [reflexivity|reflexivity|].
      rewrite replace_double_space_eq.
      destruct ((a =? space)%N && (b =? space)%N) eqn:E.
      + apply andb_prop in E as [_ Eb]. apply N.eqb_eq in Eb. subst b.
        destruct r as [|c r]; [reflexivity|].
        rewrite last_cons_nonempty
          by (apply replace_double_space_nonempty; discriminate).
        rewrite (IH (c :: r)) by (simpl in Hn |- *; lia). reflexivity.
      + rewrite last_cons_nonempty
          by (apply replace_double_space_nonempty; discriminate).
        rewrite (IH (b :: r)) by (simpl in Hn |- *; lia). reflexivity. }
  now apply (G (length s)).
Qed.

Lemma trimmed_collapse_loop (fuel : nat) (s : str) :
  trimmed s -> trimmed (collapse_loop fuel s).
Proof.
  revert s; induction fuel as [|fuel IH]; intros s H; [exact H|].
  simpl. destruct (has_double_space s); [|exact H].
  apply IH. destruct H as [Hh Hl]. split.
  - now rewrite hd_replace_double_space.
  - now rewrite last_replace_double_space.
Qed.

Lemma lstrip_hd (s : str) : isspace (hd 0%N (lstrip s)) = false.
Proof.
  induction s as [|c s IH]; [reflexivity|].
  simpl. destruct (isspace c) eqn:E; [exact IH|exact E].
Qed.

Lemma lstrip_id (s : str) : isspace (hd 0%N s) = false -> lstrip s = s.
Proof. destruct s as [|c s]; [reflexivity|]. simpl. now intros ->. Qed.

Lemma rev_last (s : str) (d : char) :
  s <> [] -> rev s = List.last s d :: rev (removelast s).
Proof.
  intros H. rewrite (app_removelast_last d H) at 1.
  now rewrite rev_app_distr.
Qed.

Lemma hd_rev (s : str) (d : char) : hd d (rev s) = List.last s d.
Proof.
  destruct s as [|c s]; [reflexivity|].
  now rewrite (rev_last (c :: s) d).
Qed.

Lemma last_rev (s : str) (d : char) : List.last (rev s) d = hd d s.
Proof. rewrite <- (rev_involutive s) at 2. now rewrite hd_rev. Qed.

Lemma rstrip_id (s : str) : isspace (List.last s 0%N) = false -> rstrip s = s.
Proof.
  intros H. unfold rstrip. rewrite lstrip_id; [apply rev_involutive|].
  now rewrite hd_rev.
Qed.

Lemma trimmed_strip_id (s : str) : trimmed s -> strip s = s.
Proof.
  intros [Hh Hl]. unfold strip. rewrite (lstrip_id s Hh). now apply rstrip_id.
Qed.

Lemma strip_trimmed (s : str) : trimmed (strip s).
Proof.
  unfold strip, rstrip, trimmed. split.
  - destruct (lstrip_split (rev (lstrip s))) as (p & Hp & _).
    destruct (lstrip (rev (lstrip s))) as [|c v] eqn:V; [reflexivity|].
    assert (E : lstrip s = rev (c :: v) ++ rev p).
    { rewrite <- rev_app_distr, <- Hp. symmetry. apply rev_involutive. }
    pose proof (lstrip_hd s) as H. rewrite E in H.
    destruct (rev (c :: v)) as [|x r] eqn:R; [|exact H].
    exfalso. apply (f_equal (@length _)) in R. rewrite length_rev in R.
    discriminate R.
  - rewrite last_rev. apply lstrip_hd.
Qed.

Lemma normal_line_trimmed (line : str) : trimmed (normal_line line).
Proof. apply trimmed_collapse_loop, strip_trimmed. Qed.

Lemma collapse_spaces_id (s : str) :
  has_double_space s = false -> collapse_spaces s = s.
Proof.
  intros H. unfold collapse_spaces. destruct (length s); [reflexivity|].
  simpl. now rewrite H.
Qed.

(** Normalizing a normalized line changes nothing. *)
Lemma normal_line_idempotent (line : str) :
  normal_line (normal_line line) = normal_line line.
Proof.
  unfold normal_line at 1.
  rewrite (trimmed_strip_id _ (normal_line_trimmed line)).
  apply collapse_spaces_id, collapse_spaces_done.
Qed.

Lemma filter_all {A} (f : A -> bool) (l : list A) :
  Forall (fun x => f x = true) l -> List.filter f l = l.
Proof.
  induction 1 as [|x l Hx _ IH]; [reflexivity|].
  simpl. now rewrite Hx, IH.
Qed.

Lemma cleaned_lines_of_clean_text (text : str) :
  cleaned_lines_of (_clean_text text) = cleaned_lines_of text.
Proof.
  destruct (cleaned_lines_of text) as [|l ls] eqn:E.
  - unfold _clean_text. rewrite E. reflexivity.
  - rewrite cleaned_lines_of_eq, split_clean_text by (rewrite E; discriminate).
    rewrite filter_all.
    + rewrite <- E, cleaned_lines_of_eq, List.map_map.
      apply map_ext. intros a. apply normal_line_idempotent.
    + eapply Forall_impl; [apply cleaned_lines_not_blank|].
      intros a Ha. cbv beta. now rewrite Ha.
Qed.

(** X1.  Normalizing twice is the same as normalizing once. *)
Theorem clean_text_idempotent (text : str) :
  _clean_text (_clean_text text) = _clean_text text.
Proof.
  unfold _clean_text at 1 3. now rewrite cleaned_lines_of_clean_text.
Qed.

Lemma has_double_space_app_nl (a c : str) :
  has_double_space (a ++ nl :: c) = has_double_space a || has_double_space c.
Proof.
  induction a as [|x a IH].
  - cbn [app has_double_space]. now destruct c.
  - destruct a as [|y a'].
    + cbn [app]. cbn [app] in IH.
      change (has_double_space (x :: nl :: c))
        with (((x =? space)%N && (nl =? space)%N) || has_double_space (nl :: c)).
      change (nl =? space)%N with false. rewrite andb_false_r. exact IH.
    + change (has_double_space ((x :: y :: a') ++ nl :: c))
        with (((x =? space)%N && (y =? space)%N)
              || has_double_space ((y :: a') ++ nl :: c)).
      rewrite IH.
      change (has_double_space (x :: y :: a'))
        with (((x =? space)%N && (y =? space)%N) || has_double_space (y :: a')).
      now rewrite orb_assoc.
Qed.

Lemma has_double_space_join (ls : list str) :
  Forall (fun l => has_double_space l = false) ls ->
  has_double_space (join [nl] ls) = false.
Proof.
  induction 1 as [|l ls Hl Hls IH]; [reflexivity|].
  destruct ls as [|l' ls]; [exact Hl|].
  change (join [nl] (l :: l' :: ls)) with (l ++ nl :: join [nl] (l' :: ls)).
  now rewrite has_double_space_app_nl, Hl, IH.
Qed.

(** X2.  The normalized text has no two spaces in a row, and each of its
    lines has a non-whitespace code point at both ends. *)
Theorem clean_text_normal_form (text : str) :
  has_double_space (_clean_text text) = false
  /\ Forall (fun l => l <> [] /\ trimmed l /\ strip l = l) (cleaned_lines_of text).
Proof.
  split.
  - apply has_double_space_join. rewrite cleaned_lines_of_eq.
    apply List.Forall_forall. intros l Hl.
    apply in_map_iff in Hl as (l0 & <- & _). apply collapse_spaces_done.
  - pose proof (cleaned_lines_not_blank text) as B.
    rewrite cleaned_lines_of_eq in *.
    apply List.Forall_forall. intros l Hl.
    rewrite List.Forall_forall in B. specialize (B l Hl).
    apply in_map_iff in Hl as (l0 & <- & _).
    split; [now apply blank_nonempty|]. split; [apply normal_line_trimmed|].
    apply trimmed_strip_id, normal_line_trimmed.
Qed.

(** X3.  The engine gives no image exactly when the text is empty or all
    whitespace, or when Pillow raises. *)
Theorem create_image_none_iff (pil : Pillow) (text : str) (background : option bytes) :
  create_image_with_text pil text background = None
  <-> blank text = true \/ pillow_raises pil = true.
Proof.
  unfold create_image_with_text. rewrite truthy_strip, negb_involutive.
  assert (E : negb (truthy text) || blank text = blank text) by now destruct text.
  rewrite E. destruct (blank text); [now split; [left|]|].
  destruct (pillow_raises pil); [now split; [right|]|].
  split; [discriminate|]. intros [H|H]; discriminate.
Qed.

Lemma split_ws_word (w : str) : is_word w -> split_ws w = [w].
Proof.
  intros H. change w with (join [space] [w]) at 1.
  apply split_ws_join. now constructor.
Qed.

Lemma join_words_not_blank (ws : list str) :
  Forall is_word ws -> ws <> [] -> blank (join [space] ws) = false.
Proof.
  intros H Hne. destruct (blank (join [space] ws)) eqn:B; [|reflexivity].
  apply split_ws_nil_blank in B. rewrite split_ws_join in B by assumption.
  congruence.
Qed.

Lemma blank_lines (s : str) : forallb blank (split_sep nl s) = blank s.
Proof.
  induction s as [|c s IH]; [reflexivity|].
  cbn [split_sep]. destruct (c =? nl)%N eqn:E.
  - apply N.eqb_eq in E. subst c. cbn [forallb blank]. exact IH.
  - pose proof (split_sep_nonempty nl s) as Hne.
    destruct (split_sep nl s) as [|l ls]; [congruence|].
    cbn [forallb] in *. change (blank (c :: l)) with (isspace c && blank l).
    change (blank (c :: s)) with (isspace c && blank s).
    now rewrite <- IH, andb_assoc.
Qed.

Section WrapBounds.

Variable pil : Pillow.
Variable max_width : Z.

Lemma wrap_word_step (res cur : list str) (w : str) :
  (wrap_word pil max_width (res, cur) w = (res, cur ++ [w])
   /\ textbbox_width pil
        match cur with
        | [] => w
        | _ :: _ => join [space] (cur ++ [w])
        end <= max_width)
  \/ wrap_word pil max_width (res, cur) w
     = (match cur with
        | [] => res
        | _ :: _ => res ++ [join [space] cur]
        end, [w]).
Proof.
  unfold wrap_word. destruct (_ <=? max_width) eqn:E; [left|now right].
  split; [reflexivity|now apply Z.leb_le].
Qed.

Lemma wrap_word_fits (ws : list str) :
  Forall is_word ws ->
  forall res cur,
    Forall is_word cur ->
    Forall (fun l => fits pil max_width l /\ blank l = false) res ->
    ((1 < length cur)%nat -> textbbox_width pil (join [space] cur) <= max_width) ->
    let st := fold_left (wrap_word pil max_width) ws (res, cur) in
    Forall (fun l => fits pil max_width l /\ blank l = false) (fst st)
    /\ ((1 < length (snd st))%nat ->
        textbbox_width pil (join [space] (snd st)) <= max_width).
Proof.
  induction 1 as [|w ws Hw Hws IH]; intros res cur Hcur Hres Hfit; cbv zeta;
    cbn [fold_left]; [now split|].
  assert (H1 : Forall is_word [w]) by now constructor.
  destruct (wrap_word_step res cur w) as [[-> E] | ->].
  - apply IH; [apply Forall_app; now split|assumption|].
    intros _. now destruct cur.
  - destruct cur as [|c cur].
    + apply IH; [assumption|assumption|]. cbn [length]. lia.
    + apply IH; [assumption| |cbn [length]; lia].
      apply Forall_app. split; [assumption|]. constructor; [|constructor].
      split; [|apply join_words_not_blank; [assumption|discriminate]].
      unfold fits. now rewrite split_ws_join.
Qed.

Lemma wrap_line_fits (line : str) :
  Forall (fun l => fits pil max_width l /\ (blank line = false -> blank l = false))
    (wrap_original_line pil max_width [] line).
Proof.
  unfold wrap_original_line. rewrite truthy_strip, negb_involutive.
  destruct (blank line) eqn:B.
  - constructor; [|constructor]. split; [|discriminate].
    unfold fits. cbn. lia.
  - destruct (wrap_word_fits (split_ws line) (split_ws_words line) [] [])
      as (F & W); [constructor|constructor|cbn; lia|].
    destruct (wrap_word_fold pil max_width (split_ws line) (split_ws_words line) [] [])
      as (_ & Wd & _); [constructor|].
    destruct (fold_left _ _ ([], [])) as [res cur]. cbn [fst snd] in *.
    assert (R : Forall (fun l => fits pil max_width l /\ (false = false -> blank l = false)) res).
    { eapply Forall_impl; [exact F|]. intros l [Hf Hb]. now split. }
    destruct cur as [|c cur]; [exact R|].
    apply Forall_app. split; [exact R|]. constructor; [|constructor].
    split; [|intros _; apply join_words_not_blank; [assumption|discriminate]].
    unfold fits. now rewrite split_ws_join.
Qed.

End WrapBounds.

(** X4.  Every line [_wrap_text] produces that holds two or more words
    measures at most [max_width]: only a line made of a single word can be
    wider. *)
Theorem wrapped_lines_fit (pil : Pillow) (max_width : Z) (text : str) :
  Forall (fun line =>
            (1 < length (split_ws line))%nat ->
            textbbox_width pil line <= max_width)
         (_wrap_text pil text max_width).
Proof.
  rewrite _wrap_text_flat_map. apply List.Forall_forall. intros l Hl.
  apply in_flat_map in Hl as (p & _ & Hl).
  pose proof (wrap_line_fits pil max_width p) as F.
  rewrite List.Forall_forall in F. now destruct (F l Hl).
Qed.

(** The lines to draw for a text that has a non-whitespace code point are
    all non-blank. *)
Lemma wrapped_clean_lines_not_blank (pil : Pillow) (max_width : Z) (text : str) :
  blank text = false ->
  Forall (fun l => blank l = false) (_wrap_text pil (_clean_text text) max_width).
Proof.
  intros B.
  assert (Hne : cleaned_lines_of text <> []).
  { rewrite cleaned_lines_of_eq. intros E. apply map_eq_nil in E.
    rewrite <- blank_lines in B.
    assert (A : forallb blank (split_sep nl text) = true); [|congruence].
    apply forallb_forall. intros l Hl.
    destruct (blank l) eqn:Bl; [reflexivity|].
    assert (Hin : In l (List.filter (fun l => negb (blank l)) (split_sep nl text)))
      by (apply filter_In; split; [assumption|now rewrite Bl]).
    rewrite E in Hin. destruct Hin. }
  rewrite _wrap_text_flat_map, split_clean_text by assumption.
  apply List.Forall_forall. intros l Hl.
  apply in_flat_map in Hl as (p & Hp & Hl).
  pose proof (wrap_line_fits pil max_width p) as F.
  rewrite List.Forall_forall in F. destruct (F l Hl) as [_ Hb]. apply Hb.
  pose proof (cleaned_lines_not_blank text) as N.
  rewrite List.Forall_forall in N. now apply N.
Qed.

Lemma draw_lines_bounds (x line_height : Z) (lines : list str) :
  0 <= line_height ->
  forall y,
    Forall (fun d =>
              (draw_x d = x + 2 \/ draw_x d = x)
              /\ y <= draw_y d
                 <= y + line_height * (Z.of_nat (length lines) - 1) + 2)
           (draw_lines x y line_height lines).
Proof.
  intros Hh. induction lines as [|l lines IH]; intros y; [constructor|].
  assert (W : Forall (fun d =>
                (draw_x d = x + 2 \/ draw_x d = x)
                /\ y <= draw_y d
                   <= y + line_height * (Z.of_nat (length (l :: lines)) - 1) + 2)
              (draw_lines x (y + line_height) line_height lines)).
  { eapply Forall_impl; [apply IH|]. intros d [Hx Hy]. split; [exact Hx|].
    cbn [length]. nia. }
  cbn [draw_lines]. destruct (negb (truthy (strip l))); [exact W|].
  constructor; [|constructor; [|exact W]]; cbn [draw_x draw_y length]; split;
    try (now left); try (now right); nia.
Qed.

(** The draw calls for lines none of which is blank: for each line in turn
    the shadow call and then the glyph call, one line height further down
    than for the line before. *)
Lemma draw_lines_calls (x line_height : Z) (lines : list str) :
  Forall (fun l => blank l = false) lines ->
  forall y,
    draw_lines x y line_height lines
    = concat (imap (fun i line =>
                      [ {| draw_x := x + 2;
                           draw_y := y + line_height * Z.of_nat i + 2;
                           draw_text := line;
                           draw_fill := RGBA (200, 200, 200, 100) |};
                        {| draw_x := x;
                           draw_y := y + line_height * Z.of_nat i;
                           draw_text := line;
                           draw_fill := RGB ImageGenerator.text_color |} ])
                   lines).
Proof.
  induction 1 as [|l lines Hl _ IH]; intros y; [reflexivity|].
  cbn [draw_lines]. rewrite truthy_strip, Hl. cbn [negb].
  rewrite imap_cons. cbn [concat app]. rewrite IH.
  replace (y + line_height * Z.of_nat 0 + 2) with (y + 2) by lia.
  replace (y + line_height * Z.of_nat 0) with y by lia.
  do 3 f_equal. apply imap_ext. intros i line _. unfold compose.
  replace (Z.of_nat (S i)) with (Z.of_nat i + 1) by lia.
  replace (y + line_height * (Z.of_nat i + 1))
    with (y + line_height + line_height * Z.of_nat i) by lia.
  reflexivity.
Qed.

(** X5.  On a canvas the engine produces, the draw calls are, for each
    wrapped line in order, first its grey shadow at (62, y + 2) and then the
    line itself in the text colour at (60, y), where y is 90 for the first
    line and 68 more for each further one; no other call is made.  Every
    call leaves the font height of 48 inside the canvas. *)
Theorem draws_inside_canvas (pil : Pillow) (text : str) (background : option bytes)
    (canvas : Canvas) :
  create_image_with_text pil text background = Some canvas ->
  canvas_draws canvas
  = concat (imap shadow_then_glyphs (_wrap_text pil (_clean_text text) 1080))
  /\ Forall (inside_canvas (canvas_height canvas)) (canvas_draws canvas).
Proof.
  intros H.
  assert (B : blank text = false).
  { destruct (blank text) eqn:B; [|reflexivity].
    assert (N : create_image_with_text pil text background = None); [|congruence].
    unfold create_image_with_text. rewrite truthy_strip, B. cbn [negb].
    now rewrite orb_true_r. }
  unfold create_image_with_text in H.
  destruct (negb (truthy text) || negb (truthy (strip text))); [discriminate|].
  destruct (pillow_raises pil); [discriminate|].
  injection H as <-. cbn [canvas_draws canvas_height]. split.
  - rewrite draw_lines_calls by now apply wrapped_clean_lines_not_blank.
    reflexivity.
  - eapply Forall_impl;
      [apply (draw_lines_bounds ImageGenerator.padding
                (ImageGenerator.font_size + ImageGenerator.line_spacing));
       discriminate|].
    intros d [Hx Hy].
    unfold inside_canvas, ImageGenerator.padding, ImageGenerator.font_size,
      ImageGenerator.line_spacing, ImageGenerator.width in *.
    split; [lia|]. lia.
Qed.

Lemma pick_color_in_palette (pil : Pillow) :
  In (pick_color pil) ImageGenerator.background_colors.
Proof.
  unfold pick_color. apply nth_In. apply Nat.mod_upper_bound. discriminate.
Qed.

(** X6.  The user's background is used only when its bytes are not empty and
    decode; in every other case the canvas gets one of the four pastel colours
    of the palette. *)
Theorem background_choice (pil : Pillow) (text : str) (background : option bytes)
    (canvas : Canvas) :
  create_image_with_text pil text background = Some canvas ->
  match canvas_background canvas with
  | UserBackground image_bytes =>
      background = Some image_bytes /\ image_bytes <> []
      /\ image_open_ok pil image_bytes = true
  | SolidColor rgb =>
      In rgb ImageGenerator.background_colors
      /\ (background = None \/ background = Some []
          \/ exists image_bytes,
               background = Some image_bytes
               /\ image_open_ok pil image_bytes = false)
  end.
Proof.
  unfold create_image_with_text.
  destruct (negb (truthy text) || negb (truthy (strip text))); [discriminate|].
  destruct (pillow_raises pil); [discriminate|].
  intros H. injection H as <-. cbn [canvas_background].
  destruct background as [[|c bs]|].
  - split; [apply pick_color_in_palette|]. right. now left.
  - destruct (image_open_ok pil (c :: bs)) eqn:E.
    + repeat split; [discriminate|exact E].
    + split; [apply pick_color_in_palette|]. right. right. now exists (c :: bs).
  - split; [apply pick_color_in_palette|]. now left.
Qed.

(* ===================================================================== *)
(** ** Further properties of the OCR client and of the provider selector *)
(* ===================================================================== *)

(** X7.  The client posts exactly once, and it polls only after a submit
    answered with status 200, a true [success] and a non-empty [request_id]:
    in every other case it returns [None] having made no GET. *)
Theorem no_poll_without_request_id (post : HttpResult) (get : nat -> HttpResult) :
  posts (snd (DatalabService.extract_text_from_image post get)) = 1%nat
  /\ ((exists st c id, post = Response 200 (JsonObject st true (JStr (c :: id))))
      \/ DatalabService.extract_text_from_image post get = (None, [HttpPost])).
Proof.
  assert (P : forall i remaining done,
             posts (snd (DatalabService.poll_loop get i remaining done)) = posts done).
  { intros i remaining. revert i.
    assert (A : forall d e, e <> HttpPost -> posts (d ++ [e]) = posts d).
    { induction d as [|x d IHd]; intros e He.
      - destruct e; [congruence|reflexivity|reflexivity].
      - destruct x; cbn [app posts]; now rewrite IHd. }
    induction remaining as [|remaining IH]; intros i done; [reflexivity|].
    cbn [DatalabService.poll_loop].
    assert (R : posts (snd (DatalabService.poll_loop get (S i) remaining
                  ((done ++ [HttpGet]) ++ [Sleep config.POLLING_INTERVAL])))
                = posts done) by (rewrite IH, !A; [reflexivity|discriminate|discriminate]).
    assert (D : posts (done ++ [HttpGet]) = posts done) by (apply A; discriminate).
    destruct (get i) as [| |status [| |st success markdown]]; try assumption;
      destruct (negb (status =? 200)); try assumption.
    destruct (field_is st "complete"); [destruct success; assumption|].
    destruct (field_is st "failed"); assumption. }
  unfold DatalabService.extract_text_from_image, DatalabService._submit_image.
  destruct post as [| |status [| |st success request_id]];
    try (split; [reflexivity|now right]).
  all: destruct (negb (status =? 200)) eqn:S200;
    try (split; [reflexivity|now right]).
  destruct success; [|split; [reflexivity|now right]].
  destruct request_id as [| |[|c id]]; try (split; [reflexivity|now right]).
  cbn [negb]. apply negb_false_iff, Z.eqb_eq in S200. subst status.
  unfold DatalabService._poll_for_result.
  pose proof (P 0%nat config.MAX_POLLS []) as Hp.
  destruct (DatalabService.poll_loop get 0 config.MAX_POLLS []) as [[r|] ev];
    cbn [snd] in *; (split; [cbn [app posts]; now rewrite Hp|left; eauto]).
Qed.

Lemma poll_loop_terminal (get : nat -> HttpResult) (k : nat) :
  (k < config.MAX_POLLS)%nat ->
  (forall j, (j < k)%nat -> DatalabService.is_transient (get j) = true) ->
  DatalabService._poll_for_result get
  = DatalabService.poll_loop get k (S (config.MAX_POLLS - S k)) (retry_rounds k).
Proof.
  intros Hk H. unfold DatalabService._poll_for_result.
  replace config.MAX_POLLS with (k + S (config.MAX_POLLS - S k))%nat at 1 by lia.
  rewrite poll_loop_retries by (intros j Hj; apply H; lia).
  reflexivity.
Qed.

(** X8.  After [k < 300] transient responses the next response decides:
    [complete] with a true [success] gives the [markdown] text (the empty
    text when the field is missing), [complete] without success and [failed]
    give [None]; in each case [k + 1] GETs and [k] sleeps were made. *)
Theorem first_terminal_response_decides (get : nat -> HttpResult) (k : nat) :
  (k < 300)%nat ->
  (forall j, (j < k)%nat -> DatalabService.is_transient (get j) = true) ->
  (forall s, get k = Response 200 (JsonObject (JStr (py "complete")) true (JStr s)) ->
     DatalabService._poll_for_result get
     = (Returned (Some s), retry_rounds k ++ [HttpGet]))
  /\ (get k = Response 200 (JsonObject (JStr (py "complete")) true JAbsent) ->
      DatalabService._poll_for_result get
      = (Returned (Some []), retry_rounds k ++ [HttpGet]))
  /\ (forall m, get k = Response 200 (JsonObject (JStr (py "complete")) false m) ->
      DatalabService._poll_for_result get
      = (Returned None, retry_rounds k ++ [HttpGet]))
  /\ (forall success m,
        get k = Response 200 (JsonObject (JStr (py "failed")) success m) ->
        DatalabService._poll_for_result get
        = (Returned None, retry_rounds k ++ [HttpGet])).
Proof.
  intros Hk H. rewrite (poll_loop_terminal get k Hk H).
  cbn [DatalabService.poll_loop].
  repeat split; intros; rewrite H0; reflexivity.
Qed.

Lemma gets_app (a c : list HttpEvent) : gets (a ++ c) = (gets a + gets c)%nat.
Proof.
  induction a as [|x a IH]; [reflexivity|].
  destruct x; cbn [app gets]; rewrite IH; reflexivity.
Qed.

Lemma slept_app (a c : list HttpEvent) : slept (a ++ c) = slept a + slept c.
Proof.
  induction a as [|x a IH]; [reflexivity|].
  destruct x; cbn [app slept]; rewrite IH; lia.
Qed.

Lemma poll_loop_bounded (get : nat -> HttpResult) (remaining : nat) :
  forall i done,
    exists new,
      snd (DatalabService.poll_loop get i remaining done) = done ++ new
      /\ (gets new <= remaining)%nat
      /\ 0 <= slept new <= config.POLLING_INTERVAL * Z.of_nat (gets new).
Proof.
  induction remaining as [|remaining IH]; intros i done.
  - exists []. cbn. rewrite app_nil_r. repeat split; lia.
  - cbn [DatalabService.poll_loop].
    assert (Stop : exists new, done ++ [HttpGet] = done ++ new
                   /\ (gets new <= S remaining)%nat
                   /\ 0 <= slept new <= config.POLLING_INTERVAL * Z.of_nat (gets new)).
    { exists [HttpGet]. cbn. unfold config.POLLING_INTERVAL. repeat split; lia. }
    assert (Go : exists new,
                   snd (DatalabService.poll_loop get (S i) remaining
                          ((done ++ [HttpGet]) ++ [Sleep config.POLLING_INTERVAL]))
                   = done ++ new
                   /\ (gets new <= S remaining)%nat
                   /\ 0 <= slept new <= config.POLLING_INTERVAL * Z.of_nat (gets new)).
    { destruct (IH (S i) ((done ++ [HttpGet]) ++ [Sleep config.POLLING_INTERVAL]))
        as (new & E & G & Sl).
      exists (HttpGet :: Sleep config.POLLING_INTERVAL :: new).
      rewrite E, <- !app_assoc. cbn [app gets slept].
      unfold config.POLLING_INTERVAL in *. repeat split; lia. }
    destruct (get i) as [| |status [| |st success markdown]]; try assumption;
      destruct (negb (status =? 200)); try assumption.
    destruct (field_is st "complete"); [destruct success; assumption|].
    destruct (field_is st "failed"); assumption.
Qed.

(** X9.  Whatever the server answers, one call of the client makes at most
    300 GETs and sleeps at most 600 seconds in all. *)
Theorem client_gives_up (post : HttpResult) (get : nat -> HttpResult) :
  (gets (snd (DatalabService.extract_text_from_image post get)) <= 300)%nat
  /\ 0 <= slept (snd (DatalabService.extract_text_from_image post get)) <= 600.
Proof.
  unfold DatalabService.extract_text_from_image.
  destruct (DatalabService._submit_image post) as [[[[|c id]|]|] ev] eqn:E.
  1, 3, 4: assert (ev = [HttpPost])
    by (unfold DatalabService._submit_image in E;
        repeat match type of E with
               | context [match ?x with _ => _ end] => destruct x
               | context [if ?x then _ else _] => destruct x
               end; congruence);
    subst ev; cbn; split; lia.
  assert (ev = [HttpPost])
    by (unfold DatalabService._submit_image in E;
        repeat match type of E with
               | context [match ?x with _ => _ end] => destruct x
               | context [if ?x then _ else _] => destruct x
               end; congruence).
  subst ev. unfold DatalabService._poll_for_result.
  destruct (poll_loop_bounded get config.MAX_POLLS 0%nat []) as (new & En & G & Sl).
  destruct (DatalabService.poll_loop get 0 config.MAX_POLLS []) as [[r|] ev'];
    cbn [snd app] in *; subst ev'; cbn [gets slept];
    unfold config.MAX_POLLS, config.POLLING_INTERVAL in *; split; lia.
Qed.

Ltac switch_cases env :=
  destruct (OCRService.DATALAB_API_KEY env) as [[|? ?]|];
  destruct (OCRService.new_DatalabService env) as [?|];
  destruct (OCRService.new_PaddleOCRService env (OCRService.PADDLE_OCR_LANG env))
    as [?|].

Ltac switch_simpl :=
  assert (E1 : str_eqb (py "datalab") (py "paddle") = false) by reflexivity;
  assert (E2 : str_eqb (py "paddle") (py "datalab") = false) by reflexivity;
  pose proof kinds_differ as KD;
  rewrite ?str_eqb_refl, ?E1, ?E2;
  cbn [negb andb orb OCRService.is_some fst snd OCRService.provider
         OCRService.datalab_service OCRService.paddle_service] in *;
  rewrite ?str_eqb_refl, ?E1, ?E2.

(** A switch that reports success leaves the requested kind selected with
    its backend object present. *)
Lemma switch_ok_active (env : OCRService.Env) (self : OCRService.t) (target : str) :
  fst (snd (OCRService._switch_provider env self target)) = true ->
  OCRService.known_provider (lower target)
  /\ already_active (fst (OCRService._switch_provider env self target)) (lower target).
Proof.
  unfold OCRService._switch_provider, already_active.
  set (kind := lower target). clearbody kind.
  destruct self as [prov ds ps].
  cbn [OCRService.provider OCRService.datalab_service OCRService.paddle_service].
  destruct (str_eqb kind (py "datalab")) eqn:Ed;
    [apply str_eqb_eq in Ed; subst kind
    |destruct (str_eqb kind (py "paddle")) eqn:Ep;
       [apply str_eqb_eq in Ep; subst kind|]].
  3: { cbn [orb negb fst snd]. discriminate. }
  all: destruct (str_eqb _ prov) eqn:Es;
    [apply str_eqb_eq in Es; subst prov|].
  all: destruct ds as [d|]; destruct ps as [p|]; switch_cases env.
  all: switch_simpl.
  all: intros H; try discriminate H.
  all: split; [(now left) || (now right)|].
  all: split; [reflexivity|].
  all: try (left; split; [reflexivity|discriminate]).
  all: right; split; [reflexivity|discriminate].
Qed.

Lemma switch_short_circuit (env : OCRService.Env) (self : OCRService.t) (target : str) :
  OCRService.known_provider (lower target) ->
  already_active self (lower target) ->
  OCRService._switch_provider env self target
  = (self, (true, OCRService.AlreadySet (lower target))).
Proof.
  unfold OCRService._switch_provider, already_active.
  set (kind := lower target). clearbody kind.
  intros K [Ep A]. subst kind.
  apply known_provider_eqb in K. rewrite K. cbn [negb].
  rewrite str_eqb_refl. cbn [andb].
  destruct A as [[Ek Hp]|[Ek Hd]]; rewrite Ek in *.
  - rewrite str_eqb_refl.
    destruct (OCRService.paddle_service self); [reflexivity|congruence].
  - rewrite str_eqb_refl.
    destruct (OCRService.datalab_service self);
      [now rewrite orb_true_r|congruence].
Qed.

(** X10.  Asking again for a provider that was just switched to with success
    changes nothing and constructs nothing: the second call answers "already
    set", whatever the constructors would do by then. *)
Theorem switch_again_is_noop (env env' : OCRService.Env) (self : OCRService.t)
    (target : str) :
  fst (snd (OCRService._switch_provider env self target)) = true ->
  OCRService._switch_provider env'
    (fst (OCRService._switch_provider env self target)) target
  = (fst (OCRService._switch_provider env self target),
     (true, OCRService.AlreadySet (lower target))).
Proof.
  intros H. destruct (switch_ok_active env self target H) as [K A].
  now apply switch_short_circuit.
Qed.

Lemma switch_consistent (env : OCRService.Env) (self : OCRService.t) (target : str) :
  consistent self ->
  consistent (fst (OCRService._switch_provider env self target)).
Proof.
  unfold OCRService._switch_provider, consistent.
  set (kind := lower target). clearbody kind.
  destruct self as [prov ds ps].
  cbn [OCRService.provider OCRService.datalab_service OCRService.paddle_service].
  intros (Hk & Hp & Hd).
  assert (Kd : OCRService.known_provider (py "datalab")) by now left.
  assert (Kp : OCRService.known_provider (py "paddle")) by now right.
  destruct (str_eqb kind (py "datalab")) eqn:Ed;
    [apply str_eqb_eq in Ed; subst kind
    |destruct (str_eqb kind (py "paddle")) eqn:Ep;
       [apply str_eqb_eq in Ep; subst kind|]].
  3: { cbn [orb negb fst snd OCRService.provider OCRService.datalab_service
              OCRService.paddle_service]. now repeat split. }
  all: destruct Hk as [-> | ->].
  all: destruct ds as [d|]; destruct ps as [p|]; switch_cases env.
  all: switch_simpl.
  all: solve [intuition congruence].
Qed.

(** X11.  Starting from [__init__] with one of the two provider names and
    after any series of [set_provider] calls, successful or not, the selected
    provider is one of the two kinds and a backend object is held for no other
    kind than the selected one (so at most one backend is held). *)
Theorem selector_stays_consistent (env0 : OCRService.Env) (OCR_PROVIDER : str)
    (requests : list (OCRService.Env * str)) :
  OCRService.known_provider OCR_PROVIDER ->
  consistent (switch_all (fst (OCRService.__init__ env0 OCR_PROVIDER)) requests).
Proof.
  intros K.
  assert (I : consistent (fst (OCRService.__init__ env0 OCR_PROVIDER))).
  { unfold OCRService.__init__.
    pose proof (switch_consistent env0
                  {| OCRService.provider := OCR_PROVIDER;
                     OCRService.datalab_service := None;
                     OCRService.paddle_service := None |} OCR_PROVIDER) as C.
    cbn [OCRService.provider] in *.
    destruct (OCRService._switch_provider _ _ _) as [s [ok msg]]. cbn [fst] in *.
    apply C. unfold consistent. cbn. repeat split; [exact K|congruence|congruence]. }
  unfold switch_all. revert I.
  generalize (fst (OCRService.__init__ env0 OCR_PROVIDER)) as self.
  induction requests as [|[env target] requests IH]; intros self I; [exact I|].
  cbn [fold_left fst snd]. apply IH. unfold OCRService.set_provider.
  now apply switch_consistent.
Qed.

Lemma keep_text_nonempty (page : list str) :
  forall lines,
    Forall (fun l => l <> []) lines ->
    Forall (fun l => l <> []) (fold_left PaddleOCRService.keep_text page lines).
Proof.
  induction page as [|t page IH]; intros lines H; [exact H|].
  cbn [fold_left]. apply IH. unfold PaddleOCRService.keep_text.
  destruct (truthy t) eqn:T; [|exact H].
  apply Forall_app. split; [exact H|]. constructor; [|constructor].
  now apply truthy_true.
Qed.

Lemma join_nonempty (sep : str) (ls : list str) :
  ls <> [] -> Forall (fun l => l <> []) ls -> join sep ls <> [].
Proof.
  destruct ls as [|l ls]; [congruence|]. intros _ H.
  inversion H as [|? ? Hl _]; subst.
  destruct l as [|c l]; [congruence|].
  cbn [join]. destruct ls; discriminate.
Qed.

(** X12.  The local engine refuses a PDF without looking at it, turns an
    exception of the engine into [None], and never returns the empty text: its
    result is [None] or a text with at least one code point. *)
Theorem paddle_extract_edges (engine : bytes -> Outcome (list (list str)))
    (image_bytes : bytes) :
  PaddleOCRService.extract_text_from_image engine image_bytes true = (None, [])
  /\ (engine image_bytes = Raised ->
      PaddleOCRService.extract_text_from_image engine image_bytes false
      = (None, [image_bytes]))
  /\ fst (PaddleOCRService.extract_text_from_image engine image_bytes false)
     <> Some [].
Proof.
  split; [reflexivity|]. split.
  - intros H. unfold PaddleOCRService.extract_text_from_image,
      PaddleOCRService._extract_sync. now rewrite H.
  - unfold PaddleOCRService.extract_text_from_image, PaddleOCRService._extract_sync.
    destruct (engine image_bytes) as [ocr_result|]; [|discriminate].
    assert (F : forall pages lines,
               Forall (fun l => l <> []) lines ->
               Forall (fun l => l <> [])
                 (fold_left (fun lines page =>
                               fold_left PaddleOCRService.keep_text page lines)
                            pages lines)).
    { induction pages as [|pg pages IH]; intros lines H; [exact H|].
      cbn [fold_left]. apply IH. now apply keep_text_nonempty. }
    specialize (F ocr_result [] (List.Forall_nil _)).
    destruct (fold_left _ ocr_result []) as [|l ls] eqn:E; [discriminate|].
    cbn [fst]. intros H. injection H as H.
    now apply (join_nonempty [nl] (l :: ls)) in H.
Qed.

(** X13.  Once a switch to the local engine has succeeded, [extract_text]
    never touches the network: an image goes to the engine once, and a PDF is
    refused with no call at all. *)
Theorem local_engine_stays_local (env : OCRService.Env) (self : OCRService.t)
    (target : str) (engine : bytes -> Outcome (list (list str)))
    (post : HttpResult) (get : nat -> HttpResult) (image_bytes : bytes) :
  fst (snd (OCRService._switch_provider env self target)) = true ->
  lower target = py "paddle" ->
  let self' := fst (OCRService._switch_provider env self target) in
  OCRService.extract_text engine post get self' image_bytes true
  = (None, {| OCRService.engine_runs := []; OCRService.http_events := [] |})
  /\ OCRService.http_events
       (snd (OCRService.extract_text engine post get self' image_bytes false)) = []
  /\ OCRService.engine_runs
       (snd (OCRService.extract_text engine post get self' image_bytes false))
     = [image_bytes].
Proof.
  intros H Hk. cbv zeta.
  destruct (switch_ok_active env self target H) as [_ [Ep A]].
  rewrite Hk in *. unfold OCRService.extract_text.
  rewrite <- Ep, str_eqb_refl.
  destruct A as [[_ Hp]|[Hd _]]; [|symmetry in Hd; now apply kinds_differ in Hd].
  destruct (OCRService.paddle_service _); [|congruence].
  unfold PaddleOCRService.extract_text_from_image.
  destruct (PaddleOCRService._extract_sync engine image_bytes); now repeat split.
Qed.

(* ===================================================================== *)
(** ** Properties of the image type detection *)
(* ===================================================================== *)

Lemma bytes_eqb_eq (a c : bytes) : imghdr.bytes_eqb a c = true -> a = c.
Proof.
  revert c; induction a as [|x a IH]; intros [|y c] H; try discriminate H;
    [reflexivity|].
  simpl in H. apply andb_prop in H as [Hx Hac].
  apply Byte.byte_dec_bl in Hx. apply IH in Hac. congruence.
Qed.

Lemma firstn_slice (n : nat) (h : bytes) : imghdr.slice 0 n h = firstn n h.
Proof. unfold imghdr.slice. now rewrite Nat.sub_0_r. Qed.

(** A test on a prefix of two or more bytes fixes the first two bytes. *)
Lemma prefix_sig (n : nat) (lit h : bytes) :
  (2 <= n)%nat ->
  imghdr.bytes_eqb (imghdr.slice 0 n h) lit = true ->
  firstn 2 h = firstn 2 lit.
Proof.
  intros Hn H. apply bytes_eqb_eq in H. rewrite firstn_slice in H.
  rewrite <- H, firstn_firstn. now replace (Nat.min 2 n) with 2%nat by lia.
Qed.

Lemma sig_jpeg h : imghdr._test_jpeg h = true -> firstn 2 h = [Byte.xff; Byte.xd8].
Proof. intros H. apply (prefix_sig 3) in H; [exact H|lia]. Qed.

Lemma sig_png h : imghdr._test_png h = true -> firstn 2 h = [Byte.x89; Byte.x50].
Proof. intros H. apply (prefix_sig 8) in H; [exact H|lia]. Qed.

Lemma sig_gif h : imghdr._test_gif h = true -> firstn 2 h = imghdr.b "GI".
Proof.
  intros H. apply orb_prop in H as [H|H]; apply (prefix_sig 6) in H;
    (exact H || lia).
Qed.

Lemma sig_webp h : imghdr._test_webp h = true -> firstn 2 h = imghdr.b "RI".
Proof.
  intros H. apply andb_prop in H as [H _]. apply andb_prop in H as [_ H].
  apply (prefix_sig 4) in H; [exact H|lia].
Qed.

Lemma sig_bmp h : imghdr._test_bmp h = true -> firstn 2 h = imghdr.b "BM".
Proof. intros H. apply (prefix_sig 2) in H; [exact H|lia]. Qed.

Lemma sig_tiff h :
  imghdr._test_tiff h = true ->
  firstn 2 h = imghdr.b "MM" \/ firstn 2 h = imghdr.b "II".
Proof.
  intros H. apply orb_prop in H as [H|H]; apply (prefix_sig 4) in H;
    ((now left) || (now right) || lia).
Qed.

Lemma sig_rast h : imghdr._test_rast h = true -> firstn 2 h = [Byte.x59; Byte.xa6].
Proof. intros H. apply (prefix_sig 4) in H; [exact H|lia]. Qed.

Lemma sig_sgi h : imghdr._test_sgi h = true -> firstn 2 h = [Byte.x01; Byte.xda].
Proof. intros H. apply (prefix_sig 2) in H; [exact H|lia]. Qed.

Lemma sig_pbm h : imghdr._test_pbm h = true -> firstn 2 h = imghdr.b "P1".
Proof. intros H. apply (prefix_sig 2) in H; [exact H|lia]. Qed.

Lemma sig_pgm h : imghdr._test_pgm h = true -> firstn 2 h = imghdr.b "P2".
Proof. intros H. apply (prefix_sig 2) in H; [exact H|lia]. Qed.

Lemma sig_ppm h : imghdr._test_ppm h = true -> firstn 2 h = imghdr.b "P3".
Proof. intros H. apply (prefix_sig 2) in H; [exact H|lia]. Qed.

Lemma sig_pam h : imghdr._test_pam h = true -> firstn 2 h = imghdr.b "P7".
Proof. intros H. apply (prefix_sig 2) in H; [exact H|lia]. Qed.

Lemma sig_pnm h :
  imghdr._test_pnm h = true ->
  firstn 2 h = imghdr.b "P5" \/ firstn 2 h = imghdr.b "P6".
Proof.
  intros H. apply orb_prop in H as [H|H]; apply (prefix_sig 2) in H;
    ((now left) || (now right) || lia).
Qed.

Lemma sig_exr h : imghdr._test_exr h = true -> firstn 2 h = [Byte.x76; Byte.x2f].
Proof. intros H. apply (prefix_sig 4) in H; [exact H|lia]. Qed.

Lemma sig_blf h : imghdr._test_blf h = true -> firstn 2 h = imghdr.b "BL".
Proof. intros H. apply (prefix_sig 7) in H; [exact H|lia]. Qed.

(** Replaces a passed test by what it says about the first two bytes. *)
Ltac signature H :=
  lazymatch type of H with
  | imghdr._test_jpeg _ = true => apply sig_jpeg in H
  | imghdr._test_png _ = true => apply sig_png in H
  | imghdr._test_gif _ = true => apply sig_gif in H
  | imghdr._test_webp _ = true => apply sig_webp in H
  | imghdr._test_bmp _ = true => apply sig_bmp in H
  | imghdr._test_tiff _ = true => apply sig_tiff in H
  | imghdr._test_rast _ = true => apply sig_rast in H
  | imghdr._test_sgi _ = true => apply sig_sgi in H
  | imghdr._test_pbm _ = true => apply sig_pbm in H
  | imghdr._test_pgm _ = true => apply sig_pgm in H
  | imghdr._test_ppm _ = true => apply sig_ppm in H
  | imghdr._test_pam _ = true => apply sig_pam in H
  | imghdr._test_pnm _ = true => apply sig_pnm in H
  | imghdr._test_exr _ = true => apply sig_exr in H
  | imghdr._test_blf _ = true => apply sig_blf in H
  end.

(** The names of [_tests] differ and no two tests pass on the same bytes. *)
Lemma tests_exclusive (h : bytes) :
  ForallOrdPairs
    (fun a c => fst a <> fst c /\ ~ (snd a h = true /\ snd c h = true))
    imghdr._tests.
Proof.
  unfold imghdr._tests.
  repeat (constructor; [repeat (constructor; [split|])|]); try constructor.
  all: cbn [fst snd]; try discriminate.
  all: intros [Ha Hc]; signature Ha; signature Hc.
  all: repeat match goal with H : _ \/ _ |- _ => destruct H end.
  all: match goal with
       | H1 : firstn 2 ?x = _, H2 : firstn 2 ?x = _ |- _ =>
           rewrite H1 in H2; discriminate H2
       end.
Qed.

Lemma first_match_In (tests : list (string * (bytes -> bool))) (h : bytes)
    (name : string) :
  imghdr.first_match tests h = Some name ->
  exists test, In (name, test) tests /\ test h = true.
Proof.
  induction tests as [|[n t] tests IH]; intros H; [discriminate H|].
  cbn [imghdr.first_match] in H. destruct (t h) eqn:E.
  - injection H as <-. exists t. split; [now left|exact E].
  - destruct (IH H) as (test & Hin & Ht). exists test. split; [now right|exact Ht].
Qed.

Lemma first_match_spec (tests : list (string * (bytes -> bool))) (h : bytes) :
  ForallOrdPairs
    (fun a c => fst a <> fst c /\ ~ (snd a h = true /\ snd c h = true)) tests ->
  forall name test,
    In (name, test) tests ->
    (imghdr.first_match tests h = Some name <-> test h = true).
Proof.
  induction 1 as [|[n0 t0] tests Hhd _ IH]; intros name test Hin; [destruct Hin|].
  rewrite List.Forall_forall in Hhd. cbn [imghdr.first_match].
  destruct Hin as [Heq|Hin].
  - injection Heq as -> ->. destruct (test h) eqn:E; [tauto|].
    split; [|discriminate]. intros H.
    apply first_match_In in H as (t & Hin & _).
    destruct (Hhd _ Hin) as [Hn _]. now cbn in Hn.
  - destruct (Hhd _ Hin) as [Hn Hx]. cbn [fst snd] in *.
    destruct (t0 h) eqn:E.
    + split; [intros H; injection H as <-; congruence|].
      intros Ht. exfalso. now apply Hx.
    + now apply IH.
Qed.

(** X14.  The order of [_tests] does not matter: a buffer is reported as a
    given type exactly when the test of that type passes on it. *)
Theorem what_detects (file : imghdr.File) (h : bytes) (name : string)
    (test : bytes -> bool) :
  In (name, test) imghdr._tests ->
  (fst (imghdr.what file (Some h)) = Some name <-> test h = true).
Proof.
  intros Hin. cbn [imghdr.what fst].
  now apply first_match_spec; [apply tests_exclusive|].
Qed.

Lemma slice_firstn (i j n : nat) (c : bytes) :
  (j <= n)%nat -> imghdr.slice i j (firstn n c) = imghdr.slice i j c.
Proof.
  intros H. unfold imghdr.slice.
  rewrite skipn_firstn_comm, firstn_firstn. f_equal. lia.
Qed.

Lemma first_match_ext (tests : list (string * (bytes -> bool))) (h1 h2 : bytes) :
  Forall (fun t => snd t h1 = snd t h2) tests ->
  imghdr.first_match tests h1 = imghdr.first_match tests h2.
Proof.
  induction 1 as [|[n t] tests Ht _ IH]; [reflexivity|].
  cbn [imghdr.first_match snd] in *. now rewrite Ht, IH.
Qed.

(** No test looks past the first 32 bytes. *)
Lemma tests_read_32 (c : bytes) :
  Forall (fun t => snd t (firstn 32 c) = snd t c) imghdr._tests.
Proof.
  assert (L : (12 <=? length (firstn 32 c))%nat = (12 <=? length c)%nat).
  { rewrite length_firstn.
    destruct (12 <=? length c)%nat eqn:E.
    - apply Nat.leb_le in E. apply Nat.leb_le. lia.
    - apply Nat.leb_gt in E. apply Nat.leb_gt. lia. }
  unfold imghdr._tests. repeat constructor; cbn [snd].
  all: unfold imghdr._test_jpeg, imghdr._test_png, imghdr._test_gif,
         imghdr._test_webp, imghdr._test_bmp, imghdr._test_tiff,
         imghdr._test_rast, imghdr._test_sgi, imghdr._test_pbm,
         imghdr._test_pgm, imghdr._test_ppm, imghdr._test_pam,
         imghdr._test_pnm, imghdr._test_exr, imghdr._test_blf.
  all: rewrite ?L, ?slice_firstn by lia; reflexivity.
Qed.

Lemma passed_test_two_bytes (h : bytes) (name : string) (test : bytes -> bool) :
  In (name, test) imghdr._tests -> test h = true -> (2 <= length h)%nat.
Proof.
  intros Hin Ht.
  assert (S2 : exists x y, firstn 2 h = [x; y]).
  { unfold imghdr._tests in Hin. cbn [In] in Hin.
    repeat (destruct Hin as [Hin|Hin];
            [injection Hin as <- <-; signature Ht;
             repeat match goal with H : _ \/ _ |- _ => destruct H end;
             match goal with
             | H : firstn 2 _ = _ |- _ => cbn in H; do 2 eexists; exact H
             end|]).
    destruct Hin. }
  destruct S2 as (x & y & E). apply (f_equal (@length _)) in E.
  rewrite length_firstn in E. cbn [length] in E. lia.
Qed.

(** X15.  Reading a file gives the type of its whole content although only
    32 bytes are read; a stream is examined from its current position and
    left there; and nothing shorter than two bytes has a type. *)
Theorem what_reads_enough (content : bytes) (pos : nat) :
  fst (imghdr.what (imghdr.Path content) None)
  = fst (imghdr.what (imghdr.Path content) (Some content))
  /\ imghdr.what (imghdr.Stream content pos) None
     = (fst (imghdr.what (imghdr.Path (skipn pos content)) None),
        imghdr.Stream content pos)
  /\ ((length content < 2)%nat ->
      fst (imghdr.what (imghdr.Path content) None) = None).
Proof.
  cbn [imghdr.what fst]. split; [|split; [reflexivity|]].
  - apply first_match_ext, tests_read_32.
  - intros Hlen.
    destruct (imghdr.first_match imghdr._tests (firstn 32 content)) as [name|] eqn:E;
      [|reflexivity].
    apply first_match_In in E as (test & Hin & Ht).
    apply (passed_test_two_bytes _ _ _ Hin) in Ht.
    rewrite length_firstn in Ht. lia.
Qed.

(* ===================================================================== *)
(** ** Further properties of the handlers *)
(* ===================================================================== *)

Lemma only_session_refl (key : Z) (w : World) : only_session key w w.
Proof. repeat split. exists []. now rewrite app_nil_r. Qed.

Lemma only_session_trans (key : Z) (w1 w2 w3 : World) :
  only_session key w1 w2 -> only_session key w2 w3 -> only_session key w1 w3.
Proof.
  intros (B1 & S1 & n1 & T1) (B2 & S2 & n2 & T2). split; [congruence|]. split.
  - intros k Hk. now rewrite S2, S1.
  - exists (n1 ++ n2). now rewrite T2, T1, app_assoc.
Qed.

Lemma framed_ret {A} (key : Z) (a : A) : framed key (mret a).
Proof. intros env w. apply only_session_refl. Qed.

Lemma framed_raise {A} (key : Z) : framed key (@raise A).
Proof. intros env w. apply only_session_refl. Qed.

Lemma framed_bind {A B} (key : Z) (m : M A) (f : A -> M B) :
  framed key m -> (forall a, framed key (f a)) -> framed key (m ≫= f).
Proof.
  intros Hm Hf env w. unfold mbind, M_bind.
  specialize (Hm env w). destruct (m env w) as [[a|] w']; cbn [snd] in *.
  - eapply only_session_trans; [exact Hm|apply Hf].
  - exact Hm.
Qed.

Lemma framed_attempt {A} (key : Z) (m : M A) :
  framed key m -> framed key (attempt m).
Proof.
  intros Hm env w. unfold attempt. specialize (Hm env w).
  now destruct (m env w) as [[a|] w'].
Qed.

Lemma framed_try_except (key : Z) (m h : M unit) :
  framed key m -> framed key h -> framed key (try_except m h).
Proof.
  intros Hm Hh. unfold try_except. apply framed_bind; [now apply framed_attempt|].
  intros [u|]; [apply framed_ret|exact Hh].
Qed.

Lemma framed_emit (key : Z) (e : Effect) : framed key (emit e).
Proof. intros env w. repeat split. now exists [e]. Qed.

Lemma framed_transport (key : Z) (e : Effect) : framed key (transport e).
Proof.
  intros env w. unfold transport.
  destruct (transport_raises env (calls w)); repeat split; now exists [e].
Qed.

Lemma framed_ask (key : Z) : framed key ask.
Proof. intros env w. apply only_session_refl. Qed.

Lemma framed_modify_context (key : Z) (f : FSMContext -> FSMContext) :
  framed key (modify_context key f).
Proof.
  intros env w. unfold modify_context, only_session. cbn [snd storage
    user_backgrounds trace].
  split; [reflexivity|]. split.
  - intros k Hk. now rewrite lookup_insert_ne.
  - exists []. now rewrite app_nil_r.
Qed.

Lemma framed_get_state (key : Z) : framed key (get_state key).
Proof. intros env w. apply only_session_refl. Qed.

Lemma framed_get_data (key : Z) : framed key (get_data key).
Proof. intros env w. apply only_session_refl. Qed.

Lemma framed_backgrounds_get (key uid : Z) : framed key (backgrounds_get uid).
Proof. intros env w. apply only_session_refl. Qed.

Lemma framed_emit_all (key : Z) (evs : list Effect) : framed key (emit_all evs).
Proof.
  induction evs as [|e evs IH]; [apply framed_ret|].
  cbn [emit_all]. apply framed_bind; [apply framed_emit|now intros _].
Qed.

(** Proves that a handler stays within its session, following its shape. *)
Ltac frame :=
  repeat first
    [ apply framed_ret | apply framed_raise | apply framed_transport
    | apply framed_emit | apply framed_emit_all | apply framed_ask
    | apply framed_get_state | apply framed_get_data
    | apply framed_backgrounds_get | apply framed_modify_context
    | apply framed_bind; [|intros ?]
    | apply framed_attempt | apply framed_try_except
    | match goal with
      | |- framed _ (match ?x with _ => _ end) => destruct x
      end ].

Lemma framed_show_text_for_confirmation (key : Z) (t : str) :
  framed key (show_text_for_confirmation key t).
Proof. unfold show_text_for_confirmation, update_data, set_state. frame. Qed.

Lemma framed_process_image (key : Z) (image_bytes : bytes) (message : Message) :
  framed key (process_image key image_bytes message).
Proof.
  unfold process_image, ocr_extract. frame.
  all: apply framed_show_text_for_confirmation.
Qed.

Lemma framed_process_pdf (key : Z) (pdf_bytes : bytes) (filename : Filename) :
  framed key (process_pdf key pdf_bytes filename).
Proof.
  unfold process_pdf, ocr_extract. frame.
  all: apply framed_show_text_for_confirmation.
Qed.

Lemma framed_report_failure (key : Z) (sent : bool) (notice : Notice) :
  framed key (report_failure key sent notice).
Proof. unfold report_failure, clear. frame. Qed.

Lemma framed_create_image_from_text (key : Z) (t : str) (message : Message) :
  framed key (create_image_from_text t message).
Proof. unfold create_image_from_text, render. frame. Qed.

Lemma framed_callback_handlers :
  Forall (fun h => forall key cb, framed key (snd h key cb)) callback_query_handlers.
Proof.
  unfold callback_query_handlers.
  repeat (apply List.Forall_cons; [cbn [snd]; intros key cb|]);
    [| | | |apply List.Forall_nil].
  - unfold confirm_text_handler, clear. frame.
    all: apply framed_create_image_from_text.
  - unfold edit_text_handler, clear, set_state. frame.
  - unfold back_to_confirmation_handler, set_state. frame.
  - unfold cancel_text_handler, clear. frame.
Qed.

(** X16.  A message handler run for one user changes nothing of the other
    users' FSM records and nothing of the background store, and only appends
    to what was sent before; this holds for uploads, edited text, the [/back]
    command and the reminder to send an image, whatever the transport and the
    OCR service do. *)
Theorem message_handlers_keep_to_their_session (key : Z) (message : Message)
    (env : Env) (w : World) :
  only_session key w (snd (handle_photo key message env w))
  /\ only_session key w (snd (handle_document key message env w))
  /\ only_session key w (snd (process_edited_text key message env w))
  /\ only_session key w (snd (cmd_back key env w))
  /\ only_session key w (snd (handle_background_invalid env w)).
Proof.
  split; [|split; [|split; [|split]]].
  - revert env w. change (framed key (handle_photo key message)).
    unfold handle_photo, download. frame.
    all: first [apply framed_report_failure | apply framed_process_image].
  - revert env w. change (framed key (handle_document key message)).
    unfold handle_document, download. frame.
    all: first [apply framed_report_failure | apply framed_process_image
               | apply framed_process_pdf].
  - revert env w. change (framed key (process_edited_text key message)).
    unfold process_edited_text, update_data, set_state. frame.
  - revert env w. change (framed key (cmd_back key)).
    unfold cmd_back, set_state. frame.
  - revert env w. change (framed key handle_background_invalid).
    unfold handle_background_invalid. frame.
Qed.

(** X17.  A button click changes nothing of the other users' FSM records and
    nothing of the background store, whichever handler takes it: stored
    backgrounds survive confirm, edit, back and cancel. *)
Theorem callbacks_keep_to_their_session (cb : CallbackQuery) (env : Env) (w : World) :
  only_session (cb_from_user cb) w (snd (feed_callback_query cb env w)).
Proof.
  revert env w. change (framed (cb_from_user cb) (feed_callback_query cb)).
  unfold feed_callback_query. apply framed_bind; [apply framed_get_state|].
  intros current_state.
  destruct (List.find _ callback_query_handlers) as [h|] eqn:F; [|apply framed_ret].
  apply find_some in F as [Hin _].
  pose proof framed_callback_handlers as A. rewrite List.Forall_forall in A.
  apply framed_bind; [now apply A|]. intros _. apply framed_ret.
Qed.

(** Runs a handler when the transport never raises. *)
Ltac run_reliable Hrel :=
  repeat (progress
            (cbn beta iota zeta delta [snd fst trace calls storage user_backgrounds];
             rewrite ?Hrel)).

Lemma emit_all_run (evs : list Effect) (env : Env) (w : World) :
  emit_all evs env w
  = (Returned tt,
     {| storage := storage w; user_backgrounds := user_backgrounds w;
        trace := trace w ++ evs; calls := calls w |}).
Proof.
  revert w; induction evs as [|e evs IH]; intros w.
  - cbn. rewrite app_nil_r. now destruct w.
  - cbn [emit_all]. unfold mbind, M_bind, emit. rewrite IH. cbn.
    now rewrite <- app_assoc.
Qed.

Lemma ocr_extract_run (content : bytes) (filename : Filename) (is_pdf : bool)
    (env : Env) (w : World) :
  ocr_extract content filename is_pdf env w
  = (Returned (fst (DatalabService.extract_text_from_image (ocr_post env) (ocr_get env))),
     {| storage := storage w; user_backgrounds := user_backgrounds w;
        trace := trace w ++ OcrExtract content filename is_pdf
                   :: List.map OcrHttp
                        (snd (DatalabService.extract_text_from_image
                                (ocr_post env) (ocr_get env)));
        calls := calls w |}).
Proof.
  unfold ocr_extract. unfold mbind, M_bind, emit, ask, mret, M_ret.
  cbn [snd fst trace calls storage user_backgrounds].
  destruct (DatalabService.extract_text_from_image _ _) as [r evs].
  rewrite emit_all_run. cbn. now rewrite <- app_assoc.
Qed.

(** X18.  A photo of acceptable size sent in an idle session over a working
    transport is downloaded and its bytes are given to the OCR client.  A text
    with a non-whitespace code point is stored whole and shown for
    confirmation; no result, an empty text or an all-whitespace text is
    reported as "no text" and the session stays as it was. *)
Theorem photo_upload_outcome (key : Z) (message : Message) (env : Env) (w : World)
    (ph : PhotoSize) :
  fsm_state (context_of (storage w) key) = None ->
  last (photo message) = Some ph ->
  too_big (photo_file_size ph) config.IMAGE_MAX_SIZE = false ->
  reliable env ->
  let r := DatalabService.extract_text_from_image (ocr_post env) (ocr_get env) in
  let w' := snd (handle_photo key message env w) in
  let sent :=
    [MessageAnswer PhotoReceived; BotGetFile (photo_file_id ph); BotDownloadFile;
     MessageEditText ExtractingFromImage;
     OcrExtract (downloaded env) (PhotoJpg (message_id message)) false]
    ++ List.map OcrHttp (snd r) in
  (forall t, fst r = Some t -> blank t = false ->
     fsm_state (context_of (storage w') key) = Some waiting_for_confirmation
     /\ extracted_text_of (fsm_data (context_of (storage w') key)) = t
     /\ trace w'
        = trace w ++ sent
          ++ [MessageDelete;
              MessageAnswer (ExtractedTextView (fst (display_of t)) (snd (display_of t)))])
  /\ ((fst r = None \/ exists t, fst r = Some t /\ blank t = true) ->
      storage w' = storage w
      /\ trace w' = trace w ++ sent ++ [MessageEditText NoTextInImage]).
Proof.
  intros Hidle Hl Hsmall Hrel. cbv zeta.
  unfold handle_photo, process_image, download, show_text_for_confirmation.
  rewrite Hl, Hsmall. unfold_monad. rewrite Hidle.
  run_reliable Hrel. rewrite ocr_extract_run. run_reliable Hrel.
  destruct (DatalabService.extract_text_from_image _ _) as [r evs]. cbn [fst snd].
  split.
  - intros t -> B. rewrite truthy_strip, B.
    assert (T : truthy t = true) by (destruct t; [discriminate B|reflexivity]).
    rewrite T. cbn [andb negb]. destruct (display_of t) as [d tr] eqn:D.
    run_reliable Hrel.
    rewrite !context_of_insert. cbn [fsm_state fsm_data].
    unfold extracted_text_of. rewrite lookup_insert_eq. cbn [default fst snd].
    repeat split. repeat rewrite <- app_assoc. reflexivity.
  - intros [-> | (t & -> & B)].
    + run_reliable Hrel. split; [reflexivity|].
      repeat rewrite <- app_assoc. reflexivity.
    + rewrite truthy_strip, B, andb_false_r. run_reliable Hrel.
      split; [reflexivity|]. repeat rewrite <- app_assoc. reflexivity.
Qed.

Lemma dispatch_confirm (cb : CallbackQuery) (env : Env) (w : World) :
  data cb = py "confirm_text" ->
  fsm_state (context_of (storage w) (cb_from_user cb)) = Some waiting_for_confirmation ->
  feed_callback_query cb env w
  = (confirm_text_handler (cb_from_user cb) cb;; mret true) env w.
Proof.
  intros Hd Hs. unfold feed_callback_query, get_state.
  unfold mbind at 1. unfold M_bind at 1. rewrite Hs.
  unfold callback_query_handlers. cbn [List.find fst snd].
  now rewrite Hd, str_eqb_refl.
Qed.

Lemma dispatch_edit (cb : CallbackQuery) (env : Env) (w : World) :
  data cb = py "edit_text" ->
  fsm_state (context_of (storage w) (cb_from_user cb)) = Some waiting_for_confirmation ->
  feed_callback_query cb env w
  = (edit_text_handler (cb_from_user cb) cb;; mret true) env w.
Proof.
  intros Hd Hs. unfold feed_callback_query, get_state.
  unfold mbind at 1. unfold M_bind at 1. rewrite Hs.
  unfold callback_query_handlers. cbn [List.find fst snd].
  rewrite Hd, str_eqb_refl.
  now change (str_eqb (py "edit_text") (py "confirm_text")) with false.
Qed.

Lemma dispatch_back (cb : CallbackQuery) (env : Env) (w : World) :
  data cb = py "back_to_confirmation" ->
  fsm_state (context_of (storage w) (cb_from_user cb)) = Some editing_text ->
  feed_callback_query cb env w
  = (back_to_confirmation_handler (cb_from_user cb) cb;; mret true) env w.
Proof.
  intros Hd Hs. unfold feed_callback_query, get_state.
  unfold mbind at 1. unfold M_bind at 1. rewrite Hs.
  unfold callback_query_handlers. cbn [List.find fst snd].
  rewrite Hd, str_eqb_refl.
  change (str_eqb (py "back_to_confirmation") (py "confirm_text")) with false.
  now change (str_eqb (py "back_to_confirmation") (py "edit_text")) with false.
Qed.

Lemma dispatch_cancel (cb : CallbackQuery) (env : Env) (w : World) :
  data cb = py "cancel_text" ->
  feed_callback_query cb env w
  = (cancel_text_handler (cb_from_user cb) cb;; mret true) env w.
Proof.
  intros Hd. unfold feed_callback_query, get_state.
  unfold mbind at 1. unfold M_bind at 1.
  unfold callback_query_handlers. cbn [List.find fst snd].
  rewrite Hd, str_eqb_refl.
  change (str_eqb (py "cancel_text") (py "confirm_text")) with false.
  change (str_eqb (py "cancel_text") (py "edit_text")) with false.
  now change (str_eqb (py "cancel_text") (py "back_to_confirmation")) with false.
Qed.

(** A confirm click taken in [waiting_for_confirmation] over a working
    transport. *)
Lemma confirm_run (cb : CallbackQuery) (env : Env) (w : World) :
  data cb = py "confirm_text" ->
  fsm_state (context_of (storage w) (cb_from_user cb)) = Some waiting_for_confirmation ->
  extracted_text_of (fsm_data (context_of (storage w) (cb_from_user cb))) <> [] ->
  reliable env ->
  let E := extracted_text_of (fsm_data (context_of (storage w) (cb_from_user cb))) in
  let background := user_backgrounds w !! from_user (cb_message cb) in
  let r := feed_callback_query cb env w in
  fst r = Returned true
  /\ storage (snd r) = <[cb_from_user cb := empty_context]> (storage w)
  /\ trace (snd r)
     = trace w
       ++ [MessageDelete; MessageAnswer CreatingImage;
           CreateImageWithText E background]
       ++ match create_image_with_text (pillow env) E background with
          | Some image => [AnswerPhoto image; MessageDelete]
          | None => [MessageEditText ImageCreationError]
          end
       ++ [CallbackAnswer (Some ImageCreated) false].
Proof.
  intros Hd Hs Hne Hrel. cbv zeta. rewrite dispatch_confirm by assumption.
  unfold confirm_text_handler, create_image_from_text, render. unfold_monad.
  apply truthy_true in Hne. rewrite Hne. cbn [negb].
  run_reliable Hrel.
  destruct (create_image_with_text _ _ _); run_reliable Hrel;
    repeat split; repeat rewrite <- app_assoc; reflexivity.
Qed.

(** X19.  A confirm click taken in [waiting_for_confirmation] over a working
    transport renders the stored text once and returns the session to idle,
    with the text discarded; the click is answered "image created" also when
    the layout engine gave no image. *)
Theorem confirm_consumes_session (cb : CallbackQuery) (env : Env) (w : World) :
  data cb = py "confirm_text" ->
  fsm_state (context_of (storage w) (cb_from_user cb)) = Some waiting_for_confirmation ->
  extracted_text_of (fsm_data (context_of (storage w) (cb_from_user cb))) <> [] ->
  reliable env ->
  let E := extracted_text_of (fsm_data (context_of (storage w) (cb_from_user cb))) in
  let background := user_backgrounds w !! from_user (cb_message cb) in
  let r := feed_callback_query cb env w in
  fst r = Returned true
  /\ context_of (storage (snd r)) (cb_from_user cb) = empty_context
  /\ trace (snd r)
     = trace w
       ++ [MessageDelete; MessageAnswer CreatingImage;
           CreateImageWithText E background]
       ++ match create_image_with_text (pillow env) E background with
          | Some image => [AnswerPhoto image; MessageDelete]
          | None => [MessageEditText ImageCreationError]
          end
       ++ [CallbackAnswer (Some ImageCreated) false].
Proof.
  intros Hd Hs Hne Hrel.
  destruct (confirm_run cb env w Hd Hs Hne Hrel) as (R & St & Tr). cbv zeta.
  split; [exact R|]. split; [|exact Tr].
  rewrite St. apply context_of_insert.
Qed.

(** X20.  A cancel click is taken in every state and always empties the
    session, even when no message can be sent. *)
Theorem cancel_always_clears (cb : CallbackQuery) (env : Env) (w : World) :
  data cb = py "cancel_text" ->
  fst (feed_callback_query cb env w) <> Returned false
  /\ storage (snd (feed_callback_query cb env w))
     = <[cb_from_user cb := empty_context]> (storage w).
Proof.
  intros Hd. rewrite dispatch_cancel by assumption.
  unfold cancel_text_handler. unfold_monad. run_handler.
  all: split; [discriminate|reflexivity].
Qed.

(** X21.  Edit, then back: the session is in [editing_text] in between and
    ends exactly as it began, with the same text, whatever happens to the
    messages. *)
Theorem edit_then_back_restores (edit back : CallbackQuery) (env1 env2 : Env)
    (w : World) :
  data edit = py "edit_text" ->
  data back = py "back_to_confirmation" ->
  cb_from_user back = cb_from_user edit ->
  fsm_state (context_of (storage w) (cb_from_user edit)) = Some waiting_for_confirmation ->
  extracted_text_of (fsm_data (context_of (storage w) (cb_from_user edit))) <> [] ->
  let w1 := snd (feed_callback_query edit env1 w) in
  let w2 := snd (feed_callback_query back env2 w1) in
  context_of (storage w1) (cb_from_user edit)
  = {| fsm_state := Some editing_text;
       fsm_data := fsm_data (context_of (storage w) (cb_from_user edit)) |}
  /\ context_of (storage w2) (cb_from_user edit)
     = context_of (storage w) (cb_from_user edit).
Proof.
  intros Hd1 Hd2 Hu Hs Hne. cbv zeta.
  assert (C1 : context_of (storage (snd (feed_callback_query edit env1 w)))
                 (cb_from_user edit)
               = {| fsm_state := Some editing_text;
                    fsm_data := fsm_data (context_of (storage w) (cb_from_user edit)) |}).
  { rewrite dispatch_edit by assumption.
    unfold edit_text_handler. unfold_monad.
    apply truthy_true in Hne. rewrite Hne. cbn [negb].
    destruct (display_of _) as [d tr]. run_handler.
    all: now rewrite context_of_insert. }
  split; [exact C1|].
  rewrite dispatch_back; [|assumption|rewrite Hu, C1; reflexivity].
  unfold back_to_confirmation_handler. unfold_monad. rewrite Hu.
  destruct (display_of _) as [d tr]. run_handler.
  all: rewrite context_of_insert, C1; cbn [fsm_data].
  all: destruct (context_of (storage w) (cb_from_user edit)) as [s dd];
    cbn [fsm_state fsm_data] in *; now rewrite Hs.
Qed.

(** X22.  An edited text that is empty or all whitespace is turned down: the
    user is asked again, and the state and the stored text stay as they
    were. *)
Theorem blank_edit_rejected (key : Z) (message : Message) (env : Env) (w : World)
    (m : str) :
  text message = Some m ->
  blank m = true ->
  storage (snd (process_edited_text key message env w)) = storage w
  /\ trace (snd (process_edited_text key message env w))
     = trace w ++ [MessageAnswer EmptyTextRejected].
Proof.
  intros Ht B. unfold process_edited_text. rewrite Ht, truthy_strip, B.
  cbn [negb]. unfold_monad. run_handler; now split.
Qed.


(** What [handle_background_photo] does with an acceptable photo over a
    working transport. *)
Lemma background_upload_run (key : Z) (message : Message) (env : Env) (w : World)
    (ph : PhotoSize) :
  last (photo message) = Some ph ->
  too_big (photo_file_size ph) config.IMAGE_MAX_SIZE = false ->
  reliable env ->
  user_backgrounds (snd (handle_background_photo key message env w))
  = <[from_user message := downloaded env]> (user_backgrounds w)
  /\ storage (snd (handle_background_photo key message env w))
     = <[key := empty_context]> (storage w)
  /\ trace (snd (handle_background_photo key message env w))
     = trace w ++ [BotGetFile (photo_file_id ph); BotDownloadFile;
                   MessageAnswer BackgroundSaved].
Proof.
  intros Hl Hsmall Hrel. unfold handle_background_photo, download.
  rewrite Hl, Hsmall. unfold_monad. run_reliable Hrel.
  repeat split. repeat rewrite <- app_assoc. reflexivity.
Qed.

(** X24.  A background photo of acceptable size is stored under the sender's
    id and ends the upload state; one that is too big is turned down and
    leaves the store and the state as they were, so the user can send another;
    in no case does the handler touch the background of another user. *)
Theorem background_upload (key : Z) (message : Message) (env : Env) (w : World)
    (ph : PhotoSize) :
  last (photo message) = Some ph ->
  let w' := snd (handle_background_photo key message env w) in
  (forall u, u <> from_user message ->
     user_backgrounds w' !! u = user_backgrounds w !! u)
  /\ (too_big (photo_file_size ph) config.IMAGE_MAX_SIZE = false -> reliable env ->
      user_backgrounds w' !! from_user message = Some (downloaded env)
      /\ context_of (storage w') key = empty_context
      /\ trace w' = trace w ++ [BotGetFile (photo_file_id ph); BotDownloadFile;
                                MessageAnswer BackgroundSaved])
  /\ (too_big (photo_file_size ph) config.IMAGE_MAX_SIZE = true -> reliable env ->
      storage w' = storage w
      /\ user_backgrounds w' = user_backgrounds w
      /\ trace w' = trace w ++ [MessageAnswer (FileTooBig config.IMAGE_MAX_SIZE)]).
Proof.
  intros Hl. cbv zeta. split; [|split].
  - intros u Hu. unfold handle_background_photo, download. rewrite Hl.
    unfold_monad. destruct (too_big _ _); run_handler;
      try reflexivity; now rewrite lookup_insert_ne by congruence.
  - intros Hsmall Hrel.
    destruct (background_upload_run key message env w ph Hl Hsmall Hrel)
      as (B & S & T).
    rewrite B, S, T. split; [apply lookup_insert_eq|].
    split; [apply context_of_insert|reflexivity].
  - intros Hbig Hrel. unfold handle_background_photo. rewrite Hl, Hbig.
    unfold_monad. run_reliable Hrel. now repeat split.
Qed.

(** X25.  A confirm or edit click that finds no text (or an empty one) in a
    session awaiting confirmation is answered with the "text not found"
    alert, renders nothing and, once the alert is delivered, empties the
    session. *)
Theorem click_without_text (cb : CallbackQuery) (env : Env) (w : World) :
  data cb = py "confirm_text" \/ data cb = py "edit_text" ->
  fsm_state (context_of (storage w) (cb_from_user cb)) = Some waiting_for_confirmation ->
  extracted_text_of (fsm_data (context_of (storage w) (cb_from_user cb))) = [] ->
  trace (snd (feed_callback_query cb env w))
  = trace w ++ [CallbackAnswer (Some TextNotFound) true]
  /\ (transport_raises env (calls w) = false ->
      storage (snd (feed_callback_query cb env w))
      = <[cb_from_user cb := empty_context]> (storage w)).
Proof.
  intros [Hd|Hd] Hs He.
  - rewrite dispatch_confirm by assumption.
    unfold confirm_text_handler. unfold_monad. rewrite He. cbn [truthy negb].
    run_handler; (split; [reflexivity|]); intros H; congruence.
  - rewrite dispatch_edit by assumption.
    unfold edit_text_handler. unfold_monad. rewrite He. cbn [truthy negb].
    run_handler; (split; [reflexivity|]); intros H; congruence.
Qed.

Lemma layout_backgrounds_app (a c : list Effect) :
  layout_backgrounds (a ++ c) = layout_backgrounds a ++ layout_backgrounds c.
Proof.
  induction a as [|e a IH]; [reflexivity|].
  destruct e; cbn [app layout_backgrounds]; rewrite IH; reflexivity.
Qed.

(** X26.  On confirm the layout engine gets the background stored under the
    id of the sender of the message that carries the buttons
    ([callback.message.from_user]), not under the id of the user who clicked:
    a background uploaded by a user is used when that sender is the user, and
    otherwise the engine gets whatever was stored for the sender before. *)
Theorem background_used_on_confirm (key : Z) (upload : Message) (env0 : Env)
    (w0 : World) (ph : PhotoSize) (cb : CallbackQuery) (env : Env) (w : World) :
  last (photo upload) = Some ph ->
  too_big (photo_file_size ph) config.IMAGE_MAX_SIZE = false ->
  reliable env0 ->
  user_backgrounds w
  = user_backgrounds (snd (handle_background_photo key upload env0 w0)) ->
  data cb = py "confirm_text" ->
  fsm_state (context_of (storage w) (cb_from_user cb)) = Some waiting_for_confirmation ->
  extracted_text_of (fsm_data (context_of (storage w) (cb_from_user cb))) <> [] ->
  reliable env ->
  layout_backgrounds (trace (snd (feed_callback_query cb env w)))
  = layout_backgrounds (trace w)
    ++ [if decide (from_user (cb_message cb) = from_user upload)
        then Some (downloaded env0)
        else user_backgrounds w0 !! from_user (cb_message cb)].
Proof.
  intros Hl Hsmall Hrel0 Hb Hd Hs Hne Hrel.
  destruct (background_upload_run key upload env0 w0 ph Hl Hsmall Hrel0)
    as (B & _ & _).
  destruct (confirm_run cb env w Hd Hs Hne Hrel) as (_ & _ & T).
  cbv zeta in T.
  assert (Z0 : forall o : option Canvas,
             layout_backgrounds
               (match o with
                | Some image => [AnswerPhoto image; MessageDelete]
                | None => [MessageEditText ImageCreationError]
                end) = [])
    by (intros [c|]; reflexivity).
  rewrite T, !layout_backgrounds_app, Z0. cbn [layout_backgrounds app].
  rewrite Hb, B. f_equal. f_equal.
  destruct (decide (from_user (cb_message cb) = from_user upload)) as [->|Hn].
  - apply lookup_insert_eq.
  - now rewrite lookup_insert_ne by congruence.
Qed.

(* ===================================================================== *)
(** ** The further properties at the example inputs *)
(* ===================================================================== *)

Lemma draws_inside_canvas_witness :
  exists canvas,
    create_image_with_text example_pillow shopping_list None = Some canvas
    /\ canvas_draws canvas
       = shadow_then_glyphs 0 (py "Milk") ++ shadow_then_glyphs 1 (py "Eggs")
         ++ shadow_then_glyphs 2 (py "Bread")
    /\ Forall (inside_canvas (canvas_height canvas)) (canvas_draws canvas).
Proof.
  destruct (create_image_with_text example_pillow shopping_list None)
    as [canvas|] eqn:E; [|vm_compute in E; discriminate E].
  exists canvas. split; [reflexivity|].
  destruct (draws_inside_canvas example_pillow shopping_list None canvas E)
    as [H1 H2].
  split; [rewrite H1; reflexivity|exact H2].
Defined.

Lemma background_choice_witness :
  exists canvas,
    create_image_with_text example_pillow shopping_list (Some [Byte.x01])
    = Some canvas
    /\ canvas_background canvas = UserBackground [Byte.x01].
Proof.
  destruct (create_image_with_text example_pillow shopping_list (Some [Byte.x01]))
    as [canvas|] eqn:E; [|vm_compute in E; discriminate E].
  exists canvas. split; [reflexivity|].
  pose proof (background_choice example_pillow shopping_list (Some [Byte.x01])
                canvas E) as H.
  destruct (canvas_background canvas) as [b|rgb].
  - destruct H as (H & _). now injection H as <-.
  - destruct H as (_ & [H|[H|(b & _ & H)]]); discriminate H.
Defined.

Lemma first_terminal_response_decides_witness :
  (2 < 300)%nat
  /\ (forall j, (j < 2)%nat ->
        DatalabService.is_transient (two_then_complete j) = true)
  /\ DatalabService._poll_for_result two_then_complete
     = (Returned (Some shopping_list), retry_rounds 2 ++ [HttpGet]).
Proof.
  assert (H1 : (2 < 300)%nat) by lia.
  assert (H2 : forall j, (j < 2)%nat ->
                 DatalabService.is_transient (two_then_complete j) = true)
    by (intros [|[|j]] Hj; [reflexivity|reflexivity|lia]).
  split; [exact H1|]. split; [exact H2|].
  exact (proj1 (first_terminal_response_decides two_then_complete 2 H1 H2)
           shopping_list eq_refl).
Defined.

Lemma switch_again_is_noop_witness :
  let first := OCRService._switch_provider paddle_ok datalab_only (py "paddle") in
  fst (snd first) = true
  /\ OCRService._switch_provider no_paddle (fst first) (py "paddle")
     = (fst first, (true, OCRService.AlreadySet (lower (py "paddle")))).
Proof.
  cbv zeta.
  assert (H : fst (snd (OCRService._switch_provider paddle_ok datalab_only
                          (py "paddle"))) = true) by reflexivity.
  split; [exact H|].
  exact (switch_again_is_noop paddle_ok no_paddle datalab_only (py "paddle") H).
Defined.

Lemma selector_stays_consistent_witness :
  OCRService.known_provider (py "paddle")
  /\ consistent
       (switch_all (fst (OCRService.__init__ no_paddle (py "paddle")))
          [(paddle_ok, py "PADDLE"); (no_paddle, py "datalab");
           (no_paddle, py "tesseract")]).
Proof.
  assert (H : OCRService.known_provider (py "paddle")) by (right; reflexivity).
  split; [exact H|].
  exact (selector_stays_consistent no_paddle (py "paddle") _ H).
Defined.

Lemma local_engine_stays_local_witness :
  let self' :=
    fst (OCRService._switch_provider paddle_ok datalab_only (py "Paddle")) in
  fst (snd (OCRService._switch_provider paddle_ok datalab_only (py "Paddle"))) = true
  /\ lower (py "Paddle") = py "paddle"
  /\ OCRService.extract_text example_engine RaisesClientError (fun _ => processing)
       self' png_bytes true
     = (None, {| OCRService.engine_runs := []; OCRService.http_events := [] |})
  /\ fst (OCRService.extract_text example_engine RaisesClientError
            (fun _ => processing) self' png_bytes false)
     = Some (py "Milk" ++ [nl] ++ py "Eggs").
Proof.
  cbv zeta.
  assert (H1 : fst (snd (OCRService._switch_provider paddle_ok datalab_only
                           (py "Paddle"))) = true) by reflexivity.
  assert (H2 : lower (py "Paddle") = py "paddle") by reflexivity.
  split; [exact H1|]. split; [exact H2|].
  destruct (local_engine_stays_local paddle_ok datalab_only (py "Paddle")
              example_engine RaisesClientError (fun _ => processing) png_bytes
              H1 H2) as (A & _ & _).
  split; [exact A|reflexivity].
Defined.

Lemma what_detects_witness :
  In ("png"%string, imghdr._test_png) imghdr._tests
  /\ imghdr._test_png png_bytes = true
  /\ fst (imghdr.what (imghdr.Path []) (Some png_bytes)) = Some "png"%string.
Proof.
  assert (H : In ("png"%string, imghdr._test_png) imghdr._tests)
    by (right; left; reflexivity).
  split; [exact H|]. split; [reflexivity|].
  exact (proj2 (what_detects (imghdr.Path []) png_bytes "png" imghdr._test_png H)
           eq_refl).
Defined.

Lemma photo_upload_outcome_witness :
  let w' := snd (handle_photo 7 small_photo reading_env fresh_world) in
  fsm_state (context_of (storage fresh_world) 7) = None
  /\ reliable reading_env
  /\ fsm_state (context_of (storage w') 7) = Some waiting_for_confirmation
  /\ extracted_text_of (fsm_data (context_of (storage w') 7)) = shopping_list.
Proof.
  cbv zeta.
  assert (H1 : fsm_state (context_of (storage fresh_world) 7) = None) by reflexivity.
  assert (H4 : reliable reading_env) by (intros n; reflexivity).
  split; [exact H1|]. split; [exact H4|].
  destruct (proj1 (photo_upload_outcome 7 small_photo reading_env fresh_world
                     {| photo_file_id := py "small"; photo_file_size := Some 1000 |}
                     H1 eq_refl eq_refl H4)
              shopping_list eq_refl eq_refl) as (A & B & _).
  split; [exact A|exact B].
Defined.

Lemma confirm_consumes_session_witness :
  let r := feed_callback_query confirm_click example_env waiting_world in
  data confirm_click = py "confirm_text"
  /\ reliable example_env
  /\ fst r = Returned true
  /\ context_of (storage (snd r)) 7 = empty_context
  /\ layout_calls (trace (snd r)) = [py "milk"].
Proof.
  cbv zeta.
  assert (H1 : data confirm_click = py "confirm_text") by reflexivity.
  assert (H2 : fsm_state (context_of (storage waiting_world)
                            (cb_from_user confirm_click))
               = Some waiting_for_confirmation) by reflexivity.
  assert (H3 : extracted_text_of
                 (fsm_data (context_of (storage waiting_world)
                              (cb_from_user confirm_click))) <> [])
    by (vm_compute; discriminate).
  assert (H4 : reliable example_env) by (intros n; reflexivity).
  split; [exact H1|]. split; [exact H4|].
  destruct (confirm_consumes_session confirm_click example_env waiting_world
              H1 H2 H3 H4) as (A & B & C).
  split; [exact A|]. split; [exact B|].
  rewrite C. vm_compute. reflexivity.
Defined.

Lemma cancel_always_clears_witness :
  data cancel_click = py "cancel_text"
  /\ storage (snd (feed_callback_query cancel_click example_env editing_world))
     = <[7 := empty_context]> (storage editing_world).
Proof.
  assert (H : data cancel_click = py "cancel_text") by reflexivity.
  split; [exact H|].
  exact (proj2 (cancel_always_clears cancel_click example_env editing_world H)).
Defined.

Lemma edit_then_back_restores_witness :
  let w1 := snd (feed_callback_query edit_click example_env waiting_world) in
  let w2 := snd (feed_callback_query back_click example_env w1) in
  data edit_click = py "edit_text"
  /\ data back_click = py "back_to_confirmation"
  /\ fsm_state (context_of (storage w1) 7) = Some editing_text
  /\ context_of (storage w2) 7 = context_of (storage waiting_world) 7.
Proof.
  cbv zeta.
  assert (H1 : data edit_click = py "edit_text") by reflexivity.
  assert (H2 : data back_click = py "back_to_confirmation") by reflexivity.
  assert (H3 : extracted_text_of
                 (fsm_data (context_of (storage waiting_world)
                              (cb_from_user edit_click))) <> [])
    by (vm_compute; discriminate).
  split; [exact H1|]. split; [exact H2|].
  destruct (edit_then_back_restores edit_click back_click example_env example_env
              waiting_world H1 H2 eq_refl eq_refl H3) as (A & B).
  split; [|exact B].
  change (cb_from_user edit_click) with 7 in A. now rewrite A.
Defined.

Lemma blank_edit_rejected_witness :
  text blank_edit = Some (py "   ")
  /\ blank (py "   ") = true
  /\ storage (snd (process_edited_text 7 blank_edit example_env editing_world))
     = storage editing_world
  /\ trace (snd (process_edited_text 7 blank_edit example_env editing_world))
     = trace editing_world ++ [MessageAnswer EmptyTextRejected].
Proof.
  split; [reflexivity|]. split; [reflexivity|].
  exact (blank_edit_rejected 7 blank_edit example_env editing_world (py "   ")
           eq_refl eq_refl).
Defined.


Lemma background_upload_witness :
  let w' := snd (handle_background_photo 7 small_photo reading_env background_world) in
  last (photo small_photo)
  = Some {| photo_file_id := py "small"; photo_file_size := Some 1000 |}
  /\ reliable reading_env
  /\ user_backgrounds w' !! 7 = Some [Byte.xff; Byte.xd8; Byte.xff]
  /\ context_of (storage w') 7 = empty_context.
Proof.
  cbv zeta.
  assert (H4 : reliable reading_env) by (intros n; reflexivity).
  split; [reflexivity|]. split; [exact H4|].
  destruct (background_upload 7 small_photo reading_env background_world
              {| photo_file_id := py "small"; photo_file_size := Some 1000 |}
              eq_refl) as (_ & A & _).
  destruct (A eq_refl H4) as (B & C & _).
  split; [exact B|exact C].
Defined.

Lemma click_without_text_witness :
  data confirm_click = py "confirm_text"
  /\ extracted_text_of
       (fsm_data (context_of (storage textless_world) (cb_from_user confirm_click)))
     = []
  /\ trace (snd (feed_callback_query confirm_click example_env textless_world))
     = trace textless_world ++ [CallbackAnswer (Some TextNotFound) true].
Proof.
  assert (H1 : data confirm_click = py "confirm_text") by reflexivity.
  split; [exact H1|]. split; [reflexivity|].
  exact (proj1 (click_without_text confirm_click example_env textless_world
                  (or_introl H1) eq_refl eq_refl)).
Defined.

(** User 7 uploads a background and confirms; the buttons sit on a message
    sent by user 1000, for whom nothing is stored. *)
Lemma background_used_on_confirm_witness :
  user_backgrounds decorated_world
  = user_backgrounds (snd (handle_background_photo 7 small_photo reading_env
                             background_world))
  /\ from_user (cb_message confirm_click) = 1000
  /\ layout_backgrounds
       (trace (snd (feed_callback_query confirm_click example_env decorated_world)))
     = [None].
Proof.
  assert (H4 : user_backgrounds decorated_world
               = user_backgrounds (snd (handle_background_photo 7 small_photo
                                          reading_env background_world)))
    by reflexivity.
  assert (H7 : extracted_text_of
                 (fsm_data (context_of (storage decorated_world)
                              (cb_from_user confirm_click))) <> [])
    by (vm_compute; discriminate).
  split; [exact H4|]. split; [reflexivity|].
  rewrite (background_used_on_confirm 7 small_photo reading_env background_world
             {| photo_file_id := py "small"; photo_file_size := Some 1000 |}
             confirm_click example_env decorated_world
             eq_refl eq_refl (fun n => eq_refl) H4 eq_refl eq_refl H7
             (fun n => eq_refl)).
  reflexivity.
Defined.
